(** * Skill repository of pg-aiguide: manifest names, path policy, loading and reads

  A shallow embedding of the skill utilities module (the file that defines
  [parseSkillFile], [scanSkillDirectory], [validateSkillPath],
  [doLoadSkills], [loadSkills] and [viewSkillContent]) together with the
  properties of its specification.

  Conventions.
  - A JavaScript string is a [string]: a sequence of code units, here the
    code units U+0000 to U+00FF.  [toLowerCase] and the regular expression
    class [\s] are the ECMAScript ones restricted to that range.
  - Each use of [String.prototype.replace] with a global regular expression
    is a recursive function that scans the subject from left to right the
    way the regular expression engine does; the regular expression is
    quoted above each function.
  - [normalize] and [join] of the path module are the POSIX ones (the
    separator is the slash), written after the implementation of the host.
  - [Map] objects are [gmap]s; the module-level variables and the
    collaborators that are observed (storage, logger) form the record
    [World]; asynchronous functions run to completion one after the other. *)

From Stdlib Require Import Ascii NArith ZArith Bool.
From stdpp Require Import gmap strings list pretty.

(** ** Code units and character classes *)

Module Chars.

Definition code (c : ascii) : N := N_of_ascii c.

Definition between (lo hi : N) (c : ascii) : bool :=
  ((lo <=? code c) && (code c <=? hi))%N.

(** [a-z], [A-Z], [0-9] *)
Definition is_lower : ascii -> bool := between 97 122.
Definition is_upper : ascii -> bool := between 65 90.
Definition is_digit : ascii -> bool := between 48 57.

Definition is_dash (c : ascii) : bool := (code c =? 45)%N.
Definition is_underscore (c : ascii) : bool := (code c =? 95)%N.
Definition is_slash (c : ascii) : bool := (code c =? 47)%N.
Definition is_dot (c : ascii) : bool := (code c =? 46)%N.
Definition is_colon (c : ascii) : bool := (code c =? 58)%N.

(** The class [[-_]]. *)
Definition is_sep (c : ascii) : bool := is_dash c || is_underscore c.

(** ASCII letters and digits. *)
Definition is_alnum (c : ascii) : bool := is_lower c || is_upper c || is_digit c.

(** The class [[a-zA-Z0-9-_]] of the name pattern. *)
Definition is_name_char (c : ascii) : bool := is_alnum c || is_sep c.

(** The class [[a-z0-9]]. *)
Definition is_lower_alnum (c : ascii) : bool := is_lower c || is_digit c.

(** The class [[a-z0-9-_]] whose complement is replaced during
    normalization. *)
Definition is_norm_char (c : ascii) : bool := is_lower c || is_digit c || is_sep c.

(** The class [\s]: TAB, LF, VT, FF, CR, SPACE and NO-BREAK SPACE are its
    members below U+0100. *)
Definition is_space (c : ascii) : bool :=
  between 9 13 c || (code c =? 32)%N || (code c =? 160)%N.

(** [toLowerCase] on one code unit: A-Z, and the Latin-1 capitals
    U+00C0..U+00DE except the multiplication sign U+00D7, move up by 32. *)
Definition to_lower (c : ascii) : ascii :=
  if is_upper c || (between 192 222 c && negb (code c =? 215)%N)
  then ascii_of_N (code c + 32)
  else c.

End Chars.

Import Chars.

(** ** String primitives of the host language *)

Module Str.

Fixpoint all (p : ascii -> bool) (s : string) : bool :=
  match s with
  | EmptyString => true
  | String c s' => p c && all p s'
  end.

Fixpoint any (p : ascii -> bool) (s : string) : bool :=
  match s with
  | EmptyString => false
  | String c s' => p c || any p s'
  end.

Fixpoint map (f : ascii -> ascii) (s : string) : string :=
  match s with
  | EmptyString => EmptyString
  | String c s' => String (f c) (map f s')
  end.

Definition is_empty (s : string) : bool :=
  match s with EmptyString => true | _ => false end.

(** Does the string start with a code unit of class [p]? *)
Definition head_is (p : ascii -> bool) (s : string) : bool :=
  match s with EmptyString => false | String c _ => p c end.

(** Does the string end with a code unit of class [p]? *)
Fixpoint last_is (p : ascii -> bool) (s : string) : bool :=
  match s with
  | EmptyString => false
  | String c EmptyString => p c
  | String _ s' => last_is p s'
  end.

Fixpoint drop_while (p : ascii -> bool) (s : string) : string :=
  match s with
  | EmptyString => EmptyString
  | String c s' => if p c then drop_while p s' else s
  end.

(** [String.prototype.toLowerCase] *)
Definition toLowerCase (s : string) : string := map to_lower s.

(** [String.prototype.trim]: white space is removed at both ends. *)
Fixpoint trim_end (s : string) : string :=
  match s with
  | EmptyString => EmptyString
  | String c s' => if all is_space s then EmptyString else String c (trim_end s')
  end.

Definition trim (s : string) : string := trim_end (drop_while is_space s).

(** [String.prototype.startsWith] *)
Fixpoint startsWith (s prefix : string) : bool :=
  match prefix, s with
  | EmptyString, _ => true
  | String _ _, EmptyString => false
  | String a p', String b s' => if ascii_dec a b then startsWith s' p' else false
  end.

(** [String.prototype.includes] *)
Fixpoint includes (s sub : string) : bool :=
  startsWith s sub ||
  match s with
  | EmptyString => false
  | String _ s' => includes s' sub
  end.

(** [String.prototype.split] with a one-character separator: the empty
    string splits into one empty piece. *)
Fixpoint split_aux (sep : ascii) (cur : string) (s : string) : list string :=
  match s with
  | EmptyString => [String.rev cur]
  | String c s' =>
      if ascii_dec c sep then String.rev cur :: split_aux sep EmptyString s'
      else split_aux sep (String c cur) s'
  end.

Definition split (sep : ascii) (s : string) : list string :=
  split_aux sep EmptyString s.

(** [Array.prototype.join] *)
Fixpoint join (sep : string) (l : list string) : string :=
  match l with
  | [] => EmptyString
  | [x] => x
  | x :: l' => x +:+ sep +:+ join sep l'
  end.

(** [Array.prototype.includes] on an array of strings. *)
Definition array_includes (l : list string) (x : string) : bool :=
  bool_decide (x ∈ l).

End Str.

(** ** Manifest names *)

Module Name.

(** [/^[a-zA-Z0-9-_]+$/.test(name)] *)
Definition test (name : string) : bool :=
  negb (Str.is_empty name) && Str.all is_name_char name.

(** [.replace(/\s+/g, '-')]: every maximal run of white space becomes one
    dash.  [in_run] says that the previous code unit was white space. *)
Fixpoint replace_spaces_from (in_run : bool) (s : string) : string :=
  match s with
  | EmptyString => EmptyString
  | String c s' =>
      if is_space c then
        if in_run then replace_spaces_from true s'
        else String "-" (replace_spaces_from true s')
      else String c (replace_spaces_from false s')
  end.

Definition replace_spaces : string -> string := replace_spaces_from false.

(** [.replace(/[^a-z0-9-_]/g, '_')] *)
Definition replace_invalid : string -> string :=
  Str.map (fun c => if is_norm_char c then c else "_"%char).

(** [.replace(/L[-_]+/g, 'L')] for a leading character class [lead] of one
    character L (a dash or an underscore).  A match starts at an L that is
    followed by a dash or an underscore and takes the whole run after it;
    the replacement is L again, so the effect is: after every L that is
    kept, the dashes and underscores that follow are dropped.  [skipping]
    says that the scan is inside such a run. *)
Fixpoint collapse_from (lead : ascii -> bool) (skipping : bool) (s : string) : string :=
  match s with
  | EmptyString => EmptyString
  | String c s' =>
      if skipping && is_sep c then collapse_from lead true s'
      else String c (collapse_from lead (lead c) s')
  end.

(** [.replace(/-[-_]+/g, '-')] *)
Definition collapse_dashes : string -> string := collapse_from is_dash false.

(** [.replace(/_[_-]+/g, '_')] *)
Definition collapse_underscores : string -> string := collapse_from is_underscore false.

(** [.replace(/(^[-_]+)|([-_]+$)/g, '')].  The first alternative matches
    at offset 0 only and takes the leading run; the second one matches at
    the first offset from which only dashes and underscores remain. *)
Fixpoint strip_tail (s : string) : string :=
  match s with
  | EmptyString => EmptyString
  | String c s' => if Str.all is_sep s then EmptyString else String c (strip_tail s')
  end.

Definition strip_ends (s : string) : string :=
  strip_tail (Str.drop_while is_sep s).

(** The two collapsing replacements, in the order of the source. *)
Definition collapse_runs (s : string) : string :=
  collapse_underscores (collapse_dashes s).

(** The chain of replacements applied to a name that fails the pattern. *)
Definition normalize (name : string) : string :=
  strip_ends (collapse_runs (replace_invalid (replace_spaces (Str.toLowerCase name)))).

(** The string that reaches the last replacement of the chain. *)
Definition before_strip (name : string) : string :=
  collapse_runs (replace_invalid (replace_spaces (Str.toLowerCase name))).

(** The name that [parseSkillFile] leaves in the manifest. *)
Definition registered (name : string) : string :=
  if test name then name else normalize name.

End Name.


(** ** The host's path module (POSIX flavour): [normalize] and [join] *)

Module Path.

Definition charAt (s : string) (i : nat) : option ascii := String.get i s.

Definition char_is (p : ascii -> bool) (o : option ascii) : bool :=
  match o with Some c => p c | None => false end.

(** [s.lastIndexOf('/')], or -1. *)
Fixpoint lastIndexOf_slash_from (i : Z) (s : string) : Z :=
  match s with
  | EmptyString => (-1)%Z
  | String c s' =>
      let r := lastIndexOf_slash_from (i + 1) s' in
      if (0 <=? r)%Z then r else if is_slash c then i else (-1)%Z
  end.

Definition lastIndexOf_slash (s : string) : Z := lastIndexOf_slash_from 0 s.

(** [s.slice(a, b)] for 0 <= a. *)
Definition slice (s : string) (a b : Z) : string :=
  String.substring (Z.to_nat a) (Z.to_nat (b - a)) s.

Definition len (s : string) : Z := Z.of_nat (String.length s).

(** The variables of the loop of [normalizeString]. *)
Record Scan := mkScan {
  res : string;
  lastSegmentLength : Z;
  lastSlash : Z;
  dots : Z
}.

(** What one separator does to the scan, at offset [i] of [path]. *)
Definition at_separator (path : string) (allowAboveRoot : bool) (i : Z) (s : Scan) : Scan :=
  if (lastSlash s =? i - 1)%Z || (dots s =? 1)%Z then
    mkScan (res s) (lastSegmentLength s) i 0
  else if (dots s =? 2)%Z then
    let n := Z.to_nat (len (res s)) in
    if (len (res s) <? 2)%Z || negb (lastSegmentLength s =? 2)%Z
       || negb (char_is is_dot (charAt (res s) (n - 1)))
       || negb (char_is is_dot (charAt (res s) (n - 2)))
    then
      if (2 <? len (res s))%Z then
        let lastSlashIndex := lastIndexOf_slash (res s) in
        if (lastSlashIndex =? -1)%Z then mkScan EmptyString 0 i 0
        else
          let res' := slice (res s) 0 lastSlashIndex in
          mkScan res' (len res' - 1 - lastIndexOf_slash res') i 0
      else if negb (len (res s) =? 0)%Z then mkScan EmptyString 0 i 0
      else if allowAboveRoot then mkScan ".." 2 i 0
      else mkScan (res s) (lastSegmentLength s) i 0
    else if allowAboveRoot then
      mkScan (if (0 <? len (res s))%Z then res s +:+ "/.." else "..") 2 i 0
    else mkScan (res s) (lastSegmentLength s) i 0
  else
    let seg := slice path (lastSlash s + 1) i in
    mkScan (if (0 <? len (res s))%Z then res s +:+ "/" +:+ seg else seg)
           (i - lastSlash s - 1) i 0.

Definition at_other (c : ascii) (s : Scan) : Scan :=
  if is_dot c && negb (dots s =? -1)%Z
  then mkScan (res s) (lastSegmentLength s) (lastSlash s) (dots s + 1)
  else mkScan (res s) (lastSegmentLength s) (lastSlash s) (-1).

(** The loop [for (i = 0; i <= path.length; ++i)]: [rest] is the part of
    [path] from offset [i] on, [prev] the code unit read last. *)
Fixpoint normalizeString_loop (path : string) (allowAboveRoot : bool)
    (i : Z) (prev : option ascii) (rest : string) (s : Scan) : string :=
  match rest with
  | String c rest' =>
      let s' := if is_slash c then at_separator path allowAboveRoot i s else at_other c s in
      normalizeString_loop path allowAboveRoot (i + 1) (Some c) rest' s'
  | EmptyString =>
      if char_is is_slash prev then res s
      else res (at_separator path allowAboveRoot i s)
  end.

Definition normalizeString (path : string) (allowAboveRoot : bool) : string :=
  normalizeString_loop path allowAboveRoot 0 None path (mkScan EmptyString 0 (-1) 0).

(** [path.normalize] *)
Definition normalize (path : string) : string :=
  if Str.is_empty path then "." else
  let isAbsolute := Str.head_is is_slash path in
  let trailingSeparator := Str.last_is is_slash path in
  let p := normalizeString path (negb isAbsolute) in
  if Str.is_empty p then
    if isAbsolute then "/" else if trailingSeparator then "./" else "."
  else
    let p := if trailingSeparator then p +:+ "/" else p in
    if isAbsolute then "/" +:+ p else p.

(** [path.join]: the non-empty arguments joined by a slash, normalized. *)
Definition join (args : list string) : string :=
  match filter (fun a => Str.is_empty a = false) args with
  | [] => "."
  | parts => normalize (Str.join "/" parts)
  end.

End Path.

(** ** The path policy *)

Definition ALLOWED_SKILL_SUBDIRS : list string := ["scripts"; "references"; "assets"].
Definition SKILL_MAIN_FILE : string := "SKILL.md".

(** The result object of [validateSkillPath]. *)
Inductive Validation :=
| Valid
| Invalid (reason : string).

Definition validateSkillPath (requestedPath : string) : Validation :=
  let normalized := Path.normalize requestedPath in
  if Str.startsWith requestedPath "/" || Str.includes requestedPath ":" then
    Invalid "Absolute paths not allowed"
  else if Str.includes normalized ".." then
    Invalid "Path traversal not allowed"
  else if bool_decide (normalized = SKILL_MAIN_FILE) then Valid
  else
    match Str.split "/" normalized with
    | [subdir; _] =>
        if Str.array_includes ALLOWED_SKILL_SUBDIRS subdir then Valid
        else Invalid ("Path must be " +:+ SKILL_MAIN_FILE +:+ " or within: "
                        +:+ Str.join ", " ALLOWED_SKILL_SUBDIRS)
    | _ => Invalid ("Path must be " +:+ SKILL_MAIN_FILE +:+ " or within: "
                      +:+ Str.join ", " ALLOWED_SKILL_SUBDIRS)
    end.


(** ** Data model *)

(** Values of a parsed front matter block. *)
#[local] Set Warnings "-register-all".
Inductive Json :=
| JNull
| JBool (b : bool)
| JNumber (n : Z)
| JString (s : string)
| JArray (items : list Json)
| JObject (fields : list (string * Json)).
#[local] Set Warnings "register-all".

(** Property access [obj[key]]; [None] is [undefined]. *)
Fixpoint obj_get (fields : list (string * Json)) (key : string) : option Json :=
  match fields with
  | [] => None
  | (k, v) :: fields' => if bool_decide (k = key) then Some v else obj_get fields' key
  end.

Module SkillMatter.
Record t := mk {
  name : string;
  description : string;
  metadata : option (list (string * Json))
}.
End SkillMatter.

Module Skill.
Record t := mk {
  path : string;
  name : string;
  description : string;
  metadata : option (list (string * Json));
  availableFiles : list string
}.
End Skill.

(** An entry of a directory listing ([withFileTypes: true]). *)
Record Dirent := mkDirent {
  d_name : string;
  isFile : bool;
  isDirectory : bool
}.

(** What the module gets from outside: the location of the skills
    directory, the storage ([None]: the call is rejected) and the front
    matter library ([None]: it throws). *)
Record Host := mkHost {
  skillsDir : string;
  fs_readFile : string -> option string;
  fs_readdir : string -> option (list Dirent);
  matter : string -> option (Json * string)
}.

(** Everything that is thrown. The last four are the [new Error(...)] of
    [viewSkillContent]. *)
Inductive JsError :=
| FsError (path : string)
| MatterError
| ZodError
| SkillNotFound (name : string)
| InvalidPath (targetPath reason : string)
| FileNotFound (targetPath name : string) (availableFiles : list string)
| ReadFailure (name targetPath : string).

(** The message of the errors made by [viewSkillContent]; the other errors
    come from the libraries. *)
Definition error_message (e : JsError) : option string :=
  match e with
  | SkillNotFound name => Some ("Skill not found: " +:+ name)
  | InvalidPath targetPath reason =>
      Some ("Invalid path '" +:+ targetPath +:+ "': " +:+ reason)
  | FileNotFound targetPath name availableFiles =>
      Some ("File '" +:+ targetPath +:+ "' not found in skill '" +:+ name +:+ "'. "
            +:+ "Available files: " +:+ Str.join ", " availableFiles)
  | ReadFailure name targetPath =>
      Some ("Failed to read skill content: " +:+ name +:+ "/" +:+ targetPath)
  | FsError _ | MatterError | ZodError => None
  end.

(** Calls of the logger. *)
Inductive LogEntry :=
| WarnNormalized (name normalized : string)
| WarnDuplicate (name existingPath path : string)
| ErrorLoadSkill (skillPath : string) (err : JsError)
| WarnNoSkills
| InfoLoaded (count : nat)
| ErrorLoadSkills (err : JsError).

(** Calls of the storage. *)
Inductive Access :=
| ReadFile (path : string)
| ReadDir (path : string).

(** The module-level variables [skillContentCache] and [skillMapPromise]
    (the value the promise settles to), the map [skills] that a running
    [doLoadSkills] fills and its closures share, and the calls made so far
    to the storage and to the logger, latest first. *)
Record World := mkWorld {
  skillContentCache : gmap string string;
  skillMapPromise : option (gmap string Skill.t);
  skills : gmap string Skill.t;
  accesses : list Access;
  console : list LogEntry
}.

(** ** Computations: state and exceptions *)

Inductive Outcome (A : Type) :=
| Returned (a : A)
| Thrown (e : JsError).
Arguments Returned {A} a.
Arguments Thrown {A} e.

Definition M (A : Type) : Type := World -> Outcome A * World.

Definition ret {A} (a : A) : M A := fun w => (Returned a, w).

Definition throw {A} (e : JsError) : M A := fun w => (Thrown e, w).

Definition bind {A B} (m : M A) (k : A -> M B) : M B :=
  fun w =>
    match m w with
    | (Returned a, w') => k a w'
    | (Thrown e, w') => (Thrown e, w')
    end.

(** [try { m } catch (err) { handler err }] *)
Definition try_catch {A} (m : M A) (handler : JsError -> M A) : M A :=
  fun w =>
    match m w with
    | (Returned a, w') => (Returned a, w')
    | (Thrown e, w') => handler e w'
    end.

Definition gets {A} (f : World -> A) : M A := fun w => (Returned (f w), w).

Definition modify (f : World -> World) : M unit := fun w => (Returned tt, f w).

Notation "'do' x <- m ; k" := (bind m (fun x => k))
  (at level 10, x name, m at level 100, k at level 200).
Notation "'do' ' pat <- m ; k" := (bind m (fun x => match x with pat => k end))
  (at level 10, pat pattern, m at level 100, k at level 200).
Notation "m ;; k" := (bind m (fun _ => k))
  (at level 100, k at level 200, right associativity).

Fixpoint for_each {A} (l : list A) (body : A -> M unit) : M unit :=
  match l with
  | [] => ret tt
  | x :: l' => body x ;; for_each l' body
  end.

Definition set_cache (f : gmap string string -> gmap string string) (w : World) : World :=
  mkWorld (f (skillContentCache w)) (skillMapPromise w) (skills w) (accesses w) (console w).

Definition set_promise (p : option (gmap string Skill.t)) (w : World) : World :=
  mkWorld (skillContentCache w) p (skills w) (accesses w) (console w).

Definition set_skills (f : gmap string Skill.t -> gmap string Skill.t) (w : World) : World :=
  mkWorld (skillContentCache w) (skillMapPromise w) (f (skills w)) (accesses w) (console w).

Definition add_access (a : Access) (w : World) : World :=
  mkWorld (skillContentCache w) (skillMapPromise w) (skills w) (a :: accesses w) (console w).

Definition add_log (e : LogEntry) (w : World) : World :=
  mkWorld (skillContentCache w) (skillMapPromise w) (skills w) (accesses w) (e :: console w).

Definition log (e : LogEntry) : M unit := modify (add_log e).

(** ** The skill utilities *)

(** [zSkillMatter.parse(data)]: [name] is a string that is trimmed and then
    has at least one code unit, [description] is a string, [metadata] is
    absent or a record. *)
Definition zSkillMatter_parse (data : Json) : option SkillMatter.t :=
  match data with
  | JObject fields =>
      match obj_get fields "name", obj_get fields "description" with
      | Some (JString name), Some (JString description) =>
          let name := Str.trim name in
          if Str.is_empty name then None
          else
            match obj_get fields "metadata" with
            | None => Some (SkillMatter.mk name description None)
            | Some (JObject metadata) =>
                Some (SkillMatter.mk name description (Some metadata))
            | Some _ => None
            end
      | _, _ => None
      end
  | _ => None
  end.

Section SkillUtils.

Variable host : Host.

(** [readFile(path, 'utf-8')] *)
Definition readFile (path : string) : M string :=
  modify (add_access (ReadFile path)) ;;
  match fs_readFile host path with
  | Some content => ret content
  | None => throw (FsError path)
  end.

(** [readdir(path, { withFileTypes: true })] *)
Definition readdir (path : string) : M (list Dirent) :=
  modify (add_access (ReadDir path)) ;;
  match fs_readdir host path with
  | Some entries => ret entries
  | None => throw (FsError path)
  end.

Definition parseSkillFile (fileContent : string) : M (SkillMatter.t * string) :=
  match matter host fileContent with
  | None => throw MatterError
  | Some (data, content) =>
      match zSkillMatter_parse data with
      | None => throw ZodError
      | Some skillMatter =>
          let name := SkillMatter.name skillMatter in
          if negb (Name.test name) then
            let normalized := Name.normalize name in
            log (WarnNormalized name normalized) ;;
            ret (SkillMatter.mk normalized (SkillMatter.description skillMatter)
                   (SkillMatter.metadata skillMatter),
                 Str.trim content)
          else ret (skillMatter, Str.trim content)
      end
  end.

(** The loop of [scanSkillDirectory] over the allowed subdirectories;
    [availableFiles] is the array built so far. *)
Fixpoint scan_subdirs (skillPath : string) (subdirs : list string)
    (availableFiles : list string) : M (list string) :=
  match subdirs with
  | [] => ret availableFiles
  | subdir :: subdirs' =>
      do availableFiles' <-
        try_catch
          (do entries <- readdir (Path.join [skillPath; subdir]);
           ret (availableFiles ++
                List.map (fun entry => subdir +:+ "/" +:+ d_name entry)
                         (filter (fun entry => isFile entry = true) entries)))
          (fun _ => ret availableFiles);
      scan_subdirs skillPath subdirs' availableFiles'
  end.

Definition scanSkillDirectory (skillPath : string) : M (list string) :=
  scan_subdirs skillPath ALLOWED_SKILL_SUBDIRS [SKILL_MAIN_FILE].

(** The closure [alreadyExists] of [doLoadSkills]. *)
Definition alreadyExists (name path : string) : M bool :=
  do existing <- gets (fun w => skills w !! name);
  match existing with
  | Some existing =>
      log (WarnDuplicate name (Skill.path existing) path) ;;
      ret true
  | None => ret false
  end.

(** The closure [loadLocalPath] of [doLoadSkills]. *)
Definition loadLocalPath (path : string) : M unit :=
  let skillPath := Path.join [path; SKILL_MAIN_FILE] in
  try_catch
    (do fileContent <- readFile skillPath;
     do '(m, content) <- parseSkillFile fileContent;
     let name := SkillMatter.name m in
     do dup <- alreadyExists name path;
     if dup then ret tt
     else
       do availableFiles <- scanSkillDirectory path;
       modify (set_skills
                 <[name := Skill.mk path name (SkillMatter.description m)
                             (SkillMatter.metadata m) availableFiles]>) ;;
       modify (set_cache <[name +:+ "/" +:+ SKILL_MAIN_FILE := content]>))
    (fun err => log (ErrorLoadSkill skillPath err)).

(** The loop of [doLoadSkills] over the entries of the skills directory. *)
Definition load_entries (dirEntries : list Dirent) : M unit :=
  for_each dirEntries (fun entry =>
    if negb (isDirectory entry) then ret tt
    else loadLocalPath (Path.join [skillsDir host; d_name entry])).

Definition doLoadSkills : M (gmap string Skill.t) :=
  modify (set_skills (fun _ => ∅)) ;;
  modify (set_cache (fun _ => ∅)) ;;
  try_catch
    (do dirEntries <- readdir (skillsDir host);
     load_entries dirEntries ;;
     do count <- gets (fun w => size (skills w));
     if bool_decide (count = 0) then log WarnNoSkills
     else log (InfoLoaded count))
    (fun err => log (ErrorLoadSkills err)) ;;
  gets skills.

(** [loadSkills], for any load pass [pass] in the place of [doLoadSkills()].
    [skillMapPromise] is assigned the promise [pass.catch(...)]: when the
    pass returns, the promise holds its snapshot; when the pass throws, the
    handler logs, resets the variable and yields an empty map. *)
Definition loadSkillsWith (pass : M (gmap string Skill.t)) (force : bool)
  : M (gmap string Skill.t) :=
  do cached <- gets skillMapPromise;
  match cached, force with
  | Some snapshot, false => ret snapshot
  | _, _ =>
      try_catch
        (do snapshot <- pass;
         modify (set_promise (Some snapshot)) ;;
         ret snapshot)
        (fun err =>
           log (ErrorLoadSkills err) ;;
           modify (set_promise None) ;;
           ret ∅)
  end.

Definition loadSkills (force : bool) : M (gmap string Skill.t) :=
  loadSkillsWith doLoadSkills force.

(** The part of [viewSkillContent] after the cache lookup missed. *)
Definition read_through (skill : Skill.t) (name targetPath cacheKey : string) : M string :=
  try_catch
    (do content <- readFile (Path.join [Skill.path skill; targetPath]);
     modify (set_cache <[cacheKey := content]>) ;;
     ret content)
    (fun _ => throw (ReadFailure name targetPath)).

Definition viewSkillContent (name targetPath : string) : M string :=
  do skillsMap <- loadSkills false;
  match skillsMap !! name with
  | None => throw (SkillNotFound name)
  | Some skill =>
      match validateSkillPath targetPath with
      | Invalid reason => throw (InvalidPath targetPath reason)
      | Valid =>
          if negb (Str.array_includes (Skill.availableFiles skill) targetPath) then
            throw (FileNotFound targetPath name (Skill.availableFiles skill))
          else
            let cacheKey := name +:+ "/" +:+ targetPath in
            do cached <- gets (fun w => skillContentCache w !! cacheKey);
            match cached with
            | Some content =>
                if negb (Str.is_empty content) then ret content
                else read_through skill name targetPath cacheKey
            | None => read_through skill name targetPath cacheKey
            end
      end
  end.

End SkillUtils.



(** ** What a load pass computes

    Views of the code without the world, used to state what the load pass
    reads and registers. *)

(** The manifest and the body that [parseSkillFile] returns for a file
    content, when it returns. *)
Definition manifest_of (host : Host) (fileContent : string)
  : option (SkillMatter.t * string) :=
  match matter host fileContent with
  | None => None
  | Some (data, content) =>
      match zSkillMatter_parse data with
      | None => None
      | Some skillMatter =>
          Some (SkillMatter.mk (Name.registered (SkillMatter.name skillMatter))
                  (SkillMatter.description skillMatter)
                  (SkillMatter.metadata skillMatter),
                Str.trim content)
      end
  end.

(** The same for the main file of the skill directory [path]. *)
Definition skill_manifest (host : Host) (path : string)
  : option (SkillMatter.t * string) :=
  match fs_readFile host (Path.join [path; SKILL_MAIN_FILE]) with
  | Some fileContent => manifest_of host fileContent
  | None => None
  end.

(** The files that [scanSkillDirectory] finds in one subdirectory, and in all. *)
Definition listed_files (host : Host) (skillPath subdir : string) : list string :=
  match fs_readdir host (Path.join [skillPath; subdir]) with
  | Some entries =>
      List.map (fun entry => subdir +:+ "/" +:+ d_name entry)
               (filter (fun entry => isFile entry = true) entries)
  | None => []
  end.

Definition scanned_from (host : Host) (skillPath : string) (subdirs : list string)
  (availableFiles : list string) : list string :=
  fold_left (fun files subdir => files ++ listed_files host skillPath subdir)
            subdirs availableFiles.

Definition scanned (host : Host) (skillPath : string) : list string :=
  scanned_from host skillPath ALLOWED_SKILL_SUBDIRS [SKILL_MAIN_FILE].

(** The skill record that a load pass makes for a directory. *)
Definition skill_record (host : Host) (path : string) (m : SkillMatter.t) : Skill.t :=
  Skill.mk path (SkillMatter.name m) (SkillMatter.description m)
    (SkillMatter.metadata m) (scanned host path).

Definition cache_key (name targetPath : string) : string :=
  name +:+ "/" +:+ targetPath.

(** The registry and the content cache after [loadLocalPath path]. *)
Definition registered_after (host : Host) (path : string)
  (st : gmap string Skill.t * gmap string string)
  : gmap string Skill.t * gmap string string :=
  match skill_manifest host path with
  | Some (m, content) =>
      match st.1 !! SkillMatter.name m with
      | Some _ => st
      | None =>
          (<[SkillMatter.name m := skill_record host path m]> st.1,
           <[cache_key (SkillMatter.name m) SKILL_MAIN_FILE := content]> st.2)
      end
  | None => st
  end.

Definition entry_path (host : Host) (entry : Dirent) : string :=
  Path.join [skillsDir host; d_name entry].

(** The registry and the content cache after the loop over a listing. *)
Definition registered_after_entries (host : Host) (dirEntries : list Dirent)
  (st : gmap string Skill.t * gmap string string)
  : gmap string Skill.t * gmap string string :=
  fold_left (fun st entry =>
               if isDirectory entry then registered_after host (entry_path host entry) st
               else st)
            dirEntries st.

(** Every registered skill was made from the manifest of its directory, and
    the content cache holds the body of that manifest under the key of its
    main file. *)
Definition seeded (host : Host) (st : gmap string Skill.t * gmap string string) : Prop :=
  forall name skill,
    st.1 !! name = Some skill ->
    exists m content,
      skill_manifest host (Skill.path skill) = Some (m, content)
      /\ SkillMatter.name m = name
      /\ skill = skill_record host (Skill.path skill) m
      /\ st.2 !! cache_key name SKILL_MAIN_FILE = Some content.

(** Two worlds with the same cache, promise and registry under construction. *)
Definition same_data (w w' : World) : Prop :=
  skillContentCache w' = skillContentCache w
  /\ skillMapPromise w' = skillMapPromise w
  /\ skills w' = skills w.

(** A storage with three skill directories, two of which declare the same
    name, used to run the module. A file content is a manifest line, a bar
    and the body. *)
Definition demoHost : Host := {|
  skillsDir := "/srv/skills";
  fs_readFile := fun p =>
    if bool_decide (p = "/srv/skills/alpha/SKILL.md") then Some "name: Alpha One!|  body A  "
    else if bool_decide (p = "/srv/skills/beta/SKILL.md") then Some "name: alpha-one|body B"
    else if bool_decide (p = "/srv/skills/gamma/SKILL.md") then Some "name: gamma|"
    else if bool_decide (p = "/srv/skills/alpha/scripts/empty.sql") then Some ""
    else if bool_decide (p = "/srv/skills/alpha/scripts/a.sql") then Some "select 1"
    else None;
  fs_readdir := fun p =>
    if bool_decide (p = "/srv/skills") then
      Some [mkDirent "README.md" true false; mkDirent "alpha" false true;
            mkDirent "beta" false true; mkDirent "gamma" false true;
            mkDirent "delta" false true]
    else if bool_decide (p = "/srv/skills/alpha/scripts") then
      Some [mkDirent "a.sql" true false; mkDirent "empty.sql" true false;
            mkDirent "sub" false true]
    else None;
  matter := fun s =>
    match Str.split "|" s with
    | [h; b] =>
        Some (JObject [("name", JString (String.substring 6 100 h));
                       ("description", JString "demo")], b)
    | _ => None
    end
|}.

(** The world before the module is initialized. *)
Definition initial_world : World := mkWorld ∅ None ∅ [] [].

(** A storage whose skills directory cannot be listed. *)
Definition emptyHost : Host := {|
  skillsDir := "/srv/skills";
  fs_readFile := fun _ => None;
  fs_readdir := fun _ => None;
  matter := fun _ => None
|}.

(** ** Further vocabulary *)

(** Is there a code unit of class [p] directly followed by one of class [q]? *)
Fixpoint has_pair (p q : ascii -> bool) (s : string) : bool :=
  match s with
  | EmptyString => false
  | String c s' => (p c && Str.head_is q s') || has_pair p q s'
  end.

(** The canonical form that name normalization produces: characters of
    [[a-z0-9-_]] only, no dash or underscore at either end, no two of them
    in a row. *)
Definition canonical_name (s : string) : Prop :=
  Str.all is_norm_char s = true
  /\ Str.head_is is_sep s = false
  /\ Str.last_is is_sep s = false
  /\ has_pair is_sep is_sep s = false.

(** The content cache agrees with the storage: a snapshot is loaded, its
    names contain no slash, and every cache entry under the key of a
    registered skill and a path is the stored content of that file of the
    skill, or, for the main file, the body that the load pass took from it. *)
Definition coherent (host : Host) (w : World) : Prop :=
  exists snapshot,
    skillMapPromise w = Some snapshot
    /\ (forall name skill, snapshot !! name = Some skill -> Str.any is_slash name = false)
    /\ forall name skill targetPath content,
         snapshot !! name = Some skill ->
         skillContentCache w !! cache_key name targetPath = Some content ->
         fs_readFile host (Path.join [Skill.path skill; targetPath]) = Some content
         \/ (targetPath = SKILL_MAIN_FILE
             /\ exists m, skill_manifest host (Skill.path skill) = Some (m, content)).

(** ** The prompts and the tool that use the skill utilities *)

(** A message of a prompt result: [{ role: 'user', content: { type: 'text', text } }]. *)
Record PromptMessage := mkPromptMessage {
  role : string;
  content_type : string;
  text : string
}.

Record PromptResult := mkPromptResult {
  pr_description : string;
  messages : list PromptMessage
}.

(** [a || b] on strings: the empty string is falsy. *)
Definition or_else (a b : string) : string :=
  if Str.is_empty a then b else a.

(** One element of [promptFactories]: the factory made for an entry
    [[name, skillData]] of the snapshot [skills] of the module
    initialization.  (The order of the array is not modelled.) *)
Record PromptFactory := mkPromptFactory {
  pf_name : string;
  pf_title : string;
  pf_description : string;
  pf_fn : M PromptResult
}.

Definition promptFactory (host : Host) (name : string) (skillData : Skill.t)
  : PromptFactory :=
  {| pf_name := name;
     pf_title := name;
     pf_description := Skill.description skillData;
     pf_fn :=
       do content <- viewSkillContent host name SKILL_MAIN_FILE;
       ret {| pr_description := or_else (Skill.description skillData) name;
              messages := [mkPromptMessage "user" "text" content] |} |}.

(** The result of the tool [view_skill]. *)
Record ViewSkillOutput := mkViewSkillOutput {
  out_name : string;
  out_path : string;
  out_description : string;
  out_content : string;
  out_availableFiles : list string;
  out_metadata : option (list (string * Json))
}.

(** What the tool throws: its own error for an unknown name, or what
    [viewSkillContent] threw. *)
Inductive ToolError :=
| ToolSkillNotFound (name : string)
| ContentError (e : JsError).

Definition tool_error_message (e : ToolError) : option string :=
  match e with
  | ToolSkillNotFound name => Some ("Skill '" +:+ name +:+ "' not found")
  | ContentError e => error_message e
  end.

(** The function [fn] of [viewSkillFactory]; [skills] is the snapshot that
    the module exported when it was initialized, [path] is [None] for
    [null]. *)
Definition viewSkill_fn (host : Host) (skills : gmap string Skill.t)
    (name : string) (path : option string)
  : World -> (ToolError + ViewSkillOutput) * World :=
  fun w =>
    match skills !! name with
    | None => (inl (ToolSkillNotFound name), w)
    | Some skill =>
        let targetPath := match path with Some p => p | None => "SKILL.md" end in
        match viewSkillContent host name targetPath w with
        | (Returned content, w') =>
            (inr {| out_name := Skill.name skill;
                    out_path := targetPath;
                    out_description := or_else (Skill.description skill) "";
                    out_content := content;
                    out_availableFiles := Skill.availableFiles skill;
                    out_metadata := Skill.metadata skill |}, w')
        | (Thrown e, w') => (inl (ContentError e), w')
        end
    end.

(** ** The script that checks the upstream skill files *)

Module Upstream.

Record UpstreamConfig := mkConfig {
  source_url : string;
  pinned_commit : string;
  pinned_url : string;
  local_path : string;
  notes : option string
}.

(** What [response.text()] does. *)
Inductive TextOutcome :=
| TextResolved (body : string)
| TextRejected (message : string).

(** What [fetch(url)] does: it rejects, or it gives a response. A thrown
    value is kept as the string that
    [error instanceof Error ? error.message : String(error)] makes of it. *)
Inductive FetchOutcome :=
| FetchRejected (message : string)
| FetchResponse (ok : bool) (status : N) (statusText : string) (body : TextOutcome).

(** The network: the outcome of the fetch of a URL, given the number of
    fetches made before it. *)
Definition Network : Type := nat -> string -> FetchOutcome.

(** What the script has written and fetched, in the order of the calls:
    the lines of [console.log], the arguments of [console.error] (a label
    and a thrown value) and the URLs given to [fetch]. *)
Record Script := mkScript {
  stdout : list string;
  stderr : list (string * string);
  fetched : list string
}.

Definition console_log (line : string) (s : Script) : Script :=
  mkScript (stdout s ++ [line]) (stderr s) (fetched s).

Definition console_logs (lines : list string) (s : Script) : Script :=
  fold_left (fun s line => console_log line s) lines s.

Definition LF : string := String "010"%char EmptyString.

(** [fetchContent]: [inl] is the message of what it throws. *)
Definition fetchContent (net : Network) (url : string) (s : Script)
  : (string + string) * Script :=
  let s' := mkScript (stdout s) (stderr s) (fetched s ++ [url]) in
  match net (length (fetched s)) url with
  | FetchRejected message => (inl message, s')
  | FetchResponse ok status statusText body =>
      if negb ok then
        (inl ("Failed to fetch " +:+ url +:+ ": " +:+ pretty status +:+ " " +:+ statusText),
         s')
      else
        match body with
        | TextResolved content => (inr content, s')
        | TextRejected message => (inl message, s')
        end
  end.

Record CheckResult := mkResult {
  name : string;
  changed : bool;
  error : option string
}.

Definition checkSkill (net : Network) (skillName : string) (config : UpstreamConfig)
    (s : Script) : CheckResult * Script :=
  let s1 := console_log ("  Fetching pinned version from: " +:+ pinned_url config) s in
  match fetchContent net (pinned_url config) s1 with
  | (inl message, s2) => (mkResult skillName false (Some message), s2)
  | (inr pinnedContent, s2) =>
      let s3 := console_log ("  Fetching current version from: " +:+ source_url config) s2 in
      match fetchContent net (source_url config) s3 with
      | (inl message, s4) => (mkResult skillName false (Some message), s4)
      | (inr currentContent, s4) =>
          if bool_decide (pinnedContent <> currentContent)
          then (mkResult skillName true None, s4)
          else (mkResult skillName false None, s4)
      end
  end.

(** The truthiness of [r.error]: absent and empty are falsy. *)
Definition has_error (r : CheckResult) : bool :=
  match error r with
  | Some message => negb (Str.is_empty message)
  | None => false
  end.

(** How the configuration file was read and parsed: it does not exist, or
    reading or parsing failed otherwise, or it gave an object, here the
    list of its entries in the order of [Object.keys]. *)
Inductive ConfigOutcome :=
| ConfigMissing
| ConfigFailed (message : string)
| ConfigParsed (entries : list (string * UpstreamConfig)).

(** The loop of [main] over the skill names. *)
Fixpoint check_all (net : Network) (entries : list (string * UpstreamConfig))
    (results : list CheckResult) (s : Script) : list CheckResult * Script :=
  match entries with
  | [] => (results, s)
  | (skillName, config) :: entries' =>
      let s1 := console_log ("Checking skill: " +:+ skillName) s in
      let '(result, s2) := checkSkill net skillName config s1 in
      check_all net entries' (results ++ [result]) (console_log "" s2)
  end.

Definition report_section (title : string) (lines : list string) (s : Script) : Script :=
  match lines with
  | [] => s
  | _ => console_log "" (console_logs lines (console_log title s))
  end.

(** The part of [main] after the loop: the report and the exit code. *)
Definition report (results : list CheckResult) (s : Script) : N * Script :=
  let s := console_log ("=== Results ===" +:+ LF) s in
  let errors := filter (fun r => has_error r = true) results in
  let changes := filter (fun r => changed r && negb (has_error r) = true) results in
  let upToDate := filter (fun r => negb (changed r) && negb (has_error r) = true) results in
  let s := report_section "Up to date:"
             (List.map (fun r => "  - " +:+ name r) upToDate) s in
  let s := report_section "Errors:"
             (List.map (fun r => "  - " +:+ name r +:+ ": "
                                 +:+ match error r with Some m => m | None => "undefined" end)
                       errors) s in
  match changes with
  | _ :: _ =>
      let s := console_log "UPSTREAM CHANGES DETECTED:" s in
      let s := console_logs (List.map (fun r => "  - " +:+ name r) changes) s in
      let s := console_log "" s in
      let s := console_log
                 "Please review the upstream changes and update the local skill files if needed." s in
      let s := console_log
                 "After updating, update the pinned_commit in upstream-skills.json to the new commit hash." s in
      (1%N, s)
  | [] =>
      match errors with
      | _ :: _ => (2%N, s)
      | [] =>
          (0%N, console_log "All skills are up to date with their upstream sources." s)
      end
  end.

(** [main().catch(...)]: the exit code of the process and what it wrote. *)
Definition main (net : Network) (config : ConfigOutcome) (s : Script) : N * Script :=
  let s := console_log ("Checking upstream skill files for updates..." +:+ LF) s in
  match config with
  | ConfigMissing =>
      (0%N, console_log "No upstream-skills.json found. Nothing to check." s)
  | ConfigFailed message =>
      (2%N, mkScript (stdout s) (stderr s ++ [("Fatal error:", message)]) (fetched s))
  | ConfigParsed [] =>
      (0%N, console_log "No upstream skills configured. Nothing to check." s)
  | ConfigParsed entries =>
      let '(results, s) := check_all net entries [] s in
      report results s
  end.

(** The text that a fetch delivers to [fetchContent], if it does. *)
Definition delivered (o : FetchOutcome) : option string :=
  match o with
  | FetchResponse true _ _ (TextResolved body) => Some body
  | _ => None
  end.

End Upstream.

(** The loop of [normalizeString] over the code units of a segment that
    has no separator. *)
Fixpoint scan_segment (seg : string) (s : Path.Scan) : Path.Scan :=
  match seg with
  | EmptyString => s
  | String c seg' => scan_segment seg' (Path.at_other c s)
  end.

(** * Properties *)

(** ** The host functions on known inputs *)

Example normalize_documented :
  Path.normalize "/foo/bar//baz/asdf/quux/.." = "/foo/bar/baz/asdf"
  /\ Path.join ["/foo"; "bar"; "baz/asdf"; "quux"; ".."] = "/foo/bar/baz/asdf"
  /\ Path.normalize "" = "."
  /\ Path.normalize "./scripts//a.sql" = "scripts/a.sql"
  /\ Path.normalize "scripts/../../../x" = "../../x"
  /\ Path.normalize "a/../" = "./"
  /\ Path.normalize "/.." = "/".
Proof. repeat split; vm_compute; reflexivity. Qed.

Example string_primitives :
  Str.split "/" "scripts/sub/d.sql" = ["scripts"; "sub"; "d.sql"]
  /\ Str.split "/" "" = [""]
  /\ Str.split "/" "scripts/" = ["scripts"; ""]
  /\ Str.includes "scripts/a..b" ".." = true
  /\ Str.includes "scripts/a.b" ".." = false
  /\ Str.startsWith "/etc/passwd" "/" = true
  /\ Str.trim "  body A  " = "body A"
  /\ Str.join ", " ALLOWED_SKILL_SUBDIRS = "scripts, references, assets".
Proof. repeat split; reflexivity. Qed.

Example replacements :
  Name.replace_spaces "a  b c" = "a-b-c"
  /\ Name.replace_invalid "a.b/c" = "a_b_c"
  /\ Name.collapse_dashes "a--_-b_-c" = "a-b_-c"
  /\ Name.collapse_underscores "a-b_-c__d" = "a-b_c_d"
  /\ Name.strip_ends "-_a-b_-" = "a-b"
  /\ Name.strip_ends "_-_" = ""
  /\ Name.normalize "My  Skill!" = "my-skill"
  /\ Name.test "setup-timescaledb-hypertables" = true
  /\ Name.test "" = false.
Proof. repeat split; reflexivity. Qed.

(** ** Character classes *)

Ltac each_char c :=
  destruct c as [[] [] [] [] [] [] [] []]; vm_compute; try reflexivity; try discriminate.

Lemma lower_alnum_to_lower c : is_lower_alnum (to_lower c) = is_alnum c.
Proof. each_char c. Qed.

Lemma lower_alnum_not_space c : is_lower_alnum c = true -> is_space c = false.
Proof. each_char c. Qed.

Lemma lower_alnum_not_sep c : is_lower_alnum c = true -> is_sep c = false.
Proof. each_char c. Qed.

Lemma sep_not_lower_alnum c : is_sep c = true -> is_lower_alnum c = false.
Proof. each_char c. Qed.

Lemma lower_alnum_is_norm c : is_lower_alnum c = true -> is_norm_char c = true.
Proof. each_char c. Qed.

Lemma norm_char_cases c : is_norm_char c = is_lower_alnum c || is_sep c.
Proof. reflexivity. Qed.

Lemma norm_is_name_char c : is_norm_char c = true -> is_name_char c = true.
Proof. each_char c. Qed.

Lemma dash_is_sep c : is_dash c = true -> is_sep c = true.
Proof. unfold is_sep. intros ->. reflexivity. Qed.

Lemma underscore_is_sep c : is_underscore c = true -> is_sep c = true.
Proof. unfold is_sep. intros ->. apply orb_true_r. Qed.

Lemma dash_not_underscore c : is_dash c = true -> is_underscore c = false.
Proof. each_char c. Qed.

(** ** Strings *)

Lemma all_app p s t : Str.all p (s +:+ t) = Str.all p s && Str.all p t.
Proof. induction s as [|c s IH]; simpl; [reflexivity|]. now rewrite IH, andb_assoc. Qed.

Lemma all_impl (p q : ascii -> bool) s :
  (forall c, p c = true -> q c = true) -> Str.all p s = true -> Str.all q s = true.
Proof.
  intros Hpq. induction s as [|c s IH]; simpl; [reflexivity|].
  intros [Hc Hs]%andb_true_iff. rewrite (Hpq _ Hc). now apply IH.
Qed.

Lemma any_true_nonempty p s : Str.any p s = true -> s <> EmptyString.
Proof. destruct s; simpl; [discriminate|congruence]. Qed.

Lemma all_none (p q : ascii -> bool) s :
  (forall c, p c = true -> q c = false) -> Str.all p s = true -> Str.any q s = false.
Proof.
  intros Hpq. induction s as [|c s IH]; simpl; [reflexivity|].
  intros [Hc Hs]%andb_true_iff. rewrite (Hpq _ Hc). now apply IH.
Qed.

Lemma all_drop_while p q s : Str.all p s = true -> Str.all p (Str.drop_while q s) = true.
Proof.
  induction s as [|c s IH]; simpl; [reflexivity|].
  intros H. destruct (q c); [|exact H].
  apply andb_true_iff in H as [_ H]. now apply IH.
Qed.

Lemma drop_while_all p s : Str.all p s = true -> Str.drop_while p s = EmptyString.
Proof.
  induction s as [|c s IH]; simpl; [reflexivity|].
  intros [-> Hs]%andb_true_iff. now apply IH.
Qed.

Lemma last_is_cons p c s :
  Str.last_is p (String c s) = if Str.is_empty s then p c else Str.last_is p s.
Proof. destruct s; reflexivity. Qed.

Lemma all_last_is p s : Str.all p s = true -> s <> EmptyString -> Str.last_is p s = true.
Proof.
  induction s as [|c s IH]; [congruence|]. intros H _.
  apply andb_true_iff in H as [Hc Hs]. rewrite last_is_cons.
  destruct s; [exact Hc|]. apply IH; [exact Hs|discriminate].
Qed.

(** ** Name normalization: the single replacements *)

Lemma collapse_cons lead b c s :
  Name.collapse_from lead b (String c s)
  = if b && is_sep c then Name.collapse_from lead true s
    else String c (Name.collapse_from lead (lead c) s).
Proof. reflexivity. Qed.

Section Collapse.

Variable lead : ascii -> bool.
Hypothesis lead_is_sep : forall c, lead c = true -> is_sep c = true.

Lemma lead_of_non_sep c : is_sep c = false -> lead c = false.
Proof.
  intros H. destruct (lead c) eqn:E; [|reflexivity].
  apply lead_is_sep in E. congruence.
Qed.

Lemma collapse_keeps_all p b s :
  Str.all p s = true -> Str.all p (Name.collapse_from lead b s) = true.
Proof.
  revert b. induction s as [|c s IH]; intros b; simpl; [reflexivity|].
  intros [Hc Hs]%andb_true_iff.
  destruct (b && is_sep c); simpl; [|rewrite Hc]; now apply IH.
Qed.

Lemma collapse_any_lower_alnum b s :
  Str.any is_lower_alnum (Name.collapse_from lead b s) = Str.any is_lower_alnum s.
Proof.
  revert b. induction s as [|c s IH]; intros b; simpl; [reflexivity|].
  destruct (b && is_sep c) eqn:E; simpl; rewrite IH; [|reflexivity].
  apply andb_true_iff in E as [_ E]. now rewrite (sep_not_lower_alnum _ E).
Qed.

(** Inside a run, a scan that is skipping drops the whole run. *)
Lemma collapse_skips_run s :
  Str.all is_sep s = true -> Name.collapse_from lead true s = EmptyString.
Proof.
  induction s as [|c s IH]; simpl; [reflexivity|].
  intros [-> Hs]%andb_true_iff. now apply IH.
Qed.

(** At a character outside of [[-_]] it does not matter whether the scan
    was skipping. *)
Lemma collapse_restart b s :
  Str.head_is is_sep s = false ->
  Name.collapse_from lead b s = Name.collapse_from lead false s.
Proof.
  destruct s as [|c s]; simpl; [reflexivity|].
  intros ->. now rewrite andb_false_r.
Qed.

Lemma collapse_head b s :
  Str.head_is is_sep s = false ->
  Str.head_is is_sep (Name.collapse_from lead b s) = false.
Proof.
  destruct s as [|c s]; simpl; [reflexivity|].
  intros H. rewrite H, andb_false_r. exact H.
Qed.

Lemma collapse_empty b s :
  Name.collapse_from lead b s = EmptyString -> Str.all is_sep s = true.
Proof.
  revert b. induction s as [|c s IH]; intros b; simpl; [reflexivity|].
  destruct (b && is_sep c) eqn:E; [|discriminate].
  apply andb_true_iff in E as [_ ->]. apply IH.
Qed.

Lemma collapse_last b s :
  Str.last_is is_sep s = false ->
  Str.last_is is_sep (Name.collapse_from lead b s) = false.
Proof.
  revert b. induction s as [|c s IH]; intros b; [reflexivity|].
  rewrite last_is_cons. intros H. simpl.
  destruct s as [|d s].
  - simpl in H. rewrite H, andb_false_r. exact H.
  - cbn [Str.is_empty] in H. destruct (b && is_sep c); [now apply IH|].
    rewrite last_is_cons.
    destruct (Str.is_empty (Name.collapse_from lead (lead c) (String d s))) eqn:E;
      [|now apply IH].
    assert (Name.collapse_from lead (lead c) (String d s) = EmptyString) as E'
      by (destruct (Name.collapse_from lead (lead c) (String d s)); [reflexivity|discriminate]).
    apply collapse_empty in E'. apply all_last_is in E'; [|discriminate]. congruence.
Qed.

(** The scan of a run that is followed by another character splits. *)
Lemma collapse_run_app b run post :
  Str.all is_sep run = true -> Str.head_is is_sep post = false ->
  Name.collapse_from lead b (run +:+ post)
  = Name.collapse_from lead b run +:+ Name.collapse_from lead false post.
Proof.
  intros Hrun Hpost. revert b Hrun.
  induction run as [|c run IH]; intros b Hrun; simpl.
  - now apply collapse_restart.
  - simpl in Hrun. apply andb_true_iff in Hrun as [Hc Hrun].
    destruct (b && is_sep c); simpl; now rewrite IH.
Qed.

(** The scan splits after a prefix that does not end inside a run. *)
Lemma collapse_prefix_app_from b pre rest :
  pre <> EmptyString -> Str.last_is is_sep pre = false ->
  Name.collapse_from lead b (pre +:+ rest)
  = Name.collapse_from lead b pre +:+ Name.collapse_from lead false rest.
Proof.
  revert b. induction pre as [|c pre IH]; intros b Hne Hpre; [congruence|].
  rewrite last_is_cons in Hpre.
  change (String c pre +:+ rest) with (String c (pre +:+ rest)).
  rewrite !collapse_cons.
  destruct (Str.is_empty pre) eqn:E.
  - destruct pre; [|discriminate]. simpl.
    rewrite Hpre, andb_false_r, (lead_of_non_sep _ Hpre). reflexivity.
  - assert (pre <> EmptyString) by (destruct pre; [discriminate|congruence]).
    destruct (b && is_sep c).
    + now apply IH.
    + rewrite IH by assumption. reflexivity.
Qed.

Lemma collapse_prefix_app pre rest :
  Str.last_is is_sep pre = false ->
  Name.collapse_from lead false (pre +:+ rest)
  = Name.collapse_from lead false pre +:+ Name.collapse_from lead false rest.
Proof.
  destruct pre as [|c pre]; [reflexivity|].
  intros H. apply collapse_prefix_app_from; [discriminate|exact H].
Qed.

End Collapse.

Lemma replace_invalid_all_norm s : Str.all is_norm_char (Name.replace_invalid s) = true.
Proof.
  unfold Name.replace_invalid.
  induction s as [|c s IH]; simpl; [reflexivity|].
  rewrite IH, andb_true_r. destruct (is_norm_char c) eqn:E; [exact E|reflexivity].
Qed.

Lemma strip_tail_keeps_all p s : Str.all p s = true -> Str.all p (Name.strip_tail s) = true.
Proof.
  induction s as [|c s IH]; [reflexivity|].
  intros H. cbn [Name.strip_tail]. destruct (Str.all is_sep (String c s)); [reflexivity|].
  simpl in *. apply andb_true_iff in H as [-> H]. now apply IH.
Qed.

Lemma strip_tail_empty s : Name.strip_tail s = EmptyString <-> Str.all is_sep s = true.
Proof.
  destruct s as [|c s]; [easy|]. cbn [Name.strip_tail].
  destruct (Str.all is_sep (String c s)); [easy|]. split; discriminate.
Qed.

Lemma to_lower_any s : Str.any is_lower_alnum (Str.toLowerCase s) = Str.any is_alnum s.
Proof.
  induction s as [|c s IH]; simpl; [reflexivity|].
  now rewrite lower_alnum_to_lower, <- IH.
Qed.

Lemma replace_spaces_any b s :
  Str.any is_lower_alnum (Name.replace_spaces_from b s) = Str.any is_lower_alnum s.
Proof.
  revert b. induction s as [|c s IH]; intros b; simpl; [reflexivity|].
  destruct (is_space c) eqn:E.
  - assert (is_lower_alnum c = false) as ->.
    { destruct (is_lower_alnum c) eqn:E'; [|reflexivity].
      apply lower_alnum_not_space in E'. congruence. }
    destruct b; simpl; apply IH.
  - simpl. now rewrite IH.
Qed.

Lemma replace_invalid_any s :
  Str.any is_lower_alnum (Name.replace_invalid s) = Str.any is_lower_alnum s.
Proof.
  unfold Name.replace_invalid.
  induction s as [|c s IH]; simpl; [reflexivity|].
  rewrite IH. f_equal.
  destruct (is_norm_char c) eqn:E; [reflexivity|].
  destruct (is_lower_alnum c) eqn:E'; [|reflexivity].
  apply lower_alnum_is_norm in E'. congruence.
Qed.

Lemma drop_seps_any s :
  Str.any is_lower_alnum (Str.drop_while is_sep s) = Str.any is_lower_alnum s.
Proof.
  induction s as [|c s IH]; simpl; [reflexivity|].
  destruct (is_sep c) eqn:E; [|reflexivity].
  now rewrite IH, (sep_not_lower_alnum _ E).
Qed.

Lemma strip_tail_any s :
  Str.any is_lower_alnum (Name.strip_tail s) = Str.any is_lower_alnum s.
Proof.
  induction s as [|c s IH]; [reflexivity|]. cbn [Name.strip_tail].
  destruct (Str.all is_sep (String c s)) eqn:E.
  - symmetry. now apply (all_none is_sep), E; apply sep_not_lower_alnum.
  - simpl. now rewrite IH.
Qed.

Lemma norm_without_alnum_is_seps s :
  Str.all is_norm_char s = true -> Str.any is_lower_alnum s = false ->
  Str.all is_sep s = true.
Proof.
  induction s as [|c s IH]; simpl; [reflexivity|].
  rewrite norm_char_cases.
  intros [Hc Hs]%andb_true_iff [Hc' Hs']%orb_false_iff.
  rewrite Hc' in Hc. simpl in Hc. rewrite Hc. now apply IH.
Qed.

(** ** Name normalization: the whole chain *)

Lemma before_strip_any name :
  Str.any is_lower_alnum (Name.before_strip name) = Str.any is_alnum name.
Proof.
  unfold Name.before_strip, Name.collapse_runs,
    Name.collapse_underscores, Name.collapse_dashes, Name.replace_spaces.
  rewrite (collapse_any_lower_alnum is_underscore), (collapse_any_lower_alnum is_dash).
  now rewrite replace_invalid_any, replace_spaces_any, to_lower_any.
Qed.

Lemma before_strip_all_norm name : Str.all is_norm_char (Name.before_strip name) = true.
Proof.
  unfold Name.before_strip, Name.collapse_runs,
    Name.collapse_underscores, Name.collapse_dashes.
  do 2 apply collapse_keeps_all. apply replace_invalid_all_norm.
Qed.

(** The letters and digits of the name decide whether anything is left. *)
Lemma normalize_any name :
  Str.any is_lower_alnum (Name.normalize name) = Str.any is_alnum name.
Proof.
  change (Name.normalize name) with (Name.strip_ends (Name.before_strip name)).
  unfold Name.strip_ends.
  now rewrite strip_tail_any, drop_seps_any, before_strip_any.
Qed.

Lemma normalize_all_norm name : Str.all is_norm_char (Name.normalize name) = true.
Proof.
  change (Name.normalize name) with (Name.strip_ends (Name.before_strip name)).
  apply strip_tail_keeps_all, all_drop_while, before_strip_all_norm.
Qed.

(** Without a letter or digit, everything is trimmed away. *)
Lemma normalize_empty name :
  Str.any is_alnum name = false -> Name.normalize name = EmptyString.
Proof.
  intros H. rewrite <- before_strip_any in H.
  change (Name.normalize name) with (Name.strip_ends (Name.before_strip name)).
  unfold Name.strip_ends.
  rewrite drop_while_all; [reflexivity|].
  apply norm_without_alnum_is_seps; [apply before_strip_all_norm|exact H].
Qed.

Lemma normalize_nonempty_iff name :
  Name.normalize name <> EmptyString <-> Str.any is_alnum name = true.
Proof.
  split.
  - intros H. destruct (Str.any is_alnum name) eqn:E; [reflexivity|].
    now apply normalize_empty in E.
  - intros H. rewrite <- normalize_any in H. now apply any_true_nonempty in H.
Qed.

Lemma test_of_norm s :
  s <> EmptyString -> Str.all is_norm_char s = true -> Name.test s = true.
Proof.
  intros Hne Hall. unfold Name.test. apply andb_true_iff. split.
  - destruct s; [congruence|reflexivity].
  - revert Hall. apply all_impl, norm_is_name_char.
Qed.

(** What is left after the chain is decided by the lower-cased name alone:
    the characters of [[a-z0-9]] in it go through every replacement, and
    nothing else survives the trimming on its own. *)
Lemma normalize_nonempty_lowered name :
  Name.normalize name <> EmptyString
  <-> Str.any is_lower_alnum (Str.toLowerCase name) = true.
Proof.
  assert (Str.any is_lower_alnum (Name.before_strip name)
          = Str.any is_lower_alnum (Str.toLowerCase name)) as Hkept.
  { unfold Name.before_strip, Name.collapse_runs,
      Name.collapse_underscores, Name.collapse_dashes, Name.replace_spaces.
    rewrite (collapse_any_lower_alnum is_underscore), (collapse_any_lower_alnum is_dash).
    now rewrite replace_invalid_any, replace_spaces_any. }
  change (Name.normalize name) with (Name.strip_ends (Name.before_strip name)).
  unfold Name.strip_ends. rewrite <- Hkept. split.
  - intros Hne. destruct (Str.any is_lower_alnum (Name.before_strip name)) eqn:E;
      [reflexivity|].
    exfalso. apply Hne. rewrite drop_while_all; [reflexivity|].
    apply norm_without_alnum_is_seps; [apply before_strip_all_norm|exact E].
  - intros Hany. apply (any_true_nonempty is_lower_alnum).
    now rewrite strip_tail_any, drop_seps_any.
Qed.

(** C7, as amended: for every manifest whose non-empty name fails the
    pattern [^[a-zA-Z0-9-_]+$], the name that gets registered is the
    normalized one, all its characters are in [[a-z0-9-_]], and it is
    non-empty exactly when the lower-cased name contains a character of
    [[a-z0-9]] (a character that normalization retains); in that case it
    matches the pattern, and otherwise it is the empty string. *)
Theorem registered_name_of_invalid_name (name : string) :
  name <> EmptyString -> Name.test name = false ->
  Name.registered name = Name.normalize name
  /\ Str.all is_norm_char (Name.registered name) = true
  /\ (Name.registered name <> EmptyString
      <-> Str.any is_lower_alnum (Str.toLowerCase name) = true)
  /\ (Str.any is_lower_alnum (Str.toLowerCase name) = true ->
      Name.test (Name.registered name) = true)
  /\ (Str.any is_lower_alnum (Str.toLowerCase name) = false ->
      Name.registered name = EmptyString).
Proof.
  intros _ Htest. unfold Name.registered. rewrite Htest.
  split; [reflexivity|]. split; [apply normalize_all_norm|].
  split; [apply normalize_nonempty_lowered|]. split.
  - intros H. apply test_of_norm; [now apply normalize_nonempty_lowered|].
    apply normalize_all_norm.
  - intros H. destruct (Name.normalize name) eqn:E; [reflexivity|].
    assert (Name.normalize name <> EmptyString) as Hne by (now rewrite E).
    apply normalize_nonempty_lowered in Hne. congruence.
Qed.

Lemma registered_name_of_invalid_name_witness :
  Name.registered "My  Skill!" = "my-skill"
  /\ Name.test (Name.registered "My  Skill!") = true.
Proof.
  assert ("My  Skill!" <> EmptyString) as Hne by discriminate.
  assert (Name.test "My  Skill!" = false) as Htest by reflexivity.
  destruct (registered_name_of_invalid_name "My  Skill!" Hne Htest) as (_ & _ & _ & H & _).
  split; [reflexivity|]. apply H. reflexivity.
Defined.

(** C7, as stated, fails: a non-empty name that fails the pattern and has
    no letter or digit is normalized to the empty string, which does not
    match [[a-zA-Z0-9-_]+]. *)
Lemma registered_name_can_be_empty :
  "!" <> EmptyString
  /\ Name.test "!" = false
  /\ Name.registered "!" = EmptyString
  /\ Name.test (Name.registered "!") = false.
Proof. repeat split; try reflexivity. discriminate. Qed.

(** C9: the name derivation of [parseSkillFile] is a function of the name,
    and it is idempotent: deriving the name again from a derived name gives
    that name. *)
Theorem registered_idempotent (name : string) :
  Name.registered (Name.registered name) = Name.registered name.
Proof.
  unfold Name.registered at 2 3.
  destruct (Name.test name) eqn:Htest.
  - unfold Name.registered. now rewrite Htest.
  - unfold Name.registered.
    destruct (Name.test (Name.normalize name)) eqn:Hn; [reflexivity|].
    destruct (Str.any is_alnum name) eqn:Hany.
    + rewrite test_of_norm in Hn; [discriminate| |apply normalize_all_norm].
      now apply normalize_nonempty_iff.
    + now rewrite (normalize_empty _ Hany).
Qed.

(** ** Runs of dashes and underscores *)

Lemma collapse_dashes_run c run post :
  is_sep c = true -> Str.all is_sep run = true -> Str.head_is is_sep post = false ->
  exists kept,
    Str.all is_sep kept = true
    /\ Name.collapse_dashes (String c run +:+ post)
       = String c kept +:+ Name.collapse_dashes post
    /\ (is_dash c = true -> kept = EmptyString).
Proof.
  intros Hc Hrun Hpost. unfold Name.collapse_dashes.
  change (String c run +:+ post) with (String c (run +:+ post)).
  rewrite collapse_cons. cbn [andb].
  rewrite (collapse_run_app is_dash) by assumption.
  exists (Name.collapse_from is_dash (is_dash c) run). split; [|split].
  - now apply collapse_keeps_all.
  - reflexivity.
  - intros ->. now apply collapse_skips_run.
Qed.

Lemma collapse_underscores_run c kept post :
  is_sep c = true -> Str.all is_sep kept = true -> Str.head_is is_sep post = false ->
  (is_dash c = true -> kept = EmptyString) ->
  Name.collapse_underscores (String c kept +:+ post)
  = String c (Name.collapse_underscores post).
Proof.
  intros Hc Hkept Hpost Hdash. unfold Name.collapse_underscores.
  change (String c kept +:+ post) with (String c (kept +:+ post)).
  rewrite collapse_cons. cbn [andb]. f_equal.
  destruct (is_dash c) eqn:E.
  - rewrite (Hdash eq_refl), (dash_not_underscore _ E). reflexivity.
  - assert (is_underscore c = true) as ->
      by (unfold is_sep in Hc; rewrite E in Hc; exact Hc).
    rewrite (collapse_run_app is_underscore) by assumption.
    now rewrite (collapse_skips_run is_underscore).
Qed.

(** C8, as amended: in the string that lower-casing and the two
    replacements leave, every maximal run of dashes and underscores
    collapses to one character, the first character of the run: a dash when
    the run starts with a dash, an underscore when it starts with an
    underscore (also when the run is mixed). *)
Theorem collapse_runs_keeps_first (pre run post : string) (c : ascii) :
  Str.last_is is_sep pre = false ->
  Str.head_is is_sep post = false ->
  is_sep c = true ->
  Str.all is_sep run = true ->
  Name.collapse_runs (pre +:+ String c run +:+ post)
  = Name.collapse_runs pre +:+ String c (Name.collapse_runs post).
Proof.
  intros Hpre Hpost Hc Hrun. unfold Name.collapse_runs.
  destruct (collapse_dashes_run c run post Hc Hrun Hpost) as (kept & Hkept & Heq & Hdash).
  unfold Name.collapse_dashes at 1.
  rewrite (collapse_prefix_app is_dash dash_is_sep) by exact Hpre.
  fold (Name.collapse_dashes pre). fold (Name.collapse_dashes (String c run +:+ post)).
  rewrite Heq. unfold Name.collapse_underscores at 1.
  rewrite (collapse_prefix_app is_underscore underscore_is_sep)
    by (apply (collapse_last is_dash), Hpre).
  fold (Name.collapse_underscores (Name.collapse_dashes pre)).
  fold (Name.collapse_underscores (String c kept +:+ Name.collapse_dashes post)).
  rewrite collapse_underscores_run; try assumption; [reflexivity|].
  now apply collapse_head.
Qed.

Lemma collapse_runs_keeps_first_witness :
  Name.collapse_runs "a_-_b--_c" = "a_b-c".
Proof.
  apply (collapse_runs_keeps_first "a" "-_" "b--_c" "_"); reflexivity.
Defined.

(** C8, as stated, fails: the name [a!-b] becomes [a_-b] after lower-casing
    and the two replacements; its run [_-] has two characters, is maximal and
    mixed, and collapses to an underscore, not to a dash. *)
Lemma mixed_run_collapses_to_underscore :
  Name.replace_invalid (Name.replace_spaces (Str.toLowerCase "a!-b")) = "a" +:+ "_-" +:+ "b"
  /\ Str.last_is is_sep "a" = false
  /\ Str.head_is is_sep "b" = false
  /\ Str.all is_sep "_-" = true
  /\ Str.any is_dash "_-" = true
  /\ Str.any is_underscore "_-" = true
  /\ 2 <= String.length "_-"
  /\ Name.collapse_runs ("a" +:+ "_-" +:+ "b") = "a_b"
  /\ Name.collapse_runs ("a" +:+ "_-" +:+ "b")
     <> Name.collapse_runs "a" +:+ "-" +:+ Name.collapse_runs "b"
  /\ Name.normalize "a!-b" = "a_b".
Proof. repeat split; try reflexivity. discriminate. Qed.

(** ** The path policy *)

Lemma validateSkillPath_absolute p :
  Str.startsWith p "/" = true \/ Str.includes p ":" = true ->
  validateSkillPath p = Invalid "Absolute paths not allowed".
Proof.
  intros H. unfold validateSkillPath.
  destruct H as [-> | ->]; [reflexivity|]. now rewrite orb_true_r.
Qed.

Lemma validateSkillPath_traversal p :
  Str.includes (Path.normalize p) ".." = true ->
  exists reason, validateSkillPath p = Invalid reason.
Proof.
  intros H. unfold validateSkillPath. rewrite H.
  destruct (Str.startsWith p "/" || Str.includes p ":"); eauto.
Qed.

(** C1: the validator rejects the three traversal and absolute examples,
    accepts the main file and one file in each allowed subdirectory, and
    rejects a path of three segments; no path that starts with a slash or
    contains a colon, and no path whose normalized form contains two
    consecutive dots, is accepted. *)
Theorem validateSkillPath_examples_and_guards :
  validateSkillPath "../../etc/passwd" = Invalid "Path traversal not allowed"
  /\ validateSkillPath "/etc/passwd" = Invalid "Absolute paths not allowed"
  /\ validateSkillPath "scripts/../../../x" = Invalid "Path traversal not allowed"
  /\ validateSkillPath "SKILL.md" = Valid
  /\ validateSkillPath "scripts/a.sql" = Valid
  /\ validateSkillPath "references/b.md" = Valid
  /\ validateSkillPath "assets/c.png" = Valid
  /\ validateSkillPath "scripts/sub/d.sql"
     = Invalid "Path must be SKILL.md or within: scripts, references, assets"
  /\ (forall p : string,
        Str.startsWith p "/" = true \/ Str.includes p ":" = true
        \/ Str.includes (Path.normalize p) ".." = true ->
        validateSkillPath p <> Valid).
Proof.
  repeat (split; [vm_compute; reflexivity|]).
  intros p [H | [H | H]].
  - rewrite validateSkillPath_absolute by auto. discriminate.
  - rewrite validateSkillPath_absolute by auto. discriminate.
  - destruct (validateSkillPath_traversal p H) as [reason ->]. discriminate.
Qed.

Lemma validateSkillPath_examples_and_guards_witness :
  validateSkillPath "scripts/a:b" <> Valid
  /\ validateSkillPath "scripts/../../b" <> Valid.
Proof.
  destruct validateSkillPath_examples_and_guards as (_ & _ & _ & _ & _ & _ & _ & _ & H).
  split; apply H.
  - right; left. reflexivity.
  - right; right. reflexivity.
Defined.

(** C2, as amended: a path that does not start with a slash, contains no
    colon, whose normalized form does not contain two consecutive dots
    anywhere (as a segment or inside a segment), and whose normalized form
    has exactly two segments of which the first is an allowed subdirectory,
    is valid; nothing else is asked of the second segment. *)
Theorem validateSkillPath_two_segments (p subdir file : string) :
  Str.startsWith p "/" = false ->
  Str.includes p ":" = false ->
  Str.includes (Path.normalize p) ".." = false ->
  Str.split "/" (Path.normalize p) = [subdir; file] ->
  subdir ∈ ALLOWED_SKILL_SUBDIRS ->
  validateSkillPath p = Valid.
Proof.
  intros Hslash Hcolon Hdots Hsplit Hsub. unfold validateSkillPath.
  rewrite Hslash, Hcolon, Hdots, Hsplit. cbn [orb].
  destruct (bool_decide _); [reflexivity|].
  unfold Str.array_includes. now rewrite bool_decide_eq_true_2.
Qed.

Lemma validateSkillPath_two_segments_witness :
  validateSkillPath "./references//notes.v2.md" = Valid.
Proof.
  apply (validateSkillPath_two_segments _ "references" "notes.v2.md");
    try reflexivity.
  unfold ALLOWED_SKILL_SUBDIRS. set_solver.
Defined.

(** C2, as stated, fails: [scripts/a..b] normalizes to itself, has two
    segments, the first one allowed, and none of its segments is the
    parent directory, but the validator rejects it. *)
Lemma validateSkillPath_rejects_dots_in_file_name :
  Str.startsWith "scripts/a..b" "/" = false
  /\ Str.includes "scripts/a..b" ":" = false
  /\ Str.split "/" (Path.normalize "scripts/a..b") = ["scripts"; "a..b"]
  /\ "scripts" ∈ ALLOWED_SKILL_SUBDIRS
  /\ (".." ∉ Str.split "/" (Path.normalize "scripts/a..b"))
  /\ validateSkillPath "scripts/a..b" = Invalid "Path traversal not allowed".
Proof.
  repeat split; try reflexivity.
  - unfold ALLOWED_SKILL_SUBDIRS. set_solver.
  - change (Str.split "/" (Path.normalize "scripts/a..b")) with ["scripts"; "a..b"].
    rewrite !elem_of_cons, elem_of_nil. intros [H | [H | []]]; discriminate.
Qed.

(** ** Running the utilities *)

Ltac run_monad :=
  cbv [bind try_catch ret throw gets modify log] in *.

Lemma same_data_refl w : same_data w w.
Proof. now repeat split. Qed.

Lemma same_data_trans w1 w2 w3 : same_data w1 w2 -> same_data w2 w3 -> same_data w1 w3.
Proof. unfold same_data. intros (-> & -> & ->) (-> & -> & ->). now repeat split. Qed.

#[local] Hint Resolve same_data_refl : core.

Section Runs.

Variable host : Host.

Lemma readFile_run path w :
  readFile host path w
  = (match fs_readFile host path with
     | Some content => Returned content
     | None => Thrown (FsError path)
     end, add_access (ReadFile path) w).
Proof. unfold readFile. run_monad. now destruct (fs_readFile host path). Qed.

Lemma readdir_run path w :
  readdir host path w
  = (match fs_readdir host path with
     | Some entries => Returned entries
     | None => Thrown (FsError path)
     end, add_access (ReadDir path) w).
Proof. unfold readdir. run_monad. now destruct (fs_readdir host path). Qed.

(** [parseSkillFile] returns what [manifest_of] says, may write to the log,
    and throws when [manifest_of] is undefined. *)
Lemma parseSkillFile_run fileContent w :
  match manifest_of host fileContent with
  | Some r =>
      exists w', parseSkillFile host fileContent w = (Returned r, w')
                 /\ same_data w w' /\ accesses w' = accesses w
  | None => exists e, parseSkillFile host fileContent w = (Thrown e, w)
  end.
Proof.
  unfold manifest_of, parseSkillFile.
  destruct (matter host fileContent) as [[data content]|]; [|eexists; reflexivity].
  destruct (zSkillMatter_parse data) as [[name description metadata]|];
    [|eexists; reflexivity].
  unfold Name.registered. cbn [SkillMatter.name SkillMatter.description SkillMatter.metadata].
  destruct (Name.test name); cbn [negb]; run_monad; eexists; repeat split.
Qed.

Lemma scan_subdirs_run skillPath subdirs availableFiles w :
  exists w',
    scan_subdirs host skillPath subdirs availableFiles w
    = (Returned (scanned_from host skillPath subdirs availableFiles), w')
    /\ same_data w w' /\ console w' = console w.
Proof.
  revert availableFiles w. induction subdirs as [|subdir subdirs IH]; intros files w.
  - eexists. repeat split.
  - cbn [scan_subdirs scanned_from fold_left]. unfold bind at 1, try_catch, bind at 1.
    rewrite readdir_run. unfold listed_files.
    destruct (fs_readdir host (Path.join [skillPath; subdir])) as [entries|]; run_monad.
    + destruct (IH (files ++ List.map (fun entry => subdir +:+ "/" +:+ d_name entry)
                         (filter (fun entry => isFile entry = true) entries))
                  (add_access (ReadDir (Path.join [skillPath; subdir])) w))
        as (w' & -> & Hsame & Hlog).
      exists w'. repeat split; try apply Hsame. exact Hlog.
    + rewrite app_nil_r.
      destruct (IH files (add_access (ReadDir (Path.join [skillPath; subdir])) w))
        as (w' & -> & Hsame & Hlog).
      exists w'. repeat split; try apply Hsame. exact Hlog.
Qed.

Lemma scanSkillDirectory_run skillPath w :
  exists w',
    scanSkillDirectory host skillPath w = (Returned (scanned host skillPath), w')
    /\ same_data w w' /\ console w' = console w.
Proof. apply scan_subdirs_run. Qed.

(** [loadLocalPath] returns, and the registry and the cache after it are
    those of [registered_after]. *)
Lemma loadLocalPath_run path w :
  exists w',
    loadLocalPath host path w = (Returned tt, w')
    /\ skillMapPromise w' = skillMapPromise w
    /\ (skills w', skillContentCache w')
       = registered_after host path (skills w, skillContentCache w).
Proof.
  unfold loadLocalPath, registered_after, skill_manifest.
  unfold try_catch, bind at 1. rewrite readFile_run.
  destruct (fs_readFile host (Path.join [path; SKILL_MAIN_FILE])) as [fileContent|];
    [|eexists; repeat split].
  unfold bind at 1.
  pose proof (parseSkillFile_run fileContent
                (add_access (ReadFile (Path.join [path; SKILL_MAIN_FILE])) w)) as Hparse.
  destruct (manifest_of host fileContent) as [[m content]|].
  - destruct Hparse as (w1 & -> & (Hc1 & Hp1 & Hs1) & _).
    unfold alreadyExists. unfold bind at 1, bind at 1, gets.
    cbn [fst snd]. cbn [skills skillContentCache skillMapPromise add_access] in Hc1, Hp1, Hs1.
    rewrite Hs1.
    destruct (skills w !! SkillMatter.name m) as [existing|].
    + run_monad. eexists. repeat split; cbn; congruence.
    + unfold ret at 1. unfold bind at 1.
      destruct (scanSkillDirectory_run path w1) as (w2 & -> & (Hc2 & Hp2 & Hs2) & _).
      run_monad. eexists. split; [reflexivity|]. cbn.
      rewrite Hc2, Hp2, Hs2, Hc1, Hp1, Hs1. split; reflexivity.
  - destruct Hparse as (e & ->). run_monad. eexists. repeat split.
Qed.

Lemma load_entries_run dirEntries w :
  exists w',
    load_entries host dirEntries w = (Returned tt, w')
    /\ skillMapPromise w' = skillMapPromise w
    /\ (skills w', skillContentCache w')
       = registered_after_entries host dirEntries (skills w, skillContentCache w).
Proof.
  revert w. induction dirEntries as [|entry dirEntries IH]; intros w.
  - exists w. repeat split.
  - unfold load_entries, registered_after_entries in *.
    cbn [for_each fold_left]. unfold bind at 1. unfold entry_path at 2.
    destruct (isDirectory entry); cbn [negb].
    + destruct (loadLocalPath_run (Path.join [skillsDir host; d_name entry]) w)
        as (w1 & -> & Hp1 & <-).
      destruct (IH w1) as (w2 & -> & Hp2 & <-).
      exists w2. repeat split. congruence.
    + unfold ret at 1. destruct (IH w) as (w2 & -> & Hp2 & <-).
      exists w2. repeat split. exact Hp2.
Qed.

(** The load pass returns, whatever the storage does. *)
Lemma doLoadSkills_run w :
  exists w',
    doLoadSkills host w = (Returned (skills w'), w')
    /\ skillMapPromise w' = skillMapPromise w
    /\ (skills w', skillContentCache w')
       = match fs_readdir host (skillsDir host) with
         | Some dirEntries => registered_after_entries host dirEntries (∅, ∅)
         | None => (∅, ∅)
         end.
Proof.
  unfold doLoadSkills. unfold bind at 1, modify at 1. unfold bind at 1, modify at 1.
  unfold bind at 1, try_catch, bind at 1. rewrite readdir_run.
  destruct (fs_readdir host (skillsDir host)) as [dirEntries|].
  - unfold bind at 1.
    destruct (load_entries_run dirEntries
                (add_access (ReadDir (skillsDir host))
                   (set_cache (fun _ => ∅) (set_skills (fun _ => ∅) w))))
      as (w1 & -> & Hp1 & Hst).
    cbn in Hp1, Hst. rewrite <- Hst.
    unfold bind at 1, gets at 1.
    destruct (bool_decide (size (skills w1) = 0)); run_monad; eexists; repeat split;
      exact Hp1.
  - run_monad. eexists. repeat split.
Qed.

Lemma doLoadSkills_enumeration_failure w :
  fs_readdir host (skillsDir host) = None ->
  exists w', doLoadSkills host w = (Returned ∅, w')
             /\ skillContentCache w' = ∅
             /\ console w' = ErrorLoadSkills (FsError (skillsDir host)) :: console w.
Proof.
  intros H. unfold doLoadSkills. unfold bind at 1, modify at 1. unfold bind at 1, modify at 1.
  unfold bind at 1, try_catch, bind at 1. rewrite readdir_run, H.
  run_monad. eexists. repeat split.
Qed.

End Runs.

Section LoadSkills.

Variable pass : M (gmap string Skill.t).

Lemma loadSkillsWith_cached snapshot w :
  skillMapPromise w = Some snapshot ->
  loadSkillsWith pass false w = (Returned snapshot, w).
Proof. intros H. unfold loadSkillsWith. run_monad. now rewrite H. Qed.

Lemma loadSkillsWith_returned force w snapshot w1 :
  skillMapPromise w = None \/ force = true ->
  pass w = (Returned snapshot, w1) ->
  loadSkillsWith pass force w = (Returned snapshot, set_promise (Some snapshot) w1).
Proof.
  intros Hfresh Hpass. unfold loadSkillsWith. run_monad.
  destruct Hfresh as [-> | ->]; [|destruct (skillMapPromise w)]; now rewrite Hpass.
Qed.

Lemma loadSkillsWith_thrown force w e w1 :
  skillMapPromise w = None \/ force = true ->
  pass w = (Thrown e, w1) ->
  loadSkillsWith pass force w
  = (Returned ∅, set_promise None (add_log (ErrorLoadSkills e) w1)).
Proof.
  intros Hfresh Hpass. unfold loadSkillsWith. run_monad.
  destruct Hfresh as [-> | ->]; [|destruct (skillMapPromise w)]; now rewrite Hpass.
Qed.

Lemma loadSkillsWith_returns force w :
  exists snapshot w', loadSkillsWith pass force w = (Returned snapshot, w').
Proof.
  destruct (skillMapPromise w) as [cached|] eqn:Hcached.
  - destruct force.
    + destruct (pass w) as [[snapshot|e] w1] eqn:Hpass.
      * erewrite loadSkillsWith_returned by eauto. eauto.
      * erewrite loadSkillsWith_thrown by eauto. eauto.
    + erewrite loadSkillsWith_cached by eauto. eauto.
  - destruct (pass w) as [[snapshot|e] w1] eqn:Hpass.
    + erewrite loadSkillsWith_returned by eauto. eauto.
    + erewrite loadSkillsWith_thrown by eauto. eauto.
Qed.

End LoadSkills.

(** C5: a load never throws.  [loadSkills] returns a snapshot for every
    pass, also one that throws; when the skills directory cannot be listed
    the load pass returns an empty snapshot, and so does [loadSkills]; when
    the pass throws, [loadSkills] returns an empty snapshot and leaves
    [skillMapPromise] reset, so that the next call runs its pass again and
    returns what that pass returns. *)
Theorem loadSkills_never_throws (host : Host) :
  (forall pass force w,
     exists snapshot w', loadSkillsWith pass force w = (Returned snapshot, w'))
  /\ (forall w, exists snapshot w', doLoadSkills host w = (Returned snapshot, w'))
  /\ (forall force w,
        fs_readdir host (skillsDir host) = None ->
        skillMapPromise w = None \/ force = true ->
        exists w1 w',
          doLoadSkills host w = (Returned ∅, w1)
          /\ loadSkills host force w = (Returned ∅, w')
          /\ skillMapPromise w' = Some ∅)
  /\ (forall pass force w e w1,
        skillMapPromise w = None \/ force = true ->
        pass w = (Thrown e, w1) ->
        exists w',
          loadSkillsWith pass force w = (Returned ∅, w')
          /\ skillMapPromise w' = None
          /\ forall pass' snapshot w2,
               pass' w' = (Returned snapshot, w2) ->
               loadSkillsWith pass' false w'
               = (Returned snapshot, set_promise (Some snapshot) w2)).
Proof.
  split; [|split; [|split]].
  - intros pass force w. apply loadSkillsWith_returns.
  - intros w. destruct (doLoadSkills_run host w) as (w' & H & _). eauto.
  - intros force w Hdir Hfresh.
    destruct (doLoadSkills_enumeration_failure host w Hdir) as (w1 & Hrun & _).
    exists w1, (set_promise (Some ∅) w1). split; [exact Hrun|]. split; [|reflexivity].
    unfold loadSkills. now apply loadSkillsWith_returned.
  - intros pass force w e w1 Hfresh Hpass.
    exists (set_promise None (add_log (ErrorLoadSkills e) w1)).
    split; [now apply loadSkillsWith_thrown|]. split; [reflexivity|].
    intros pass' snapshot w2 Hpass'. apply loadSkillsWith_returned; [now left|exact Hpass'].
Qed.

Lemma loadSkills_never_throws_witness :
  (exists w', loadSkills emptyHost false initial_world = (Returned ∅, w'))
  /\ (exists w', loadSkillsWith (throw MatterError) true initial_world = (Returned ∅, w')
                 /\ skillMapPromise w' = None).
Proof.
  destruct (loadSkills_never_throws emptyHost) as (_ & _ & Hdir & Hthrown).
  split.
  - destruct (Hdir false initial_world) as (w1 & w' & _ & H & _);
      [reflexivity|now left|]. eauto.
  - destruct (Hthrown (throw MatterError) true initial_world MatterError initial_world)
      as (w' & H & Hp & _); [now right|reflexivity|]. eauto.
Defined.

(** ** Reading content *)

Section Reads.

Variable host : Host.

Lemma read_through_run skill name targetPath cacheKey w :
  read_through host skill name targetPath cacheKey w
  = match fs_readFile host (Path.join [Skill.path skill; targetPath]) with
    | Some content =>
        (Returned content,
         set_cache <[cacheKey := content]>
           (add_access (ReadFile (Path.join [Skill.path skill; targetPath])) w))
    | None =>
        (Thrown (ReadFailure name targetPath),
         add_access (ReadFile (Path.join [Skill.path skill; targetPath])) w)
    end.
Proof.
  unfold read_through, try_catch, bind at 1. rewrite readFile_run.
  now destruct (fs_readFile host (Path.join [Skill.path skill; targetPath])).
Qed.

(** [viewSkillContent] after its call of [loadSkills]. *)
Lemma viewSkillContent_after_load name targetPath w snapshot w1 :
  loadSkills host false w = (Returned snapshot, w1) ->
  viewSkillContent host name targetPath w
  = match snapshot !! name with
    | None => (Thrown (SkillNotFound name), w1)
    | Some skill =>
        match validateSkillPath targetPath with
        | Invalid reason => (Thrown (InvalidPath targetPath reason), w1)
        | Valid =>
            if negb (Str.array_includes (Skill.availableFiles skill) targetPath) then
              (Thrown (FileNotFound targetPath name (Skill.availableFiles skill)), w1)
            else
              match skillContentCache w1 !! cache_key name targetPath with
              | Some content =>
                  if negb (Str.is_empty content) then (Returned content, w1)
                  else read_through host skill name targetPath
                         (cache_key name targetPath) w1
              | None => read_through host skill name targetPath
                          (cache_key name targetPath) w1
              end
        end
    end.
Proof.
  intros Hload. unfold viewSkillContent. unfold bind at 1. rewrite Hload.
  destruct (snapshot !! name) as [skill|]; [|reflexivity].
  destruct (validateSkillPath targetPath); [|reflexivity].
  destruct (negb (Str.array_includes (Skill.availableFiles skill) targetPath));
    [reflexivity|].
  unfold bind at 1, gets at 1. fold (cache_key name targetPath).
  destruct (skillContentCache w1 !! cache_key name targetPath) as [content|];
    [|reflexivity].
  now destruct (negb (Str.is_empty content)).
Qed.

(** With a snapshot in [skillMapPromise], [loadSkills()] returns it and
    touches nothing. *)
Lemma loadSkills_cached snapshot w :
  skillMapPromise w = Some snapshot ->
  loadSkills host false w = (Returned snapshot, w).
Proof. apply loadSkillsWith_cached. Qed.

(** After [loadSkills] has run a pass, the promise holds its snapshot. *)
Lemma loadSkills_promise force w snapshot w1 :
  loadSkills host force w = (Returned snapshot, w1) ->
  skillMapPromise w1 = Some snapshot.
Proof.
  intros H. unfold loadSkills in H.
  destruct (doLoadSkills_run host w) as (w' & Hrun & _).
  destruct (skillMapPromise w) as [cached|] eqn:Hcached; [destruct force|].
  - rewrite (loadSkillsWith_returned _ _ _ _ _ (or_intror eq_refl) Hrun) in H.
    now inversion H.
  - rewrite (loadSkillsWith_cached _ _ _ Hcached) in H. inversion H. congruence.
  - rewrite (loadSkillsWith_returned _ _ _ _ _ (or_introl Hcached) Hrun) in H.
    now inversion H.
Qed.

End Reads.

(** C6: [viewSkillContent] first takes the registry snapshot from
    [loadSkills()] (without any storage access when a snapshot is cached),
    then fails with the not-found error of the skill when the name is not in
    the snapshot; otherwise with the invalid-path error that carries the
    reason of the validator when the validator rejects the path; otherwise
    with the not-found error of the file when the path is not among the
    available files.  In each case the world is the one [loadSkills()] left:
    the content cache was not changed and the storage was not accessed, and
    the outcome does not depend on the cache or on the storage. *)
Theorem viewSkillContent_checks_in_order (host : Host) (name targetPath : string) (w : World) :
  exists snapshot w1,
    loadSkills host false w = (Returned snapshot, w1)
    /\ (forall cached, skillMapPromise w = Some cached -> snapshot = cached /\ w1 = w)
    /\ (snapshot !! name = None ->
        viewSkillContent host name targetPath w = (Thrown (SkillNotFound name), w1))
    /\ (forall skill reason,
          snapshot !! name = Some skill ->
          validateSkillPath targetPath = Invalid reason ->
          viewSkillContent host name targetPath w
          = (Thrown (InvalidPath targetPath reason), w1))
    /\ (forall skill,
          snapshot !! name = Some skill ->
          validateSkillPath targetPath = Valid ->
          targetPath ∉ Skill.availableFiles skill ->
          viewSkillContent host name targetPath w
          = (Thrown (FileNotFound targetPath name (Skill.availableFiles skill)), w1)).
Proof.
  destruct (loadSkillsWith_returns (doLoadSkills host) false w) as (snapshot & w1 & Hload).
  fold (loadSkills host false) in Hload.
  exists snapshot, w1. split; [exact Hload|]. split; [|split; [|split]].
  - intros cached Hcached. rewrite (loadSkills_cached host _ _ Hcached) in Hload.
    now inversion Hload.
  - intros Hname. rewrite (viewSkillContent_after_load host _ _ _ _ _ Hload).
    now rewrite Hname.
  - intros skill reason Hname Hvalid.
    rewrite (viewSkillContent_after_load host _ _ _ _ _ Hload).
    now rewrite Hname, Hvalid.
  - intros skill Hname Hvalid Hfile.
    rewrite (viewSkillContent_after_load host _ _ _ _ _ Hload).
    rewrite Hname, Hvalid. unfold Str.array_includes.
    now rewrite bool_decide_eq_false_2.
Qed.

(** ** The registry and the cache after a load pass *)

Lemma length_app s t : String.length (s +:+ t) = String.length s + String.length t.
Proof. induction s as [|c s IH]; simpl; [reflexivity|]. now rewrite IH. Qed.

Lemma app_inj_r s1 s2 t : s1 +:+ t = s2 +:+ t -> s1 = s2.
Proof.
  revert s2. induction s1 as [|c s1 IH]; intros [|d s2] H.
  - reflexivity.
  - apply (f_equal String.length) in H. simpl in H. rewrite !length_app in H.
    simpl in H. lia.
  - apply (f_equal String.length) in H. simpl in H. rewrite !length_app in H.
    simpl in H. lia.
  - simpl in H. injection H as -> H. f_equal. now apply IH.
Qed.

Lemma cache_key_inj name1 name2 targetPath :
  cache_key name1 targetPath = cache_key name2 targetPath -> name1 = name2.
Proof. apply app_inj_r. Qed.

Lemma scanned_from_grows host skillPath subdirs files x :
  x ∈ files -> x ∈ scanned_from host skillPath subdirs files.
Proof.
  revert files. induction subdirs as [|subdir subdirs IH]; intros files Hx; [exact Hx|].
  apply IH. apply elem_of_app. now left.
Qed.

Lemma main_file_scanned host skillPath : SKILL_MAIN_FILE ∈ scanned host skillPath.
Proof. apply scanned_from_grows. apply list_elem_of_singleton. reflexivity. Qed.

Section Registry.

Variable host : Host.

(** A name that is taken stays with its skill and its cached body. *)
Lemma registered_after_keeps path st name skill :
  st.1 !! name = Some skill ->
  (registered_after host path st).1 !! name = Some skill
  /\ (registered_after host path st).2 !! cache_key name SKILL_MAIN_FILE
     = st.2 !! cache_key name SKILL_MAIN_FILE.
Proof.
  intros Hname. unfold registered_after.
  destruct (skill_manifest host path) as [[m content]|]; [|now split].
  destruct (st.1 !! SkillMatter.name m) eqn:Hm; [now split|].
  assert (SkillMatter.name m <> name) as Hne by congruence.
  cbn [fst snd]. split.
  - now rewrite lookup_insert_ne.
  - rewrite lookup_insert_ne; [reflexivity|].
    intros H. apply cache_key_inj in H. congruence.
Qed.

Lemma registered_after_entries_keeps dirEntries st name skill :
  st.1 !! name = Some skill ->
  (registered_after_entries host dirEntries st).1 !! name = Some skill
  /\ (registered_after_entries host dirEntries st).2 !! cache_key name SKILL_MAIN_FILE
     = st.2 !! cache_key name SKILL_MAIN_FILE.
Proof.
  revert st. induction dirEntries as [|entry dirEntries IH]; intros st Hname; [now split|].
  unfold registered_after_entries in *. cbn [fold_left].
  destruct (isDirectory entry); [|now apply IH].
  destruct (registered_after_keeps (entry_path host entry) st name skill Hname) as [H1 H2].
  destruct (IH _ H1) as [H3 H4]. split; [exact H3|]. now rewrite H4.
Qed.

(** A directory whose name is taken changes nothing. *)
Lemma registered_after_taken path st m content :
  skill_manifest host path = Some (m, content) ->
  is_Some (st.1 !! SkillMatter.name m) ->
  registered_after host path st = st.
Proof.
  intros Hm [skill Hname]. unfold registered_after. now rewrite Hm, Hname.
Qed.

(** A directory whose name is free is registered and its body cached. *)
Lemma registered_after_free path st m content :
  skill_manifest host path = Some (m, content) ->
  st.1 !! SkillMatter.name m = None ->
  registered_after host path st
  = (<[SkillMatter.name m := skill_record host path m]> st.1,
     <[cache_key (SkillMatter.name m) SKILL_MAIN_FILE := content]> st.2).
Proof. intros Hm Hname. unfold registered_after. now rewrite Hm, Hname. Qed.

(** A name that no directory of the listing declares stays free. *)
Lemma registered_after_entries_free dirEntries st name :
  st.1 !! name = None ->
  (forall entry m content,
     entry ∈ dirEntries -> isDirectory entry = true ->
     skill_manifest host (entry_path host entry) = Some (m, content) ->
     SkillMatter.name m <> name) ->
  (registered_after_entries host dirEntries st).1 !! name = None.
Proof.
  revert st. induction dirEntries as [|entry dirEntries IH]; intros st Hname Hother;
    [exact Hname|].
  unfold registered_after_entries in *. cbn [fold_left].
  assert (forall entry0 m content,
            entry0 ∈ dirEntries -> isDirectory entry0 = true ->
            skill_manifest host (entry_path host entry0) = Some (m, content) ->
            SkillMatter.name m <> name) as Hrest.
  { intros e m c He. apply Hother. now apply list_elem_of_further. }
  destruct (isDirectory entry) eqn:Hdir; [|now apply IH].
  apply IH; [|exact Hrest].
  unfold registered_after.
  destruct (skill_manifest host (entry_path host entry)) as [[m content]|] eqn:Hm;
    [|exact Hname].
  destruct (st.1 !! SkillMatter.name m); [exact Hname|]. cbn [fst].
  rewrite lookup_insert_ne; [exact Hname|].
  apply (Hother entry m content); [apply list_elem_of_here|exact Hdir|exact Hm].
Qed.

Lemma registered_after_entries_app l1 l2 st :
  registered_after_entries host (l1 ++ l2) st
  = registered_after_entries host l2 (registered_after_entries host l1 st).
Proof. apply fold_left_app. Qed.

Lemma registered_after_entries_cons entry l st :
  registered_after_entries host (entry :: l) st
  = registered_after_entries host l
      (if isDirectory entry then registered_after host (entry_path host entry) st else st).
Proof. reflexivity. Qed.

Lemma seeded_registered_after path st :
  seeded host st -> seeded host (registered_after host path st).
Proof.
  intros Hst. unfold registered_after.
  destruct (skill_manifest host path) as [[m content]|] eqn:Hm; [|exact Hst].
  destruct (st.1 !! SkillMatter.name m) eqn:Hfree; [exact Hst|].
  intros name skill. cbn [fst snd].
  destruct (decide (SkillMatter.name m = name)) as [<-|Hne].
  - rewrite lookup_insert_eq. intros [= <-]. exists m, content.
    cbn [skill_record Skill.path]. repeat split; [exact Hm|].
    apply lookup_insert_eq.
  - rewrite lookup_insert_ne by exact Hne. intros Hname.
    destruct (Hst name skill Hname) as (m' & content' & H1 & H2 & H3 & H4).
    exists m', content'. repeat split; try assumption.
    rewrite lookup_insert_ne; [exact H4|].
    intros H. apply cache_key_inj in H. congruence.
Qed.

Lemma seeded_registered_after_entries dirEntries st :
  seeded host st -> seeded host (registered_after_entries host dirEntries st).
Proof.
  revert st. induction dirEntries as [|entry dirEntries IH]; intros st Hst; [exact Hst|].
  rewrite registered_after_entries_cons. apply IH.
  destruct (isDirectory entry); [now apply seeded_registered_after|exact Hst].
Qed.

Lemma seeded_empty : seeded host (∅, ∅).
Proof. intros name skill H. cbn in H. now rewrite lookup_empty in H. Qed.

(** What a load through [loadSkills] leaves behind. *)
Lemma loadSkills_fresh force w snapshot w' :
  skillMapPromise w = None \/ force = true ->
  loadSkills host force w = (Returned snapshot, w') ->
  skillMapPromise w' = Some snapshot
  /\ (snapshot, skillContentCache w')
     = match fs_readdir host (skillsDir host) with
       | Some dirEntries => registered_after_entries host dirEntries (∅, ∅)
       | None => (∅, ∅)
       end.
Proof.
  intros Hfresh Hload. split; [now apply (loadSkills_promise host force w)|].
  destruct (doLoadSkills_run host w) as (w1 & Hrun & _ & Hst).
  unfold loadSkills in Hload.
  rewrite (loadSkillsWith_returned _ _ _ _ _ Hfresh Hrun) in Hload.
  inversion Hload; subst. exact Hst.
Qed.

Lemma loadSkills_seeded force w snapshot w' :
  skillMapPromise w = None \/ force = true ->
  loadSkills host force w = (Returned snapshot, w') ->
  seeded host (snapshot, skillContentCache w').
Proof.
  intros Hfresh Hload.
  destruct (loadSkills_fresh _ _ _ _ Hfresh Hload) as [_ ->].
  destruct (fs_readdir host (skillsDir host)); [|apply seeded_empty].
  apply seeded_registered_after_entries, seeded_empty.
Qed.

End Registry.

(** ** Duplicate names *)

Lemma registered_after_is_Some host path st m content :
  skill_manifest host path = Some (m, content) ->
  is_Some ((registered_after host path st).1 !! SkillMatter.name m).
Proof.
  intros Hm. unfold registered_after. rewrite Hm.
  destruct (st.1 !! SkillMatter.name m) eqn:Hname; [now rewrite Hname|].
  cbn [fst]. rewrite lookup_insert_eq. eauto.
Qed.

(** A later directory with the name of an earlier one leaves no trace in
    the registry and in the cache, from any starting point. *)
Lemma registered_after_entries_without_later host pre mid post first later m1 m2 body1 body2 st :
  isDirectory first = true ->
  skill_manifest host (entry_path host first) = Some (m1, body1) ->
  skill_manifest host (entry_path host later) = Some (m2, body2) ->
  SkillMatter.name m2 = SkillMatter.name m1 ->
  registered_after_entries host (pre ++ first :: mid ++ later :: post) st
  = registered_after_entries host (pre ++ first :: mid ++ post) st.
Proof.
  intros Hdir1 Hm1 Hm2 Hsame.
  rewrite !registered_after_entries_app, !registered_after_entries_cons, Hdir1.
  rewrite !registered_after_entries_app, registered_after_entries_cons.
  set (st2 := registered_after host (entry_path host first)
                (registered_after_entries host pre st)).
  destruct (registered_after_is_Some host (entry_path host first)
              (registered_after_entries host pre st) m1 body1 Hm1) as [skill Hskill].
  fold st2 in Hskill.
  destruct (registered_after_entries_keeps host mid st2 _ _ Hskill) as [Hkept _].
  destruct (isDirectory later); [|reflexivity].
  rewrite (registered_after_taken host _ _ m2 body2 Hm2); [reflexivity|].
  rewrite Hsame. eauto.
Qed.

(** C4: when the listing of the skills directory has two directories whose
    manifests give the same final name, and no directory before the first
    of them gives that name, the snapshot of the load pass has under that
    name the skill of the first directory, with the body of the first
    directory in the content cache, and no skill of the snapshot comes from
    the later directory; the later directory adds nothing and replaces
    nothing: the loop over the listing ends with the same registry and the
    same content cache as the loop over the listing without the later
    directory. *)
Theorem duplicate_name_keeps_first (host : Host) (pre mid post : list Dirent)
    (first later : Dirent) (m1 m2 : SkillMatter.t) (body1 body2 : string) :
  fs_readdir host (skillsDir host) = Some (pre ++ first :: mid ++ later :: post) ->
  isDirectory first = true ->
  isDirectory later = true ->
  skill_manifest host (entry_path host first) = Some (m1, body1) ->
  skill_manifest host (entry_path host later) = Some (m2, body2) ->
  SkillMatter.name m2 = SkillMatter.name m1 ->
  (forall entry m content,
     entry ∈ pre -> isDirectory entry = true ->
     skill_manifest host (entry_path host entry) = Some (m, content) ->
     SkillMatter.name m <> SkillMatter.name m1) ->
  forall w,
    (exists snapshot w',
       doLoadSkills host w = (Returned snapshot, w')
       /\ snapshot !! SkillMatter.name m1
          = Some (skill_record host (entry_path host first) m1)
       /\ skillContentCache w' !! cache_key (SkillMatter.name m1) SKILL_MAIN_FILE
          = Some body1
       /\ (entry_path host first <> entry_path host later ->
           forall name skill,
             snapshot !! name = Some skill -> Skill.path skill <> entry_path host later))
    /\ (exists wa wb,
          load_entries host (pre ++ first :: mid ++ later :: post) w = (Returned tt, wa)
          /\ load_entries host (pre ++ first :: mid ++ post) w = (Returned tt, wb)
          /\ skills wa = skills wb
          /\ skillContentCache wa = skillContentCache wb).
Proof.
  intros Hlist Hdir1 Hdir2 Hm1 Hm2 Hsame Hpre w. split.
  - destruct (doLoadSkills_run host w) as (w' & Hrun & _ & Hst).
    rewrite Hlist in Hst. exists (skills w'), w'. split; [exact Hrun|].
    assert (seeded host (skills w', skillContentCache w')) as Hseeded
      by (rewrite Hst; apply seeded_registered_after_entries, seeded_empty).
    rewrite registered_after_entries_app, registered_after_entries_cons, Hdir1 in Hst.
    assert ((registered_after_entries host pre (∅, ∅)).1 !! SkillMatter.name m1 = None)
      as Hfree by (apply registered_after_entries_free; [apply lookup_empty|exact Hpre]).
    rewrite (registered_after_free host _ _ m1 body1 Hm1 Hfree) in Hst.
    match type of Hst with
    | _ = registered_after_entries _ ?l ?st =>
        destruct (registered_after_entries_keeps host l st (SkillMatter.name m1)
                    (skill_record host (entry_path host first) m1)) as [H1 H2];
          [apply lookup_insert_eq|]
    end.
    rewrite <- Hst in H1, H2. cbn [fst snd] in H1, H2.
    split; [exact H1|]. split; [rewrite H2; apply lookup_insert_eq|].
    intros Hpaths name skill Hname Hpath.
    destruct (Hseeded name skill Hname) as (m & content & Hm & Hn & _ & _).
    rewrite Hpath, Hm2 in Hm. injection Hm as <- _.
    rewrite <- Hn, Hsame, H1 in Hname. injection Hname as <-.
    now apply Hpaths.
  - destruct (load_entries_run host (pre ++ first :: mid ++ later :: post) w)
      as (wa & Ha & _ & Hsta).
    destruct (load_entries_run host (pre ++ first :: mid ++ post) w)
      as (wb & Hb & _ & Hstb).
    exists wa, wb. split; [exact Ha|]. split; [exact Hb|].
    rewrite (registered_after_entries_without_later host pre mid post first later
               m1 m2 body1 body2 _ Hdir1 Hm1 Hm2 Hsame) in Hsta.
    rewrite <- Hstb in Hsta. now inversion Hsta.
Qed.

Lemma duplicate_name_keeps_first_witness :
  exists snapshot w',
    doLoadSkills demoHost initial_world = (Returned snapshot, w')
    /\ Skill.path <$> snapshot !! "alpha-one" = Some "/srv/skills/alpha"
    /\ skillContentCache w' !! "alpha-one/SKILL.md" = Some "body A".
Proof.
  destruct (duplicate_name_keeps_first demoHost
              [mkDirent "README.md" true false] [] [mkDirent "gamma" false true;
                                                     mkDirent "delta" false true]
              (mkDirent "alpha" false true) (mkDirent "beta" false true)
              (SkillMatter.mk "alpha-one" "demo" None)
              (SkillMatter.mk "alpha-one" "demo" None)
              "body A" "body B") with (w := initial_world)
    as [(snapshot & w' & Hrun & Hname & Hcache & _) _];
    try reflexivity.
  - intros entry m content Hin Hdir. apply list_elem_of_singleton in Hin. subst entry.
    discriminate Hdir.
  - exists snapshot, w'. split; [exact Hrun|]. split; [|exact Hcache].
    cbn [SkillMatter.name] in Hname. rewrite Hname. reflexivity.
Defined.

(** ** Reading the main file after a load *)

Lemma manifest_of_body host fileContent m content :
  manifest_of host fileContent = Some (m, content) ->
  exists data body,
    matter host fileContent = Some (data, body) /\ content = Str.trim body.
Proof.
  unfold manifest_of. destruct (matter host fileContent) as [[data body]|]; [|discriminate].
  destruct (zSkillMatter_parse data); [|discriminate].
  intros [= _ <-]. eauto.
Qed.

(** C10: after a load through [loadSkills], every skill of the snapshot has
    the trimmed body of its main file (front matter removed) in the content
    cache under the key of its name and main file.  When that body is not
    empty, a read of the main file returns it and touches neither the
    storage nor the cache; when it is empty, the read goes to the storage,
    returns the content of the file as it is stored, front matter included,
    and puts that content into the cache. *)
Theorem main_file_read_after_load (host : Host) (force : bool) (w w' : World)
    (snapshot : gmap string Skill.t) (name : string) (skill : Skill.t) :
  skillMapPromise w = None \/ force = true ->
  loadSkills host force w = (Returned snapshot, w') ->
  snapshot !! name = Some skill ->
  exists fileContent data body,
    fs_readFile host (Path.join [Skill.path skill; SKILL_MAIN_FILE]) = Some fileContent
    /\ matter host fileContent = Some (data, body)
    /\ skillContentCache w' !! cache_key name SKILL_MAIN_FILE = Some (Str.trim body)
    /\ (Str.trim body <> EmptyString ->
        viewSkillContent host name SKILL_MAIN_FILE w' = (Returned (Str.trim body), w'))
    /\ (Str.trim body = EmptyString ->
        viewSkillContent host name SKILL_MAIN_FILE w'
        = (Returned fileContent,
           set_cache <[cache_key name SKILL_MAIN_FILE := fileContent]>
             (add_access (ReadFile (Path.join [Skill.path skill; SKILL_MAIN_FILE])) w'))).
Proof.
  intros Hfresh Hload Hname.
  pose proof (loadSkills_seeded host _ _ _ _ Hfresh Hload) as Hseeded.
  destruct (Hseeded name skill Hname) as (m & content & Hm & _ & Hskill & Hcache).
  cbn [fst snd] in Hcache.
  unfold skill_manifest in Hm.
  destruct (fs_readFile host (Path.join [Skill.path skill; SKILL_MAIN_FILE]))
    as [fileContent|] eqn:Hfile; [|discriminate].
  destruct (manifest_of_body _ _ _ _ Hm) as (data & body & Hmatter & ->).
  exists fileContent, data, body.
  split; [reflexivity|]. split; [exact Hmatter|]. split; [exact Hcache|].
  assert (viewSkillContent host name SKILL_MAIN_FILE w'
          = if negb (Str.is_empty (Str.trim body)) then (Returned (Str.trim body), w')
            else read_through host skill name SKILL_MAIN_FILE
                   (cache_key name SKILL_MAIN_FILE) w') as Hview.
  { rewrite (viewSkillContent_after_load host name SKILL_MAIN_FILE w' snapshot w').
    - rewrite Hname. change (validateSkillPath SKILL_MAIN_FILE) with Valid. cbv iota.
      unfold Str.array_includes. rewrite bool_decide_eq_true_2.
      + cbn [negb]. now rewrite Hcache.
      + rewrite Hskill. apply main_file_scanned.
    - apply loadSkills_cached. now apply (loadSkills_promise host force w). }
  rewrite Hview. split.
  - intros Hne. destruct (Str.trim body); [congruence|reflexivity].
  - intros ->. cbn [Str.is_empty negb]. now rewrite read_through_run, Hfile.
Qed.

Lemma main_file_read_after_load_witness :
  viewSkillContent demoHost "alpha-one" "SKILL.md" (loadSkills demoHost false initial_world).2
  = (Returned "body A", (loadSkills demoHost false initial_world).2)
  /\ (viewSkillContent demoHost "gamma" "SKILL.md"
        (loadSkills demoHost false initial_world).2).1
     = Returned "name: gamma|".
Proof.
  set (r := loadSkills demoHost false initial_world).
  assert (exists snapshot w',
            r = (Returned snapshot, w') /\ r.2 = w'
            /\ snapshot !! "alpha-one"
               = Some (Skill.mk "/srv/skills/alpha" "alpha-one" "demo" None
                         ["SKILL.md"; "scripts/a.sql"; "scripts/empty.sql"])
            /\ snapshot !! "gamma"
               = Some (Skill.mk "/srv/skills/gamma" "gamma" "demo" None ["SKILL.md"])
            /\ skillContentCache w' !! cache_key "alpha-one" SKILL_MAIN_FILE = Some "body A"
            /\ skillContentCache w' !! cache_key "gamma" SKILL_MAIN_FILE = Some "")
    as (snapshot & w' & Hr & -> & Halpha & Hgamma & Hbody_alpha & Hbody_gamma).
  { do 2 eexists. split; [vm_compute; reflexivity|]. repeat split; vm_compute; reflexivity. }
  assert (skillMapPromise initial_world = None \/ false = true) as Hfresh by now left.
  split.
  - destruct (main_file_read_after_load demoHost false initial_world w' snapshot
                "alpha-one" _ Hfresh Hr Halpha)
      as (fileContent & data & body & _ & _ & Hcache & Hserved & _).
    assert (Str.trim body = "body A") as Hbody by congruence.
    rewrite Hbody in Hserved. apply Hserved. discriminate.
  - destruct (main_file_read_after_load demoHost false initial_world w' snapshot
                "gamma" _ Hfresh Hr Hgamma)
      as (fileContent & data & body & Hfile & _ & Hcache & _ & Hstorage).
    assert (Str.trim body = "") as Hbody by congruence.
    change SKILL_MAIN_FILE with "SKILL.md" in Hstorage.
    rewrite (Hstorage Hbody). cbn [fst]. f_equal.
    vm_compute in Hfile. congruence.
Defined.

(** ** Reading twice *)

(** A read that returned a non-empty content is answered from the cache
    the next time: same content, and the world (storage accesses included)
    stays as it is. *)
Lemma viewSkillContent_nonempty_cached (host : Host) (name targetPath content : string)
    (w w' : World) :
  viewSkillContent host name targetPath w = (Returned content, w') ->
  content <> EmptyString ->
  viewSkillContent host name targetPath w' = (Returned content, w').
Proof.
  intros Hfirst Hne.
  destruct (loadSkillsWith_returns (doLoadSkills host) false w) as (snapshot & w1 & Hload).
  fold (loadSkills host false) in Hload.
  pose proof (loadSkills_promise host _ _ _ _ Hload) as Hpromise.
  rewrite (viewSkillContent_after_load host _ _ _ _ _ Hload) in Hfirst.
  destruct (snapshot !! name) as [skill|] eqn:Hname; [|discriminate].
  destruct (validateSkillPath targetPath) eqn:Hvalid; [|discriminate].
  destruct (negb (Str.array_includes (Skill.availableFiles skill) targetPath)) eqn:Hfile;
    [discriminate|].
  assert (skillMapPromise w' = Some snapshot
          /\ skillContentCache w' !! cache_key name targetPath = Some content)
    as [Hpromise' Hcache'].
  { destruct (skillContentCache w1 !! cache_key name targetPath) as [cached|] eqn:Hcache.
    - destruct (negb (Str.is_empty cached)) eqn:Hempty.
      + inversion Hfirst; subst. now split.
      + rewrite read_through_run in Hfirst.
        destruct (fs_readFile host (Path.join [Skill.path skill; targetPath]));
          inversion Hfirst; subst.
        split; [exact Hpromise|]. cbn. apply lookup_insert_eq.
    - rewrite read_through_run in Hfirst.
      destruct (fs_readFile host (Path.join [Skill.path skill; targetPath]));
        inversion Hfirst; subst.
      split; [exact Hpromise|]. cbn. apply lookup_insert_eq. }
  rewrite (viewSkillContent_after_load host _ _ _ _ _ (loadSkills_cached host _ _ Hpromise')).
  rewrite Hname, Hvalid, Hfile, Hcache'.
  destruct content; [congruence|reflexivity].
Qed.

(** A read of a declared file whose cached content is empty reads the
    storage. *)
Lemma viewSkillContent_empty_cached_reads_storage (host : Host)
    (name targetPath : string) (snapshot : gmap string Skill.t) (skill : Skill.t)
    (w : World) :
  skillMapPromise w = Some snapshot ->
  snapshot !! name = Some skill ->
  validateSkillPath targetPath = Valid ->
  targetPath ∈ Skill.availableFiles skill ->
  skillContentCache w !! cache_key name targetPath = Some EmptyString ->
  exists outcome w',
    viewSkillContent host name targetPath w = (outcome, w')
    /\ accesses w'
       = ReadFile (Path.join [Skill.path skill; targetPath]) :: accesses w.
Proof.
  intros Hpromise Hname Hvalid Hfile Hcache.
  rewrite (viewSkillContent_after_load host _ _ _ _ _ (loadSkills_cached host _ _ Hpromise)).
  rewrite Hname, Hvalid, Hcache. unfold Str.array_includes.
  rewrite bool_decide_eq_true_2 by exact Hfile. cbn [negb Str.is_empty].
  rewrite read_through_run.
  destruct (fs_readFile host (Path.join [Skill.path skill; targetPath]));
    do 2 eexists; split; reflexivity.
Qed.

(** C3 fails for a declared file that is empty: its content is put into
    the cache by the first read, and the second read goes to the storage
    again. *)
Theorem empty_file_is_read_from_storage_again :
  exists snapshot skill w1 w2 w3,
    loadSkills demoHost false initial_world = (Returned snapshot, w1)
    /\ snapshot !! "alpha-one" = Some skill
    /\ Skill.availableFiles skill = ["SKILL.md"; "scripts/a.sql"; "scripts/empty.sql"]
    /\ viewSkillContent demoHost "alpha-one" "scripts/empty.sql" w1 = (Returned "", w2)
    /\ skillContentCache w2 !! "alpha-one/scripts/empty.sql" = Some ""
    /\ viewSkillContent demoHost "alpha-one" "scripts/empty.sql" w2 = (Returned "", w3)
    /\ accesses w3 = ReadFile "/srv/skills/alpha/scripts/empty.sql" :: accesses w2.
Proof.
  do 5 eexists.
  split; [vm_compute; reflexivity|].
  split; [vm_compute; reflexivity|].
  split; [reflexivity|].
  split; [vm_compute; reflexivity|].
  split; [vm_compute; reflexivity|].
  split; [vm_compute; reflexivity|].
  vm_compute; reflexivity.
Qed.

Lemma viewSkillContent_checks_in_order_witness :
  exists w,
    skillMapPromise w <> None
    /\ viewSkillContent demoHost "unknown-skill" "SKILL.md" w
       = (Thrown (SkillNotFound "unknown-skill"), w)
    /\ viewSkillContent demoHost "alpha-one" "../beta/SKILL.md" w
       = (Thrown (InvalidPath "../beta/SKILL.md" "Path traversal not allowed"), w)
    /\ viewSkillContent demoHost "alpha-one" "scripts/x.sql" w
       = (Thrown (FileNotFound "scripts/x.sql" "alpha-one"
                    ["SKILL.md"; "scripts/a.sql"; "scripts/empty.sql"]), w).
Proof.
  assert (exists cached w,
            (loadSkills demoHost false initial_world).2 = w
            /\ skillMapPromise w = Some cached
            /\ cached !! "unknown-skill" = None
            /\ cached !! "alpha-one"
               = Some (Skill.mk "/srv/skills/alpha" "alpha-one" "demo" None
                         ["SKILL.md"; "scripts/a.sql"; "scripts/empty.sql"]))
    as (cached & w & _ & Hcached & Hunknown & Halpha).
  { do 2 eexists. split; [vm_compute; reflexivity|]. repeat split; vm_compute; reflexivity. }
  exists w. split; [congruence|]. split; [|split].
  - destruct (viewSkillContent_checks_in_order demoHost "unknown-skill" "SKILL.md" w)
      as (snapshot & w1 & _ & Hsame & H & _).
    destruct (Hsame _ Hcached) as [-> ->]. now apply H.
  - destruct (viewSkillContent_checks_in_order demoHost "alpha-one" "../beta/SKILL.md" w)
      as (snapshot & w1 & _ & Hsame & _ & H & _).
    destruct (Hsame _ Hcached) as [-> ->]. eapply H; [exact Halpha|reflexivity].
  - destruct (viewSkillContent_checks_in_order demoHost "alpha-one" "scripts/x.sql" w)
      as (snapshot & w1 & _ & Hsame & _ & _ & H).
    destruct (Hsame _ Hcached) as [-> ->].
    apply (H _ Halpha); [reflexivity|].
    cbn [Skill.availableFiles]. rewrite !elem_of_cons, elem_of_nil.
    intros [E | [E | [E | []]]]; discriminate E.
Defined.

(** * Further properties *)

(** ** The canonical form of normalized names *)

Lemma has_pair_weaken (p p' q : ascii -> bool) s :
  (forall c, p' c = true -> p c = true) ->
  has_pair p q s = false -> has_pair p' q s = false.
Proof.
  intros Hp. induction s as [|c s IH]; simpl; [reflexivity|].
  intros [H1 H2]%orb_false_iff. rewrite (IH H2), orb_false_r.
  destruct (p' c) eqn:E; [|reflexivity]. now rewrite (Hp _ E) in H1.
Qed.

Lemma has_pair_seps s :
  has_pair is_dash is_sep s = false -> has_pair is_underscore is_sep s = false ->
  has_pair is_sep is_sep s = false.
Proof.
  induction s as [|c s IH]; simpl; [reflexivity|].
  intros [H1 H2]%orb_false_iff [H3 H4]%orb_false_iff.
  rewrite (IH H2 H4), orb_false_r. unfold is_sep at 1.
  destruct (is_dash c); [exact H1|]. destruct (is_underscore c); [exact H3|reflexivity].
Qed.

Section CollapsePairs.

Variable lead : ascii -> bool.
Hypothesis lead_is_sep : forall c, lead c = true -> is_sep c = true.

Lemma collapse_skipping_head s :
  Str.head_is is_sep (Name.collapse_from lead true s) = false.
Proof.
  induction s as [|c s IH]; [reflexivity|]. rewrite collapse_cons. cbn [andb].
  destruct (is_sep c) eqn:E; [exact IH|]. simpl. exact E.
Qed.

Lemma collapse_false_head q s :
  Str.head_is q (Name.collapse_from lead false s) = Str.head_is q s.
Proof. destruct s; reflexivity. Qed.

(** After the replacement no kept leading character is followed by a dash
    or an underscore. *)
Lemma collapse_no_lead_pair b s :
  has_pair lead is_sep (Name.collapse_from lead b s) = false.
Proof.
  revert b. induction s as [|c s IH]; intros b; [reflexivity|].
  rewrite collapse_cons. destruct (b && is_sep c); [apply IH|].
  cbn [has_pair]. rewrite IH, orb_false_r.
  destruct (lead c) eqn:E; [|reflexivity]. cbn [andb]. apply collapse_skipping_head.
Qed.

(** The replacement makes no new pair for a class outside of [lead]. *)
Lemma collapse_keeps_no_pair (p : ascii -> bool) b s :
  (forall c, p c = true -> lead c = false) ->
  has_pair p is_sep s = false ->
  has_pair p is_sep (Name.collapse_from lead b s) = false.
Proof.
  intros Hp. revert b. induction s as [|c s IH]; intros b; [reflexivity|].
  cbn [has_pair]. intros [H1 H2]%orb_false_iff.
  rewrite collapse_cons. destruct (b && is_sep c); [now apply IH|].
  cbn [has_pair]. rewrite (IH _ H2), orb_false_r.
  destruct (p c) eqn:E; [|reflexivity]. cbn [andb] in *.
  now rewrite (Hp _ E), collapse_false_head.
Qed.

(** A string without such pairs is left as it is. *)
Lemma collapse_fixed b s :
  has_pair lead is_sep s = false ->
  (b = true -> Str.head_is is_sep s = false) ->
  Name.collapse_from lead b s = s.
Proof.
  revert b. induction s as [|c s IH]; intros b Hpair Hhead; [reflexivity|].
  cbn [has_pair] in Hpair. apply orb_false_iff in Hpair as [H1 H2].
  rewrite collapse_cons.
  assert (b && is_sep c = false) as ->.
  { destruct b; [|reflexivity]. cbn. now apply Hhead. }
  f_equal. apply IH; [exact H2|]. intros E. now rewrite E in H1.
Qed.

End CollapsePairs.

Lemma has_pair_drop_while p q r s :
  has_pair p q s = false -> has_pair p q (Str.drop_while r s) = false.
Proof.
  induction s as [|c s IH]; [reflexivity|]. intros H. cbn [Str.drop_while].
  destruct (r c); [|exact H]. apply IH. cbn [has_pair] in H.
  now apply orb_false_iff in H as [_ H].
Qed.

Lemma strip_tail_head q s :
  Str.head_is q s = false -> Str.head_is q (Name.strip_tail s) = false.
Proof.
  destruct s as [|c s]; [reflexivity|]. cbn [Name.strip_tail].
  now destruct (Str.all is_sep (String c s)).
Qed.

Lemma has_pair_strip_tail p q s :
  has_pair p q s = false -> has_pair p q (Name.strip_tail s) = false.
Proof.
  induction s as [|c s IH]; [reflexivity|]. cbn [Name.strip_tail has_pair].
  intros [H1 H2]%orb_false_iff.
  destruct (Str.all is_sep (String c s)); [reflexivity|].
  cbn [has_pair]. rewrite (IH H2), orb_false_r.
  destruct (p c); [|reflexivity]. cbn [andb] in *. now apply strip_tail_head.
Qed.

Lemma drop_while_head p s : Str.head_is p (Str.drop_while p s) = false.
Proof.
  induction s as [|c s IH]; [reflexivity|]. cbn [Str.drop_while].
  destruct (p c) eqn:E; [exact IH|exact E].
Qed.

Lemma strip_tail_last s : Str.last_is is_sep (Name.strip_tail s) = false.
Proof.
  induction s as [|c s IH]; [reflexivity|]. cbn [Name.strip_tail].
  destruct (Str.all is_sep (String c s)) eqn:E; [reflexivity|].
  rewrite last_is_cons.
  destruct (Str.is_empty (Name.strip_tail s)) eqn:E'; [|exact IH].
  assert (Name.strip_tail s = EmptyString) as Hs
    by (destruct (Name.strip_tail s); [reflexivity|discriminate]).
  apply strip_tail_empty in Hs. simpl in E. rewrite Hs, andb_true_r in E. exact E.
Qed.

Lemma strip_tail_fixed s : Str.last_is is_sep s = false -> Name.strip_tail s = s.
Proof.
  induction s as [|c s IH]; [reflexivity|]. intros H. cbn [Name.strip_tail].
  destruct (Str.all is_sep (String c s)) eqn:E.
  - apply all_last_is in E; [congruence|discriminate].
  - f_equal. rewrite last_is_cons in H. destruct s; [reflexivity|]. now apply IH.
Qed.

Lemma drop_while_fixed p s : Str.head_is p s = false -> Str.drop_while p s = s.
Proof. destruct s as [|c s]; [reflexivity|]. simpl. now intros ->. Qed.

Lemma to_lower_norm_char c : is_norm_char c = true -> to_lower c = c.
Proof. each_char c. Qed.

Lemma norm_char_not_space c : is_norm_char c = true -> is_space c = false.
Proof. each_char c. Qed.

Lemma toLowerCase_fixed s : Str.all is_norm_char s = true -> Str.toLowerCase s = s.
Proof.
  unfold Str.toLowerCase. induction s as [|c s IH]; simpl; [reflexivity|].
  intros [Hc Hs]%andb_true_iff. now rewrite (to_lower_norm_char _ Hc), IH.
Qed.

Lemma replace_spaces_fixed b s :
  Str.all is_norm_char s = true -> Name.replace_spaces_from b s = s.
Proof.
  revert b. induction s as [|c s IH]; intros b; simpl; [reflexivity|].
  intros [Hc Hs]%andb_true_iff. now rewrite (norm_char_not_space _ Hc), IH.
Qed.

Lemma replace_invalid_fixed s :
  Str.all is_norm_char s = true -> Name.replace_invalid s = s.
Proof.
  unfold Name.replace_invalid. induction s as [|c s IH]; simpl; [reflexivity|].
  intros [Hc Hs]%andb_true_iff. now rewrite Hc, IH.
Qed.

Lemma before_strip_no_pairs name :
  has_pair is_sep is_sep (Name.before_strip name) = false.
Proof.
  unfold Name.before_strip, Name.collapse_runs, Name.collapse_underscores,
    Name.collapse_dashes.
  apply has_pair_seps.
  - apply collapse_keeps_no_pair; [apply dash_not_underscore|].
    apply collapse_no_lead_pair.
  - apply collapse_no_lead_pair.
Qed.

Lemma strip_ends_trimmed s :
  Str.head_is is_sep (Name.strip_ends s) = false
  /\ Str.last_is is_sep (Name.strip_ends s) = false.
Proof.
  unfold Name.strip_ends. split; [apply strip_tail_head, drop_while_head|apply strip_tail_last].
Qed.

Lemma normalize_is_canonical name : canonical_name (Name.normalize name).
Proof.
  split; [apply normalize_all_norm|].
  change (Name.normalize name) with (Name.strip_ends (Name.before_strip name)).
  destruct (strip_ends_trimmed (Name.before_strip name)) as [Hhead Hlast].
  repeat split; try assumption.
  apply has_pair_strip_tail, has_pair_drop_while, before_strip_no_pairs.
Qed.

(** X1: the normalized name is in canonical form: only characters of
    [[a-z0-9-_]], no dash or underscore at its start or at its end, and no two
    dashes or underscores in a row. *)
Theorem normalize_canonical (name : string) : canonical_name (Name.normalize name).
Proof.
  unfold canonical_name.
  change (Name.normalize name) with (Name.strip_ends (Name.before_strip name)).
  destruct (strip_ends_trimmed (Name.before_strip name)) as [Hhead Hlast].
  split; [apply (normalize_all_norm name)|]. split; [exact Hhead|]. split; [exact Hlast|].
  unfold Name.strip_ends.
  apply has_pair_strip_tail, has_pair_drop_while, before_strip_no_pairs.
Qed.

Lemma normalize_fixed s : canonical_name s -> Name.normalize s = s.
Proof.
  intros (Hall & Hhead & Hlast & Hpair). unfold Name.normalize.
  rewrite (toLowerCase_fixed _ Hall). unfold Name.replace_spaces.
  rewrite (replace_spaces_fixed _ _ Hall), (replace_invalid_fixed _ Hall).
  unfold Name.collapse_runs, Name.collapse_dashes, Name.collapse_underscores.
  rewrite (collapse_fixed is_dash); [|apply (has_pair_weaken is_sep), Hpair; apply dash_is_sep
                                     |discriminate].
  rewrite (collapse_fixed is_underscore);
    [|apply (has_pair_weaken is_sep), Hpair; apply underscore_is_sep|discriminate].
  unfold Name.strip_ends. rewrite (drop_while_fixed _ _ Hhead). now apply strip_tail_fixed.
Qed.

(** X2: normalization is idempotent, and its fixed points are exactly the
    names in canonical form. *)
Theorem normalize_idempotent (name : string) :
  Name.normalize (Name.normalize name) = Name.normalize name
  /\ (Name.normalize name = name <-> canonical_name name).
Proof.
  split; [apply normalize_fixed, normalize_is_canonical|].
  split; [intros <-; apply normalize_is_canonical|apply normalize_fixed].
Qed.

(** ** What [parseSkillFile] returns *)

Lemma trim_end_last s : Str.last_is is_space (Str.trim_end s) = false.
Proof.
  induction s as [|c s IH]; [reflexivity|]. cbn [Str.trim_end].
  destruct (Str.all is_space (String c s)) eqn:E; [reflexivity|].
  rewrite last_is_cons.
  destruct (Str.is_empty (Str.trim_end s)) eqn:E'; [|exact IH].
  assert (Str.all is_space s = true) as Hs.
  { clear -E'. induction s as [|d s IH]; [reflexivity|]. cbn [Str.trim_end] in E'.
    destruct (Str.all is_space (String d s)); [reflexivity|discriminate]. }
  simpl in E. rewrite Hs, andb_true_r in E. exact E.
Qed.

Lemma trim_end_head s :
  Str.head_is is_space s = false -> Str.head_is is_space (Str.trim_end s) = false.
Proof.
  destruct s as [|c s]; [reflexivity|]. cbn [Str.trim_end].
  now destruct (Str.all is_space (String c s)).
Qed.

(** The trimmed string neither starts nor ends with white space. *)
Lemma trim_ends s :
  Str.head_is is_space (Str.trim s) = false /\ Str.last_is is_space (Str.trim s) = false.
Proof.
  unfold Str.trim. split; [apply trim_end_head, drop_while_head|apply trim_end_last].
Qed.

Lemma registered_all_name_chars name : Str.all is_name_char (Name.registered name) = true.
Proof.
  unfold Name.registered. destruct (Name.test name) eqn:E.
  - unfold Name.test in E. now apply andb_true_iff in E as [_ E].
  - eapply all_impl; [apply norm_is_name_char|apply normalize_all_norm].
Qed.

Lemma zSkillMatter_parse_name data skillMatter :
  zSkillMatter_parse data = Some skillMatter ->
  SkillMatter.name skillMatter <> EmptyString
  /\ Str.head_is is_space (SkillMatter.name skillMatter) = false
  /\ Str.last_is is_space (SkillMatter.name skillMatter) = false.
Proof.
  unfold zSkillMatter_parse. destruct data as [| | | | |fields]; try discriminate.
  destruct (obj_get fields "name") as [[| | |raw| |]|]; try discriminate.
  destruct (obj_get fields "description") as [[| | |description| |]|]; try discriminate.
  destruct (Str.is_empty (Str.trim raw)) eqn:E; [discriminate|].
  assert (Str.trim raw <> EmptyString) by (destruct (Str.trim raw); [discriminate|congruence]).
  destruct (trim_ends raw) as [Hhead Hlast].
  destruct (obj_get fields "metadata") as [[| | | | |metadata]|]; try discriminate;
    intros [= <-]; cbn [SkillMatter.name]; now repeat split.
Qed.

(** X3: whenever [parseSkillFile] returns, the declared name was a string
    with at least one character that is not white space; the returned name
    is that name trimmed when it matches the pattern, and otherwise its
    normalization, which is in canonical form; in both cases it has only
    characters of [[a-zA-Z0-9-_]].  The returned body neither starts nor ends
    with white space, and the call has touched neither the storage, nor the
    cache, nor the snapshot. *)
Theorem parseSkillFile_returns (host : Host) (fileContent : string) (w w' : World)
    (m : SkillMatter.t) (content : string) :
  parseSkillFile host fileContent w = (Returned (m, content), w') ->
  (exists data body declared,
     matter host fileContent = Some (data, body)
     /\ zSkillMatter_parse data = Some declared
     /\ SkillMatter.name declared <> EmptyString
     /\ Str.head_is is_space (SkillMatter.name declared) = false
     /\ Str.last_is is_space (SkillMatter.name declared) = false
     /\ content = Str.trim body
     /\ SkillMatter.description m = SkillMatter.description declared
     /\ SkillMatter.metadata m = SkillMatter.metadata declared
     /\ (if Name.test (SkillMatter.name declared)
         then SkillMatter.name m = SkillMatter.name declared /\ console w' = console w
         else SkillMatter.name m = Name.normalize (SkillMatter.name declared)
              /\ canonical_name (SkillMatter.name m)
              /\ console w'
                 = WarnNormalized (SkillMatter.name declared) (SkillMatter.name m)
                   :: console w))
  /\ Str.all is_name_char (SkillMatter.name m) = true
  /\ Str.head_is is_space content = false
  /\ Str.last_is is_space content = false
  /\ same_data w w' /\ accesses w' = accesses w.
Proof.
  unfold parseSkillFile.
  destruct (matter host fileContent) as [[data body]|]; [|discriminate].
  destruct (zSkillMatter_parse data) as [declared|] eqn:Hzod; [|discriminate].
  destruct (zSkillMatter_parse_name _ _ Hzod) as (Hne & Hhead & Hlast).
  destruct (trim_ends body) as [Hbh Hbl].
  pose proof (registered_all_name_chars (SkillMatter.name declared)) as Hchars.
  unfold Name.registered in Hchars.
  destruct (Name.test (SkillMatter.name declared)) eqn:Htest; cbn [negb]; run_monad;
    intros [= <- <- <-].
  - split; [|now repeat split].
    exists data, body, declared. rewrite Htest. now repeat split.
  - split; [|now repeat split].
    exists data, body, declared. rewrite Htest. cbn [SkillMatter.name].
    repeat split; try assumption; try reflexivity; apply normalize_is_canonical.
Qed.

Lemma parseSkillFile_returns_witness :
  exists m w',
    parseSkillFile demoHost "name: Alpha One!|  body A  " initial_world
    = (Returned (m, "body A"), w')
    /\ SkillMatter.name m = "alpha-one"
    /\ Str.all is_name_char (SkillMatter.name m) = true.
Proof.
  eexists (SkillMatter.mk "alpha-one" "demo" None), _.
  assert (parseSkillFile demoHost "name: Alpha One!|  body A  " initial_world
          = (Returned (SkillMatter.mk "alpha-one" "demo" None, "body A"),
             add_log (WarnNormalized "Alpha One!" "alpha-one") initial_world)) as Hrun
    by reflexivity.
  split; [exact Hrun|]. split; [reflexivity|].
  exact (proj1 (proj2 (parseSkillFile_returns _ _ _ _ _ _ Hrun))).
Defined.

(** ** What [scanSkillDirectory] finds *)

Lemma scan_subdirs_world host skillPath subdirs availableFiles w :
  scan_subdirs host skillPath subdirs availableFiles w
  = (Returned (scanned_from host skillPath subdirs availableFiles),
     fold_left (fun w subdir => add_access (ReadDir (Path.join [skillPath; subdir])) w)
               subdirs w).
Proof.
  revert availableFiles w. induction subdirs as [|subdir subdirs IH]; intros files w;
    [reflexivity|].
  cbn [scan_subdirs scanned_from fold_left]. unfold bind at 1, try_catch, bind at 1.
  rewrite readdir_run. unfold listed_files.
  destruct (fs_readdir host (Path.join [skillPath; subdir])) as [entries|]; run_monad.
  - apply IH.
  - rewrite app_nil_r. apply IH.
Qed.

Lemma scanned_from_concat host skillPath subdirs availableFiles :
  scanned_from host skillPath subdirs availableFiles
  = availableFiles ++ concat (List.map (listed_files host skillPath) subdirs).
Proof.
  revert availableFiles. induction subdirs as [|subdir subdirs IH]; intros files.
  - simpl. now rewrite app_nil_r.
  - unfold scanned_from in *. cbn [fold_left List.map concat].
    now rewrite IH, <- app_assoc.
Qed.

Lemma elem_of_listed_files host skillPath subdir x :
  x ∈ listed_files host skillPath subdir <->
  exists entries entry,
    fs_readdir host (Path.join [skillPath; subdir]) = Some entries
    /\ entry ∈ entries /\ isFile entry = true
    /\ x = subdir +:+ "/" +:+ d_name entry.
Proof.
  unfold listed_files.
  destruct (fs_readdir host (Path.join [skillPath; subdir])) as [entries|].
  - rewrite list_elem_of_fmap. split.
    + intros (entry & -> & Hin). apply list_elem_of_filter in Hin as [Hfile Hin].
      exists entries, entry. now repeat split.
    + intros (entries' & entry & [= <-] & Hin & Hfile & ->).
      exists entry. split; [reflexivity|]. now apply list_elem_of_filter.
  - split; [intros []%elem_of_nil|]. intros (? & ? & ? & _). discriminate.
Qed.

Lemma elem_of_concat {A} (x : A) (ls : list (list A)) :
  x ∈ concat ls <-> exists l, x ∈ l /\ l ∈ ls.
Proof.
  induction ls as [|l ls IH]; simpl.
  - split; [intros []%elem_of_nil|]. intros (l & _ & []%elem_of_nil).
  - rewrite elem_of_app, IH. split.
    + intros [H | (l' & H1 & H2)]; [exists l|exists l']; split; auto using list_elem_of_here,
        list_elem_of_further.
    + intros (l' & H1 & [-> | H2]%elem_of_cons); [now left|right; eauto].
Qed.

(** X4: [scanSkillDirectory] always returns.  Its result starts with the
    main file name, whether that file exists or not; the other entries are
    exactly the paths subdirectory/name for the file entries (not the
    directories) of the listings of the three allowed subdirectories that
    can be listed.  It lists each of the three subdirectories once, in the
    order scripts, references, assets, also after a listing failed, and
    changes nothing else. *)
Theorem scanSkillDirectory_result (host : Host) (skillPath : string) (w : World) :
  exists files,
    scanSkillDirectory host skillPath w
    = (Returned (SKILL_MAIN_FILE :: files),
       add_access (ReadDir (Path.join [skillPath; "assets"]))
         (add_access (ReadDir (Path.join [skillPath; "references"]))
            (add_access (ReadDir (Path.join [skillPath; "scripts"])) w)))
    /\ forall x,
         x ∈ files <->
         exists subdir entries entry,
           subdir ∈ ALLOWED_SKILL_SUBDIRS
           /\ fs_readdir host (Path.join [skillPath; subdir]) = Some entries
           /\ entry ∈ entries /\ isFile entry = true
           /\ x = subdir +:+ "/" +:+ d_name entry.
Proof.
  exists (concat (List.map (listed_files host skillPath) ALLOWED_SKILL_SUBDIRS)).
  split.
  - unfold scanSkillDirectory. rewrite scan_subdirs_world, scanned_from_concat. reflexivity.
  - intros x. rewrite elem_of_concat. split.
    + intros (l & Hx & Hl). apply list_elem_of_fmap in Hl as (subdir & -> & Hsub).
      apply elem_of_listed_files in Hx as (entries & entry & H).
      exists subdir, entries, entry. now split.
    + intros (subdir & entries & entry & Hsub & H).
      exists (listed_files host skillPath subdir). split.
      * apply elem_of_listed_files. eauto.
      * apply list_elem_of_fmap. eauto.
Qed.

(** ** More on the load pass *)

Section LoadPass.

Variable host : Host.

Lemma registered_after_unloadable path st :
  skill_manifest host path = None -> registered_after host path st = st.
Proof. intros H. unfold registered_after. now rewrite H. Qed.

Lemma registered_after_entries_skip pre entry post st :
  isDirectory entry = false \/ skill_manifest host (entry_path host entry) = None ->
  registered_after_entries host (pre ++ entry :: post) st
  = registered_after_entries host (pre ++ post) st.
Proof.
  intros H. rewrite !registered_after_entries_app, registered_after_entries_cons.
  destruct H as [-> | H]; [reflexivity|].
  rewrite (registered_after_unloadable _ _ H). now destruct (isDirectory entry).
Qed.

(** What [loadLocalPath] does for a directory that cannot be loaded. *)
Lemma loadLocalPath_unloadable path w :
  skill_manifest host path = None ->
  exists err,
    loadLocalPath host path w
    = (Returned tt,
       add_log (ErrorLoadSkill (Path.join [path; SKILL_MAIN_FILE]) err)
         (add_access (ReadFile (Path.join [path; SKILL_MAIN_FILE])) w)).
Proof.
  unfold skill_manifest, loadLocalPath. intros H.
  unfold try_catch, bind at 1. rewrite readFile_run.
  destruct (fs_readFile host (Path.join [path; SKILL_MAIN_FILE])) as [fileContent|];
    [|eexists; reflexivity].
  unfold bind at 1.
  pose proof (parseSkillFile_run host fileContent
                (add_access (ReadFile (Path.join [path; SKILL_MAIN_FILE])) w)) as Hparse.
  rewrite H in Hparse. destruct Hparse as (e & ->). exists e. reflexivity.
Qed.

(** X5: a single bad entry never aborts the load.  For a directory whose
    main file cannot be read or whose manifest is rejected, [loadLocalPath]
    returns, logs one error for that directory, reads only its main file
    and leaves registry and cache as they are; the loop over a listing that
    contains such a directory, or an entry that is not a directory, ends with
    the same registry and content cache as the loop over the listing without
    it. *)
Theorem unloadable_entry_is_skipped (pre post : list Dirent) (entry : Dirent) (w : World) :
  isDirectory entry = false \/ skill_manifest host (entry_path host entry) = None ->
  (exists wa wb,
     load_entries host (pre ++ entry :: post) w = (Returned tt, wa)
     /\ load_entries host (pre ++ post) w = (Returned tt, wb)
     /\ skills wa = skills wb
     /\ skillContentCache wa = skillContentCache wb)
  /\ (skill_manifest host (entry_path host entry) = None ->
      exists err,
        loadLocalPath host (entry_path host entry) w
        = (Returned tt,
           add_log (ErrorLoadSkill (Path.join [entry_path host entry; SKILL_MAIN_FILE]) err)
             (add_access (ReadFile (Path.join [entry_path host entry; SKILL_MAIN_FILE]))
                w))).
Proof.
  intros Hbad. split; [|apply loadLocalPath_unloadable].
  destruct (load_entries_run host (pre ++ entry :: post) w) as (wa & Ha & _ & Hsta).
  destruct (load_entries_run host (pre ++ post) w) as (wb & Hb & _ & Hstb).
  exists wa, wb. split; [exact Ha|]. split; [exact Hb|].
  rewrite (registered_after_entries_skip _ _ _ _ Hbad), <- Hstb in Hsta.
  now inversion Hsta.
Qed.

(** An induction principle for the registry and the cache of the loop. *)
Lemma registered_after_entries_invariant
    (P : gmap string Skill.t * gmap string string -> Prop) dirEntries st :
  P st ->
  (forall entry st', entry ∈ dirEntries -> isDirectory entry = true ->
                     P st' -> P (registered_after host (entry_path host entry) st')) ->
  P (registered_after_entries host dirEntries st).
Proof.
  revert st. induction dirEntries as [|entry dirEntries IH]; intros st Hst Hstep;
    [exact Hst|].
  rewrite registered_after_entries_cons. apply IH.
  - destruct (isDirectory entry) eqn:Hdir; [|exact Hst].
    apply Hstep; [apply list_elem_of_here|exact Hdir|exact Hst].
  - intros e st' He. apply Hstep. now apply list_elem_of_further.
Qed.

(** Every directory with a good manifest has its name in the registry. *)
Lemma registered_after_entries_complete dirEntries st entry m content :
  entry ∈ dirEntries -> isDirectory entry = true ->
  skill_manifest host (entry_path host entry) = Some (m, content) ->
  is_Some ((registered_after_entries host dirEntries st).1 !! SkillMatter.name m).
Proof.
  intros Hin Hdir Hm. revert st.
  induction dirEntries as [|e dirEntries IH]; intros st; [now apply elem_of_nil in Hin|].
  rewrite registered_after_entries_cons.
  apply elem_of_cons in Hin as [<- | Hin]; [|now apply IH].
  rewrite Hdir.
  destruct (registered_after_is_Some host (entry_path host entry) st m content Hm)
    as [skill Hskill].
  destruct (registered_after_entries_keeps host dirEntries _ _ _ Hskill) as [H _].
  rewrite H. eauto.
Qed.

Lemma skill_manifest_name path m content :
  skill_manifest host path = Some (m, content) ->
  Str.all is_name_char (SkillMatter.name m) = true.
Proof.
  unfold skill_manifest, manifest_of.
  destruct (fs_readFile host (Path.join [path; SKILL_MAIN_FILE])); [|discriminate].
  destruct (matter host s) as [[data body]|]; [|discriminate].
  destruct (zSkillMatter_parse data); [|discriminate].
  intros [= <- _]. apply registered_all_name_chars.
Qed.

(** Every skill of the registry comes from a directory of the listing. *)
Lemma registered_after_entries_sound dirEntries name skill :
  (registered_after_entries host dirEntries (∅, ∅)).1 !! name = Some skill ->
  exists entry m content,
    entry ∈ dirEntries /\ isDirectory entry = true
    /\ skill_manifest host (entry_path host entry) = Some (m, content)
    /\ SkillMatter.name m = name
    /\ skill = skill_record host (entry_path host entry) m.
Proof.
  revert name skill.
  apply (registered_after_entries_invariant
           (fun st => forall name skill, st.1 !! name = Some skill ->
              exists entry m content,
                entry ∈ dirEntries /\ isDirectory entry = true
                /\ skill_manifest host (entry_path host entry) = Some (m, content)
                /\ SkillMatter.name m = name
                /\ skill = skill_record host (entry_path host entry) m)).
  - intros name skill H. cbn in H. now rewrite lookup_empty in H.
  - intros entry st Hin Hdir Hst name skill. unfold registered_after.
    destruct (skill_manifest host (entry_path host entry)) as [[m content]|] eqn:Hm;
      [|apply Hst].
    destruct (st.1 !! SkillMatter.name m); [apply Hst|]. cbn [fst].
    destruct (decide (SkillMatter.name m = name)) as [<-|Hne].
    + rewrite lookup_insert_eq. intros [= <-]. exists entry, m, content. now repeat split.
    + rewrite lookup_insert_ne by exact Hne. apply Hst.
Qed.

(** The keys of the cache are the main file keys of the registered names. *)
Lemma registered_after_entries_cache_keys dirEntries key :
  is_Some ((registered_after_entries host dirEntries (∅, ∅)).2 !! key) <->
  exists name,
    is_Some ((registered_after_entries host dirEntries (∅, ∅)).1 !! name)
    /\ key = cache_key name SKILL_MAIN_FILE.
Proof.
  revert key.
  apply (registered_after_entries_invariant
           (fun st => forall key,
              is_Some (st.2 !! key) <->
              exists name, is_Some (st.1 !! name) /\ key = cache_key name SKILL_MAIN_FILE)).
  - intros key. cbn. rewrite lookup_empty. split; [intros [? ?]; discriminate|].
    intros (name & [? H] & _). now rewrite lookup_empty in H.
  - intros entry st _ _ Hst key. unfold registered_after.
    destruct (skill_manifest host (entry_path host entry)) as [[m content]|]; [|apply Hst].
    destruct (st.1 !! SkillMatter.name m) eqn:Hfree; [apply Hst|]. cbn [fst snd].
    rewrite lookup_insert_is_Some. split.
    + intros [<- | [_ H]].
      * exists (SkillMatter.name m). split; [|reflexivity]. rewrite lookup_insert_eq. eauto.
      * apply Hst in H as (name & Hname & ->). exists name. split; [|reflexivity].
        apply lookup_insert_is_Some'. now right.
    + intros (name & Hname & ->).
      apply lookup_insert_is_Some' in Hname as [<- | Hname]; [now left|].
      destruct (decide (cache_key (SkillMatter.name m) SKILL_MAIN_FILE
                        = cache_key name SKILL_MAIN_FILE)) as [E|E]; [now left|].
      right. split; [exact E|]. apply Hst. eauto.
Qed.

End LoadPass.

Lemma unloadable_entry_is_skipped_witness :
  exists wa wb,
    load_entries demoHost
      [mkDirent "alpha" false true; mkDirent "delta" false true;
       mkDirent "gamma" false true] initial_world = (Returned tt, wa)
    /\ load_entries demoHost
         [mkDirent "alpha" false true; mkDirent "gamma" false true] initial_world
       = (Returned tt, wb)
    /\ skills wa = skills wb.
Proof.
  destruct (unloadable_entry_is_skipped demoHost [mkDirent "alpha" false true]
              [mkDirent "gamma" false true] (mkDirent "delta" false true) initial_world)
    as [(wa & wb & Ha & Hb & Hs & _) _]; [right; reflexivity|].
  exists wa, wb. now repeat split.
Defined.

(** X6: when the skills directory can be listed, the names of the snapshot
    are exactly the final names of the directories of the listing whose
    manifest is accepted, and every skill of the snapshot is the record of
    such a directory: it is registered under its own name, the name has only
    characters of [[a-zA-Z0-9-_]], its path is the path of that directory
    and its available files are the result of scanning it, main file
    included. *)
Theorem snapshot_of_listing (host : Host) (dirEntries : list Dirent) (w : World) :
  fs_readdir host (skillsDir host) = Some dirEntries ->
  exists snapshot w',
    doLoadSkills host w = (Returned snapshot, w')
    /\ (forall name,
          is_Some (snapshot !! name) <->
          exists entry m content,
            entry ∈ dirEntries /\ isDirectory entry = true
            /\ skill_manifest host (entry_path host entry) = Some (m, content)
            /\ SkillMatter.name m = name)
    /\ (forall name skill,
          snapshot !! name = Some skill ->
          Skill.name skill = name
          /\ Str.all is_name_char name = true
          /\ SKILL_MAIN_FILE ∈ Skill.availableFiles skill
          /\ exists entry m content,
               entry ∈ dirEntries /\ isDirectory entry = true
               /\ skill_manifest host (entry_path host entry) = Some (m, content)
               /\ skill = skill_record host (entry_path host entry) m).
Proof.
  intros Hlist. destruct (doLoadSkills_run host w) as (w' & Hrun & _ & Hst).
  rewrite Hlist in Hst. exists (skills w'), w'. split; [exact Hrun|].
  assert (skills w' = (registered_after_entries host dirEntries (∅, ∅)).1) as ->
    by now rewrite <- Hst.
  split.
  - intros name. split.
    + intros [skill Hskill].
      destruct (registered_after_entries_sound host _ _ _ Hskill)
        as (entry & m & content & H1 & H2 & H3 & H4 & _).
      exists entry, m, content. now repeat split.
    + intros (entry & m & content & H1 & H2 & H3 & <-).
      now apply (registered_after_entries_complete host _ _ entry m content).
  - intros name skill Hskill.
    destruct (registered_after_entries_sound host _ _ _ Hskill)
      as (entry & m & content & H1 & H2 & H3 & H4 & ->).
    cbn [skill_record Skill.name Skill.availableFiles].
    split; [exact H4|]. split; [rewrite <- H4; now apply (skill_manifest_name host _ _ _ H3)|].
    split; [apply main_file_scanned|]. exists entry, m, content. now repeat split.
Qed.

Lemma snapshot_of_listing_witness :
  exists snapshot w',
    doLoadSkills demoHost initial_world = (Returned snapshot, w')
    /\ is_Some (snapshot !! "alpha-one") /\ is_Some (snapshot !! "gamma")
    /\ snapshot !! "delta" = None.
Proof.
  destruct (snapshot_of_listing demoHost
              [mkDirent "README.md" true false; mkDirent "alpha" false true;
               mkDirent "beta" false true; mkDirent "gamma" false true;
               mkDirent "delta" false true] initial_world eq_refl)
    as (snapshot & w' & Hrun & Hnames & _).
  exists snapshot, w'. split; [exact Hrun|]. split; [|split].
  - apply Hnames. exists (mkDirent "alpha" false true), (SkillMatter.mk "alpha-one" "demo" None),
      "body A". repeat split. apply list_elem_of_further, list_elem_of_here.
  - apply Hnames. exists (mkDirent "gamma" false true), (SkillMatter.mk "gamma" "demo" None), "".
    repeat split. do 3 apply list_elem_of_further. apply list_elem_of_here.
  - destruct (snapshot !! "delta") as [skill|] eqn:E; [|reflexivity]. exfalso.
    destruct (proj1 (Hnames "delta") (ex_intro _ skill E))
      as (entry & m & content & Hin & _ & Hm & Hname).
    rewrite !elem_of_cons, elem_of_nil in Hin.
    destruct Hin as [-> | [-> | [-> | [-> | [-> | []]]]]]; vm_compute in Hm;
      try discriminate Hm; injection Hm as <- _; discriminate Hname.
Defined.

(** X7: after a load pass the content cache holds exactly one entry per
    registered skill, under the key of its main file, whatever the cache
    held before the pass: entries of earlier reads and of an earlier
    snapshot are gone. *)
Theorem cache_after_load_pass (host : Host) (w : World) :
  exists snapshot w',
    doLoadSkills host w = (Returned snapshot, w')
    /\ forall key,
         is_Some (skillContentCache w' !! key) <->
         exists name,
           is_Some (snapshot !! name) /\ key = cache_key name SKILL_MAIN_FILE.
Proof.
  destruct (doLoadSkills_run host w) as (w' & Hrun & _ & Hst).
  exists (skills w'), w'. split; [exact Hrun|]. intros key.
  destruct (fs_readdir host (skillsDir host)) as [dirEntries|].
  - pose proof (registered_after_entries_cache_keys host dirEntries key) as H.
    now rewrite <- Hst in H.
  - injection Hst as -> ->. rewrite lookup_empty. split; [intros [? ?]; discriminate|].
    intros (name & [? H] & _). now rewrite lookup_empty in H.
Qed.

(** X8: [loadSkills] caches the snapshot.  After any call that returned a
    snapshot, [loadSkills()] returns the same snapshot again and leaves the
    world as it is, so it touches neither storage nor cache.  A forced
    reload does not depend on what was cached: two forced reloads from any
    two worlds return the same snapshot and leave the same content cache. *)
Theorem loadSkills_caches_snapshot (host : Host) :
  (forall force w snapshot w1,
     loadSkills host force w = (Returned snapshot, w1) ->
     loadSkills host false w1 = (Returned snapshot, w1))
  /\ (forall w1 w2 s1 s2 w1' w2',
        loadSkills host true w1 = (Returned s1, w1') ->
        loadSkills host true w2 = (Returned s2, w2') ->
        s1 = s2 /\ skillContentCache w1' = skillContentCache w2').
Proof.
  split.
  - intros force w snapshot w1 H. apply loadSkills_cached.
    now apply (loadSkills_promise host force w).
  - intros w1 w2 s1 s2 w1' w2' H1 H2.
    destruct (loadSkills_fresh host true w1 s1 w1' (or_intror eq_refl) H1) as [_ E1].
    destruct (loadSkills_fresh host true w2 s2 w2' (or_intror eq_refl) H2) as [_ E2].
    rewrite <- E2 in E1. now inversion E1.
Qed.

Lemma loadSkills_caches_snapshot_witness :
  exists snapshot w1,
    loadSkills demoHost true initial_world = (Returned snapshot, w1)
    /\ loadSkills demoHost false w1 = (Returned snapshot, w1).
Proof.
  assert (exists snapshot w1,
            loadSkills demoHost true initial_world = (Returned snapshot, w1))
    as (snapshot & w1 & H) by (do 2 eexists; vm_compute; reflexivity).
  exists snapshot, w1. split; [exact H|].
  exact (proj1 (loadSkills_caches_snapshot demoHost) _ _ _ _ H).
Defined.

Lemma load_entries_no_directories host dirEntries w :
  (forall entry, entry ∈ dirEntries -> isDirectory entry = false) ->
  load_entries host dirEntries w = (Returned tt, w).
Proof.
  induction dirEntries as [|entry dirEntries IH]; intros H; [reflexivity|].
  unfold load_entries in *. cbn [for_each]. unfold bind at 1.
  rewrite (H entry) by apply list_elem_of_here. cbn [negb]. unfold ret at 1.
  apply IH. intros e He. apply H. now apply list_elem_of_further.
Qed.

(** X9: the summary of a load pass.  When the skills directory can be
    listed, the last entry of the log is the warning that no skills were
    found when the snapshot is empty, and otherwise the information with the
    number of skills of the snapshot.  When the listing has no directory (it may be empty), the
    snapshot is empty and the pass does nothing but list the skills
    directory, empty the cache and log that warning. *)
Theorem load_pass_summary (host : Host) (dirEntries : list Dirent) (w : World) :
  fs_readdir host (skillsDir host) = Some dirEntries ->
  (exists snapshot w' earlier,
     doLoadSkills host w = (Returned snapshot, w')
     /\ console w'
        = (if bool_decide (snapshot = ∅) then WarnNoSkills
           else InfoLoaded (size snapshot)) :: earlier)
  /\ ((forall entry, entry ∈ dirEntries -> isDirectory entry = false) ->
      doLoadSkills host w
      = (Returned ∅,
         add_log WarnNoSkills
           (add_access (ReadDir (skillsDir host))
              (set_cache (fun _ => ∅) (set_skills (fun _ => ∅) w))))).
Proof.
  intros Hlist. split.
  - unfold doLoadSkills. unfold bind at 1, modify at 1. unfold bind at 1, modify at 1.
    unfold bind at 1, try_catch, bind at 1. rewrite readdir_run, Hlist.
    unfold bind at 1.
    destruct (load_entries_run host dirEntries
                (add_access (ReadDir (skillsDir host))
                   (set_cache (fun _ => ∅) (set_skills (fun _ => ∅) w))))
      as (w1 & -> & _ & _).
    unfold bind at 1, gets at 1.
    destruct (bool_decide (size (skills w1) = 0)) eqn:E; run_monad;
      exists (skills w1), (add_log (if bool_decide (size (skills w1) = 0)
                                    then WarnNoSkills else InfoLoaded (size (skills w1))) w1),
        (console w1); rewrite E; (split; [reflexivity|]); cbn [console add_log]; f_equal.
    + apply bool_decide_eq_true_1, map_size_empty_iff in E.
      now rewrite bool_decide_eq_true_2.
    + apply bool_decide_eq_false_1 in E. rewrite bool_decide_eq_false_2; [reflexivity|].
      intros H. apply E. now apply map_size_empty_iff.
  - intros Hnone. unfold doLoadSkills. unfold bind at 1, modify at 1.
    unfold bind at 1, modify at 1. unfold bind at 1, try_catch, bind at 1.
    rewrite readdir_run, Hlist. unfold bind at 1.
    rewrite (load_entries_no_directories host dirEntries _ Hnone). reflexivity.
Qed.

Lemma load_pass_summary_witness :
  exists snapshot w' earlier,
    doLoadSkills demoHost initial_world = (Returned snapshot, w')
    /\ console w'
       = (if bool_decide (snapshot = ∅) then WarnNoSkills
          else InfoLoaded (size snapshot)) :: earlier.
Proof.
  exact (proj1 (load_pass_summary demoHost _ initial_world eq_refl)).
Defined.

(** ** The storage accesses of a load pass *)

Lemma loadLocalPath_accesses host path w :
  exists w',
    loadLocalPath host path w = (Returned tt, w')
    /\ (accesses w' = ReadFile (Path.join [path; SKILL_MAIN_FILE]) :: accesses w
        \/ accesses w'
           = ReadDir (Path.join [path; "assets"])
               :: ReadDir (Path.join [path; "references"])
               :: ReadDir (Path.join [path; "scripts"])
               :: ReadFile (Path.join [path; SKILL_MAIN_FILE]) :: accesses w).
Proof.
  unfold loadLocalPath. unfold try_catch, bind at 1. rewrite readFile_run.
  destruct (fs_readFile host (Path.join [path; SKILL_MAIN_FILE])) as [fileContent|];
    [|eexists; split; [reflexivity|now left]].
  unfold bind at 1.
  pose proof (parseSkillFile_run host fileContent
                (add_access (ReadFile (Path.join [path; SKILL_MAIN_FILE])) w)) as Hparse.
  destruct (manifest_of host fileContent) as [[m content]|].
  - destruct Hparse as (w1 & -> & (_ & _ & Hs1) & Ha1).
    unfold alreadyExists. unfold bind at 1, bind at 1, gets.
    cbn [accesses add_access] in Ha1.
    destruct (skills w1 !! SkillMatter.name m) as [existing|].
    + run_monad. eexists. split; [reflexivity|]. left. exact Ha1.
    + unfold ret at 1. unfold bind at 1.
      unfold scanSkillDirectory. rewrite scan_subdirs_world.
      run_monad. eexists. split; [reflexivity|]. right. cbn. now rewrite Ha1.
  - destruct Hparse as (e & ->). run_monad. eexists. split; [reflexivity|now left].
Qed.

(** X10: a load pass only reads what it is meant to read: it lists the
    skills directory first and after that, for directories of that listing
    only, reads the main file of the directory and lists its three allowed
    subdirectories; it reads no other file and lists nothing else.  When the
    skills directory cannot be listed, that listing is its only access. *)
Theorem load_pass_accesses (host : Host) (w : World) :
  exists snapshot w' later,
    doLoadSkills host w = (Returned snapshot, w')
    /\ accesses w' = later ++ ReadDir (skillsDir host) :: accesses w
    /\ match fs_readdir host (skillsDir host) with
       | None => later = []
       | Some dirEntries =>
           forall access,
             access ∈ later ->
             exists entry,
               entry ∈ dirEntries /\ isDirectory entry = true
               /\ (access = ReadFile (Path.join [entry_path host entry; SKILL_MAIN_FILE])
                   \/ exists subdir,
                        subdir ∈ ALLOWED_SKILL_SUBDIRS
                        /\ access = ReadDir (Path.join [entry_path host entry; subdir]))
       end.
Proof.
  assert (forall (dirEntries l : list Dirent) w0,
            (forall entry, entry ∈ l -> entry ∈ dirEntries) ->
            exists w1 later,
              load_entries host l w0 = (Returned tt, w1)
              /\ accesses w1 = later ++ accesses w0
              /\ forall access,
                   access ∈ later ->
                   exists entry,
                     entry ∈ dirEntries /\ isDirectory entry = true
                     /\ (access = ReadFile (Path.join [entry_path host entry; SKILL_MAIN_FILE])
                         \/ exists subdir,
                              subdir ∈ ALLOWED_SKILL_SUBDIRS
                              /\ access = ReadDir (Path.join [entry_path host entry; subdir])))
    as Hloop.
  { intros dirEntries l. induction l as [|entry l IH]; intros w0 Hsub.
    - exists w0, []. split; [reflexivity|]. split; [reflexivity|].
      intros access []%elem_of_nil.
    - unfold load_entries in *. cbn [for_each]. unfold bind at 1.
      assert (forall e, e ∈ l -> e ∈ dirEntries) as Hsub'
        by (intros e He; apply Hsub; now apply list_elem_of_further).
      destruct (isDirectory entry) eqn:Hdir; cbn [negb].
      + destruct (loadLocalPath_accesses host (Path.join [skillsDir host; d_name entry]) w0)
          as (w1 & -> & Hacc).
        destruct (IH w1 Hsub') as (w2 & later & -> & Hacc2 & Hlater).
        fold (entry_path host entry) in Hacc.
        assert (entry ∈ dirEntries) as Hin by apply Hsub, list_elem_of_here.
        destruct Hacc as [Hacc | Hacc]; rewrite Hacc in Hacc2.
        * exists w2, (later ++ [ReadFile (Path.join [entry_path host entry; SKILL_MAIN_FILE])]).
          split; [reflexivity|]. split; [now rewrite <- app_assoc|].
          intros access [H | ->%list_elem_of_singleton]%elem_of_app; [now apply Hlater|].
          exists entry. split; [exact Hin|]. split; [exact Hdir|now left].
        * exists w2, (later ++ [ReadDir (Path.join [entry_path host entry; "assets"]);
                                ReadDir (Path.join [entry_path host entry; "references"]);
                                ReadDir (Path.join [entry_path host entry; "scripts"]);
                                ReadFile (Path.join [entry_path host entry; SKILL_MAIN_FILE])]).
          split; [reflexivity|]. split; [now rewrite <- app_assoc|].
          intros access [H | H]%elem_of_app; [now apply Hlater|].
          exists entry. split; [exact Hin|]. split; [exact Hdir|].
          rewrite !elem_of_cons, elem_of_nil in H.
          destruct H as [-> | [-> | [-> | [-> | []]]]]; [right|right|right|now left];
            eexists; (split; [|reflexivity]); unfold ALLOWED_SKILL_SUBDIRS;
            rewrite !elem_of_cons; auto.
      + unfold ret at 1. apply IH, Hsub'. }
  unfold doLoadSkills. unfold bind at 1, modify at 1. unfold bind at 1, modify at 1.
  unfold bind at 1, try_catch, bind at 1. rewrite readdir_run.
  destruct (fs_readdir host (skillsDir host)) as [dirEntries|].
  - unfold bind at 1.
    destruct (Hloop dirEntries dirEntries
                (add_access (ReadDir (skillsDir host))
                   (set_cache (fun _ => ∅) (set_skills (fun _ => ∅) w))) (fun _ H => H))
      as (w1 & later & -> & Hacc & Hlater).
    unfold bind at 1, gets at 1.
    destruct (bool_decide (size (skills w1) = 0)); run_monad;
      do 2 eexists; exists later; (split; [reflexivity|]); (split; [exact Hacc|exact Hlater]).
  - run_monad. do 2 eexists. exists []. repeat split.
Qed.

(** ** The footprint of a read *)

(** X11: with a snapshot loaded, a read, whatever its outcome, keeps the
    snapshot and writes nothing to the log; it changes the content cache at
    most under the key of the requested skill and path; and it accesses the
    storage at most once, to read the requested file of the skill, and only
    if the path passed the validator and is one of the available files of the
    skill. *)
Theorem viewSkillContent_footprint (host : Host) (name targetPath : string)
    (snapshot : gmap string Skill.t) (w w' : World) (outcome : Outcome string) :
  skillMapPromise w = Some snapshot ->
  viewSkillContent host name targetPath w = (outcome, w') ->
  skillMapPromise w' = Some snapshot
  /\ skills w' = skills w
  /\ console w' = console w
  /\ (forall key, key <> cache_key name targetPath ->
                  skillContentCache w' !! key = skillContentCache w !! key)
  /\ (accesses w' = accesses w
      \/ exists skill,
           snapshot !! name = Some skill
           /\ validateSkillPath targetPath = Valid
           /\ targetPath ∈ Skill.availableFiles skill
           /\ accesses w'
              = ReadFile (Path.join [Skill.path skill; targetPath]) :: accesses w).
Proof.
  intros Hpromise Hview.
  rewrite (viewSkillContent_after_load host _ _ _ _ _ (loadSkills_cached host _ _ Hpromise))
    in Hview.
  assert (forall w0 : World, w0 = w' -> w0 = w ->
            skillMapPromise w' = Some snapshot /\ skills w' = skills w
            /\ console w' = console w
            /\ (forall key, key <> cache_key name targetPath ->
                  skillContentCache w' !! key = skillContentCache w !! key)
            /\ (accesses w' = accesses w
                \/ exists skill,
                     snapshot !! name = Some skill
                     /\ validateSkillPath targetPath = Valid
                     /\ targetPath ∈ Skill.availableFiles skill
                     /\ accesses w'
                        = ReadFile (Path.join [Skill.path skill; targetPath]) :: accesses w))
    as Hsame by (intros w0 <- ->; repeat split; auto).
  destruct (snapshot !! name) as [skill|] eqn:Hname;
    [|injection Hview as _ Hw; now apply (Hsame w)].
  destruct (validateSkillPath targetPath) eqn:Hvalid;
    [|injection Hview as _ Hw; now apply (Hsame w)].
  unfold Str.array_includes in Hview.
  destruct (bool_decide (targetPath ∈ Skill.availableFiles skill)) eqn:Hfile;
    cbn [negb] in Hview; [|injection Hview as _ Hw; now apply (Hsame w)].
  apply bool_decide_eq_true_1 in Hfile.
  assert (read_through host skill name targetPath (cache_key name targetPath) w
          = (outcome, w') ->
          skillMapPromise w' = Some snapshot /\ skills w' = skills w
          /\ console w' = console w
          /\ (forall key, key <> cache_key name targetPath ->
                skillContentCache w' !! key = skillContentCache w !! key)
          /\ (accesses w' = accesses w
              \/ exists skill0,
                   Some skill = Some skill0
                   /\ Valid = Valid
                   /\ targetPath ∈ Skill.availableFiles skill0
                   /\ accesses w'
                      = ReadFile (Path.join [Skill.path skill0; targetPath]) :: accesses w))
    as Hread.
  { rewrite read_through_run.
    destruct (fs_readFile host (Path.join [Skill.path skill; targetPath]));
      intros [= _ <-]; cbn; (split; [exact Hpromise|]); repeat split;
      try (intros key Hkey; now rewrite lookup_insert_ne);
      right; exists skill; now repeat split. }
  destruct (skillContentCache w !! cache_key name targetPath) as [cached|];
    [|now apply Hread].
  destruct (negb (Str.is_empty cached)); [|now apply Hread].
  injection Hview as _ Hw. now apply (Hsame w).
Qed.

Lemma viewSkillContent_footprint_witness :
  exists w w' outcome,
    viewSkillContent demoHost "alpha-one" "scripts/a.sql" w = (outcome, w')
    /\ console w' = console w
    /\ skillContentCache w' !! "alpha-one/SKILL.md" = skillContentCache w !! "alpha-one/SKILL.md".
Proof.
  assert (exists snapshot w w' outcome,
            (loadSkills demoHost false initial_world).2 = w
            /\ skillMapPromise w = Some snapshot
            /\ viewSkillContent demoHost "alpha-one" "scripts/a.sql" w = (outcome, w'))
    as (snapshot & w & w' & outcome & _ & Hpromise & Hview).
  { do 4 eexists. split; [vm_compute; reflexivity|].
    split; vm_compute; reflexivity. }
  exists w, w', outcome. split; [exact Hview|].
  destruct (viewSkillContent_footprint demoHost _ _ _ _ _ _ Hpromise Hview)
    as (_ & _ & Hlog & Hcache & _).
  split; [exact Hlog|]. apply Hcache. discriminate.
Defined.

(** X12: reading through to the storage.  With a snapshot loaded, for a
    declared file with a valid path that is not in the cache (or is in it
    with empty content): when the storage has the file, the read returns
    its content and puts it into the cache under the key of skill and path;
    when the storage fails, the read fails with the read failure for that
    skill and path and the cache stays as it was, so the failure is not
    cached and the next read goes to the storage again. *)
Theorem viewSkillContent_reads_through (host : Host) (name targetPath : string)
    (snapshot : gmap string Skill.t) (skill : Skill.t) (w : World) :
  skillMapPromise w = Some snapshot ->
  snapshot !! name = Some skill ->
  validateSkillPath targetPath = Valid ->
  targetPath ∈ Skill.availableFiles skill ->
  skillContentCache w !! cache_key name targetPath = None
  \/ skillContentCache w !! cache_key name targetPath = Some EmptyString ->
  match fs_readFile host (Path.join [Skill.path skill; targetPath]) with
  | Some content =>
      exists w',
        viewSkillContent host name targetPath w = (Returned content, w')
        /\ skillContentCache w' !! cache_key name targetPath = Some content
  | None =>
      exists w',
        viewSkillContent host name targetPath w = (Thrown (ReadFailure name targetPath), w')
        /\ skillContentCache w' = skillContentCache w
        /\ viewSkillContent host name targetPath w'
           = (Thrown (ReadFailure name targetPath),
              add_access (ReadFile (Path.join [Skill.path skill; targetPath])) w')
  end.
Proof.
  intros Hpromise Hname Hvalid Hfile Hmiss.
  assert (forall w0, skillMapPromise w0 = Some snapshot ->
            skillContentCache w0 = skillContentCache w ->
            viewSkillContent host name targetPath w0
            = read_through host skill name targetPath (cache_key name targetPath) w0)
    as Hview.
  { intros w0 Hp0 Hc0.
    rewrite (viewSkillContent_after_load host _ _ _ _ _ (loadSkills_cached host _ _ Hp0)).
    rewrite Hname, Hvalid. unfold Str.array_includes.
    rewrite bool_decide_eq_true_2 by exact Hfile. cbn [negb]. rewrite Hc0.
    now destruct Hmiss as [-> | ->]. }
  rewrite (Hview w Hpromise eq_refl), read_through_run.
  destruct (fs_readFile host (Path.join [Skill.path skill; targetPath])) as [content|] eqn:Hread.
  - eexists. split; [reflexivity|]. cbn. apply lookup_insert_eq.
  - eexists. split; [reflexivity|]. split; [reflexivity|].
    rewrite Hview; [|exact Hpromise|reflexivity]. now rewrite read_through_run, Hread.
Qed.

Lemma viewSkillContent_reads_through_witness :
  exists w w',
    viewSkillContent demoHost "alpha-one" "scripts/a.sql" w = (Returned "select 1", w')
    /\ skillContentCache w' !! "alpha-one/scripts/a.sql" = Some "select 1".
Proof.
  assert (exists snapshot w,
            (loadSkills demoHost false initial_world).2 = w
            /\ skillMapPromise w = Some snapshot
            /\ snapshot !! "alpha-one"
               = Some (Skill.mk "/srv/skills/alpha" "alpha-one" "demo" None
                         ["SKILL.md"; "scripts/a.sql"; "scripts/empty.sql"])
            /\ skillContentCache w !! cache_key "alpha-one" "scripts/a.sql" = None)
    as (snapshot & w & _ & Hpromise & Hname & Hmiss).
  { do 2 eexists. split; [vm_compute; reflexivity|]. repeat split; vm_compute; reflexivity. }
  exists w.
  assert ("scripts/a.sql" ∈ ["SKILL.md"; "scripts/a.sql"; "scripts/empty.sql"]) as Hfile
    by (rewrite !elem_of_cons; auto).
  exact (viewSkillContent_reads_through demoHost "alpha-one" "scripts/a.sql" snapshot _ w
           Hpromise Hname eq_refl Hfile (or_introl Hmiss)).
Defined.

(** ** The content cache agrees with the storage *)

Lemma name_char_not_slash c : is_name_char c = true -> is_slash c = false.
Proof. each_char c. Qed.

Lemma name_chars_no_slash s : Str.all is_name_char s = true -> Str.any is_slash s = false.
Proof. apply all_none, name_char_not_slash. Qed.

Lemma slash_is_slash c : is_slash c = true -> c = "/"%char.
Proof. each_char c. Qed.

(** Keys of names without a slash determine name and path. *)
Lemma cache_key_inj_pair name1 name2 path1 path2 :
  Str.any is_slash name1 = false -> Str.any is_slash name2 = false ->
  cache_key name1 path1 = cache_key name2 path2 ->
  name1 = name2 /\ path1 = path2.
Proof.
  unfold cache_key. revert name2.
  induction name1 as [|c n1 IH]; intros [|d n2] H1 H2 H; simpl in *.
  - injection H as H. now split.
  - injection H as <- _. apply orb_false_iff in H2 as [H2 _]. discriminate H2.
  - injection H as -> _. apply orb_false_iff in H1 as [H1 _]. discriminate H1.
  - injection H as -> H. apply orb_false_iff in H1 as [_ H1].
    apply orb_false_iff in H2 as [_ H2].
    destruct (IH n2 H1 H2 H) as [-> ->]. now split.
Qed.

Lemma coherent_after_load host force w snapshot w' :
  skillMapPromise w = None \/ force = true ->
  loadSkills host force w = (Returned snapshot, w') ->
  coherent host w'.
Proof.
  intros Hfresh Hload.
  pose proof (loadSkills_seeded host _ _ _ _ Hfresh Hload) as Hseeded.
  destruct (loadSkills_fresh host _ _ _ _ Hfresh Hload) as [Hpromise Hst].
  assert (forall name skill, snapshot !! name = Some skill -> Str.any is_slash name = false)
    as Hnames.
  { intros name skill Hname.
    destruct (Hseeded name skill Hname) as (m & content & Hm & <- & _).
    apply name_chars_no_slash, (skill_manifest_name host _ _ _ Hm). }
  exists snapshot. split; [exact Hpromise|]. split; [exact Hnames|].
  intros name skill targetPath content Hname Hcache. right.
  assert (exists name', is_Some (snapshot !! name')
                        /\ cache_key name targetPath = cache_key name' SKILL_MAIN_FILE)
    as (name' & [skill' Hname'] & Hkey).
  { destruct (fs_readdir host (skillsDir host)) as [dirEntries|].
    - pose proof (registered_after_entries_cache_keys host dirEntries
                    (cache_key name targetPath)) as H.
      rewrite <- Hst in H. cbn [fst snd] in H. apply H. eauto.
    - injection Hst as _ Hc. rewrite Hc, lookup_empty in Hcache. discriminate. }
  apply cache_key_inj_pair in Hkey as [<- ->]; [|now apply (Hnames name skill)
                                                |now apply (Hnames name' skill')].
  split; [reflexivity|].
  destruct (Hseeded name skill Hname) as (m & content' & Hm & _ & _ & Hcache').
  cbn [fst snd] in Hcache'. exists m. congruence.
Qed.

(** X13: the content cache agrees with the storage.  After a load through
    [loadSkills] the world is coherent, every read keeps it coherent, and
    in a coherent world the content that a read returns for a skill and a
    path is what the storage holds for that file of the skill, or, for the
    main file only, the non-empty body that the load pass took from it. *)
Theorem reads_keep_cache_coherent (host : Host) :
  (forall force w snapshot w',
     skillMapPromise w = None \/ force = true ->
     loadSkills host force w = (Returned snapshot, w') ->
     coherent host w')
  /\ (forall name targetPath w outcome w',
        coherent host w ->
        viewSkillContent host name targetPath w = (outcome, w') ->
        coherent host w'
        /\ forall content,
             outcome = Returned content ->
             exists snapshot skill,
               skillMapPromise w = Some snapshot
               /\ snapshot !! name = Some skill
               /\ (fs_readFile host (Path.join [Skill.path skill; targetPath])
                   = Some content
                   \/ (targetPath = SKILL_MAIN_FILE /\ content <> EmptyString
                       /\ exists m,
                            skill_manifest host (Skill.path skill) = Some (m, content)))).
Proof.
  split; [apply coherent_after_load|].
  intros name targetPath w outcome w' (snapshot & Hpromise & Hnames & Hcache) Hview.
  rewrite (viewSkillContent_after_load host _ _ _ _ _ (loadSkills_cached host _ _ Hpromise))
    in Hview.
  assert (coherent host w) as Hw by (exists snapshot; auto).
  destruct (snapshot !! name) as [skill|] eqn:Hname;
    [|injection Hview as <- <-; split; [exact Hw|discriminate]].
  destruct (validateSkillPath targetPath);
    [|injection Hview as <- <-; split; [exact Hw|discriminate]].
  destruct (negb (Str.array_includes (Skill.availableFiles skill) targetPath));
    [injection Hview as <- <-; split; [exact Hw|discriminate]|].
  assert (read_through host skill name targetPath (cache_key name targetPath) w
          = (outcome, w') ->
          coherent host w'
          /\ forall content,
               outcome = Returned content ->
               exists snapshot0 skill0,
                 skillMapPromise w = Some snapshot0 /\ snapshot0 !! name = Some skill0
                 /\ (fs_readFile host (Path.join [Skill.path skill0; targetPath])
                     = Some content
                     \/ (targetPath = SKILL_MAIN_FILE /\ content <> EmptyString
                         /\ exists m,
                              skill_manifest host (Skill.path skill0) = Some (m, content))))
    as Hread.
  { rewrite read_through_run.
    destruct (fs_readFile host (Path.join [Skill.path skill; targetPath]))
      as [stored|] eqn:Hstored; intros [= <- <-].
    - split.
      + exists snapshot. split; [exact Hpromise|]. split; [exact Hnames|].
        intros name' skill' path' content' Hname' Hlookup. cbn in Hlookup.
        destruct (decide (cache_key name targetPath = cache_key name' path')) as [E|E].
        * rewrite E, lookup_insert_eq in Hlookup. injection Hlookup as <-.
          apply cache_key_inj_pair in E as [<- <-];
            [|now apply (Hnames name skill)|now apply (Hnames name' skill')].
          left. congruence.
        * rewrite lookup_insert_ne in Hlookup by exact E.
          now apply (Hcache name' skill' path' content').
      + intros content [= <-]. exists snapshot, skill. repeat split; auto.
    - split; [|discriminate]. exists snapshot. split; [exact Hpromise|]. split; [exact Hnames|].
      exact Hcache. }
  destruct (skillContentCache w !! cache_key name targetPath) as [cached|] eqn:Hcached;
    [|exact (Hread Hview)].
  destruct (negb (Str.is_empty cached)) eqn:Hempty; [|exact (Hread Hview)].
  injection Hview as <- <-. split; [exact Hw|].
  intros content [= <-]. exists snapshot, skill. split; [exact Hpromise|].
  split; [exact Hname|].
  destruct (Hcache name skill targetPath cached Hname Hcached) as [H | [H1 H2]];
    [now left|right].
  split; [exact H1|]. split; [|exact H2]. intros ->. discriminate Hempty.
Qed.

Lemma reads_keep_cache_coherent_witness :
  coherent demoHost (loadSkills demoHost false initial_world).2.
Proof.
  assert (exists snapshot w',
            loadSkills demoHost false initial_world = (Returned snapshot, w')
            /\ (loadSkills demoHost false initial_world).2 = w')
    as (snapshot & w' & Hload & ->)
    by (do 2 eexists; split; vm_compute; reflexivity).
  apply (proj1 (reads_keep_cache_coherent demoHost) false initial_world snapshot w');
    [now left|exact Hload].
Defined.

(** ** The prompts and the tool *)

Lemma viewSkillContent_returned host name targetPath snapshot w content w' :
  skillMapPromise w = Some snapshot ->
  viewSkillContent host name targetPath w = (Returned content, w') ->
  exists skill,
    snapshot !! name = Some skill
    /\ validateSkillPath targetPath = Valid
    /\ targetPath ∈ Skill.availableFiles skill.
Proof.
  intros Hpromise Hview.
  rewrite (viewSkillContent_after_load host _ _ _ _ _ (loadSkills_cached host _ _ Hpromise))
    in Hview.
  destruct (snapshot !! name) as [skill|]; [|discriminate].
  destruct (validateSkillPath targetPath); [|discriminate].
  destruct (Str.array_includes (Skill.availableFiles skill) targetPath) eqn:Hfile;
    [|discriminate].
  exists skill. repeat split. unfold Str.array_includes in Hfile.
  now apply bool_decide_eq_true_1 in Hfile.
Qed.

(** The main file of a skill of a loaded snapshot can be read. *)
Lemma loaded_skill_main_file host force w0 snapshot w1 name skill :
  skillMapPromise w0 = None \/ force = true ->
  loadSkills host force w0 = (Returned snapshot, w1) ->
  snapshot !! name = Some skill ->
  Skill.name skill = name
  /\ SKILL_MAIN_FILE ∈ Skill.availableFiles skill
  /\ exists fileContent,
       fs_readFile host (Path.join [Skill.path skill; SKILL_MAIN_FILE]) = Some fileContent.
Proof.
  intros Hfresh Hload Hname.
  destruct (loadSkills_seeded host _ _ _ _ Hfresh Hload name skill Hname)
    as (m & content & Hm & Hn & Hskill & _).
  split; [now rewrite Hskill|]. split; [rewrite Hskill; apply main_file_scanned|].
  unfold skill_manifest in Hm.
  destruct (fs_readFile host (Path.join [Skill.path skill; SKILL_MAIN_FILE]));
    [eauto|discriminate].
Qed.

(** X14: the prompt of a registered skill never fails while the storage is
    as it was at load time.  For a skill of a snapshot loaded by
    [loadSkills], in any world that still holds that snapshot, the function
    of its prompt factory returns one user text message; its text is the
    non-empty content cached for the main file, in which case nothing is
    touched, or else the stored content of the main file; the description is
    the one of the skill, or the name of the skill when that is empty. *)
Theorem prompt_of_registered_skill (host : Host) (force : bool) (w0 w1 w : World)
    (snapshot : gmap string Skill.t) (name : string) (skill : Skill.t) :
  skillMapPromise w0 = None \/ force = true ->
  loadSkills host force w0 = (Returned snapshot, w1) ->
  skillMapPromise w = Some snapshot ->
  snapshot !! name = Some skill ->
  exists content w',
    pf_fn (promptFactory host name skill) w
    = (Returned {| pr_description :=
                     if Str.is_empty (Skill.description skill) then name
                     else Skill.description skill;
                   messages := [mkPromptMessage "user" "text" content] |}, w')
    /\ ((skillContentCache w !! cache_key name SKILL_MAIN_FILE = Some content
         /\ content <> EmptyString /\ w' = w)
        \/ fs_readFile host (Path.join [Skill.path skill; SKILL_MAIN_FILE]) = Some content).
Proof.
  intros Hfresh Hload Hpromise Hname.
  destruct (loaded_skill_main_file host _ _ _ _ _ _ Hfresh Hload Hname)
    as (_ & Hfile & fileContent & Hread).
  cbn [pf_fn promptFactory]. unfold bind at 1.
  rewrite (viewSkillContent_after_load host _ _ _ _ _ (loadSkills_cached host _ _ Hpromise)).
  rewrite Hname. change (validateSkillPath SKILL_MAIN_FILE) with Valid. cbv iota.
  unfold Str.array_includes. rewrite bool_decide_eq_true_2 by exact Hfile. cbn [negb].
  assert (exists content w',
            read_through host skill name SKILL_MAIN_FILE (cache_key name SKILL_MAIN_FILE) w
            = (Returned content, w')
            /\ fs_readFile host (Path.join [Skill.path skill; SKILL_MAIN_FILE]) = Some content)
    as (stored & ws & Hthrough & Hstored)
    by (rewrite read_through_run, Hread; eauto).
  destruct (skillContentCache w !! cache_key name SKILL_MAIN_FILE) as [cached|] eqn:Hcached.
  - destruct (Str.is_empty cached) eqn:Hempty; cbn [negb].
    + rewrite Hthrough. exists stored, ws. split; [reflexivity|now right].
    + exists cached, w. split; [reflexivity|]. left. repeat split.
      intros ->. discriminate Hempty.
  - rewrite Hthrough. exists stored, ws. split; [reflexivity|now right].
Qed.

Lemma prompt_of_registered_skill_witness :
  exists w',
    pf_fn (promptFactory demoHost "alpha-one"
             (Skill.mk "/srv/skills/alpha" "alpha-one" "demo" None
                ["SKILL.md"; "scripts/a.sql"; "scripts/empty.sql"]))
      (loadSkills demoHost false initial_world).2
    = (Returned {| pr_description := "demo";
                   messages := [mkPromptMessage "user" "text" "body A"] |}, w').
Proof.
  assert (exists snapshot w1,
            loadSkills demoHost false initial_world = (Returned snapshot, w1)
            /\ (loadSkills demoHost false initial_world).2 = w1
            /\ skillMapPromise w1 = Some snapshot
            /\ snapshot !! "alpha-one"
               = Some (Skill.mk "/srv/skills/alpha" "alpha-one" "demo" None
                         ["SKILL.md"; "scripts/a.sql"; "scripts/empty.sql"])
            /\ skillContentCache w1 !! cache_key "alpha-one" SKILL_MAIN_FILE = Some "body A")
    as (snapshot & w1 & Hload & -> & Hpromise & Hname & Hcache).
  { do 2 eexists. split; [vm_compute; reflexivity|]. repeat split; vm_compute; reflexivity. }
  destruct (prompt_of_registered_skill demoHost false initial_world w1 w1 snapshot
              "alpha-one" _ (or_introl eq_refl) Hload Hpromise Hname)
    as (content & w' & Hrun & Hcontent).
  exists w'. rewrite Hrun. do 3 f_equal.
  destruct Hcontent as [(H & _ & _) | H]; [congruence|].
  vm_compute in H. injection H as <-.
  exfalso. revert Hrun. cbn [pf_fn promptFactory]. unfold bind at 1.
  rewrite (viewSkillContent_after_load demoHost _ _ _ _ _
             (loadSkills_cached demoHost _ _ Hpromise)), Hname.
  change (validateSkillPath SKILL_MAIN_FILE) with Valid. cbv iota.
  change (Str.array_includes _ SKILL_MAIN_FILE) with true. cbn [negb].
  rewrite Hcache. cbn. discriminate.
Defined.

(** X15: the tool [view_skill], called with the snapshot that the module
    exported while that snapshot is still the loaded one.  For a name that
    is not in the snapshot it throws its own not-found error and touches
    nothing; the not-found error of [viewSkillContent] for the skill can then
    never come out of it.  When it returns, the name of the output is the
    requested name, the path of the output is the requested path (the main
    file for [null]), that path passed the validator and is one of the
    available files of the output, and description, available files and
    metadata are those of the skill of the snapshot. *)
Theorem viewSkill_fn_result (host : Host) (force : bool) (w0 w1 w : World)
    (skills : gmap string Skill.t) (name : string) (path : option string) :
  skillMapPromise w0 = None \/ force = true ->
  loadSkills host force w0 = (Returned skills, w1) ->
  skillMapPromise w = Some skills ->
  (skills !! name = None ->
   viewSkill_fn host skills name path w = (inl (ToolSkillNotFound name), w))
  /\ (forall name' w',
        viewSkill_fn host skills name path w
        <> (inl (ContentError (SkillNotFound name')), w'))
  /\ (forall output w',
        viewSkill_fn host skills name path w = (inr output, w') ->
        out_name output = name
        /\ out_path output = match path with Some p => p | None => SKILL_MAIN_FILE end
        /\ validateSkillPath (out_path output) = Valid
        /\ out_path output ∈ out_availableFiles output
        /\ exists skill,
             skills !! name = Some skill
             /\ out_description output = Skill.description skill
             /\ out_availableFiles output = Skill.availableFiles skill
             /\ out_metadata output = Skill.metadata skill).
Proof.
  intros Hfresh Hload Hpromise. unfold viewSkill_fn.
  destruct (skills !! name) as [skill|] eqn:Hname.
  - split; [discriminate|]. split.
    + intros name' w' H.
      destruct (viewSkillContent host name
                  match path with Some p => p | None => "SKILL.md" end w)
        as [[content|e] w2] eqn:Hview; [discriminate|].
      injection H as -> _.
      rewrite (viewSkillContent_after_load host _ _ _ _ _
                 (loadSkills_cached host _ _ Hpromise)), Hname in Hview.
      destruct (validateSkillPath _); [|discriminate].
      destruct (negb _); [discriminate|].
      destruct (skillContentCache w !! _) as [cached|];
        [destruct (negb _); [discriminate|]|];
        rewrite read_through_run in Hview; destruct (fs_readFile _ _); discriminate.
    + intros output w' H.
      destruct (viewSkillContent host name
                  match path with Some p => p | None => "SKILL.md" end w)
        as [[content|e] w2] eqn:Hview; [|discriminate].
      injection H as <- _.
      destruct (viewSkillContent_returned host _ _ _ _ _ _ Hpromise Hview)
        as (skill' & Hname' & Hvalid & Hfile).
      rewrite Hname in Hname'. injection Hname' as <-.
      destruct (loaded_skill_main_file host _ _ _ _ _ _ Hfresh Hload Hname) as (Hn & _).
      cbn. split; [exact Hn|]. split; [reflexivity|]. split; [exact Hvalid|].
      split; [exact Hfile|]. exists skill. split; [reflexivity|].
      split; [|now split]. unfold or_else. now destruct (Skill.description skill).
  - split; [reflexivity|]. split; [discriminate|discriminate].
Qed.

Lemma viewSkill_fn_result_witness :
  exists skills w,
    skillMapPromise w = Some skills
    /\ viewSkill_fn demoHost skills "unknown-skill" None w
       = (inl (ToolSkillNotFound "unknown-skill"), w).
Proof.
  assert (exists skills w,
            loadSkills demoHost false initial_world = (Returned skills, w)
            /\ skillMapPromise w = Some skills
            /\ skills !! "unknown-skill" = None)
    as (skills & w & Hload & Hpromise & Hname).
  { do 2 eexists. split; [vm_compute; reflexivity|]. split; vm_compute; reflexivity. }
  exists skills, w. split; [exact Hpromise|].
  exact (proj1 (viewSkill_fn_result demoHost false initial_world w w skills
                  "unknown-skill" None (or_introl eq_refl) Hload Hpromise) Hname).
Defined.

(** ** The script that checks the upstream skill files *)

Section UpstreamScript.

Import Upstream.

Variable net : Network.

Lemma fetchContent_run url s :
  fetchContent net url s
  = (match net (length (fetched s)) url with
     | FetchRejected message => inl message
     | FetchResponse ok status statusText body =>
         if negb ok then
           inl ("Failed to fetch " +:+ url +:+ ": " +:+ pretty status +:+ " " +:+ statusText)
         else match body with
              | TextResolved content => inr content
              | TextRejected message => inl message
              end
     end,
     mkScript (stdout s) (stderr s) (fetched s ++ [url])).
Proof.
  unfold fetchContent. destruct (net (length (fetched s)) url) as [|[] ? ? []]; reflexivity.
Qed.

(** X16: [checkSkill] never throws and reports under the name it was given.
    It fetches the pinned URL first; when that fetch does not deliver a text
    (the fetch is rejected, the response is not ok, or reading the text
    fails), the result carries an error, is not marked as changed, and the
    source URL is not fetched at all.  Otherwise it fetches the source URL;
    when that does not deliver a text, the result carries an error and is
    not marked as changed; when both texts are delivered, the result has no
    error and is marked as changed exactly when the two texts differ. *)
Theorem checkSkill_outcome (skillName : string) (config : UpstreamConfig) (s : Script) :
  exists r s',
    checkSkill net skillName config s = (r, s')
    /\ name r = skillName
    /\ stderr s' = stderr s
    /\ match delivered (net (length (fetched s)) (pinned_url config)) with
       | None =>
           changed r = false /\ is_Some (error r)
           /\ fetched s' = fetched s ++ [pinned_url config]
       | Some pinnedContent =>
           fetched s' = fetched s ++ [pinned_url config; source_url config]
           /\ match delivered (net (S (length (fetched s))) (source_url config)) with
              | None => changed r = false /\ is_Some (error r)
              | Some currentContent =>
                  error r = None
                  /\ (changed r = true <-> pinnedContent <> currentContent)
              end
       end.
Proof.
  unfold checkSkill. rewrite fetchContent_run. cbn [fetched console_log].
  destruct (net (length (fetched s)) (pinned_url config)) as [m|[] status statusText [p|m]];
    cbn [negb delivered]; try (do 2 eexists; repeat split; eauto; fail).
  rewrite fetchContent_run. cbn [fetched console_log stdout stderr].
  rewrite List.length_app; cbn [length]; rewrite Nat.add_1_r.
  assert ((fetched s ++ [pinned_url config]) ++ [source_url config]
          = fetched s ++ [pinned_url config; source_url config]) as Hurls
    by now rewrite <- app_assoc.
  destruct (net (S (length (fetched s))) (source_url config))
    as [m|[] status2 statusText2 [c|m]];
    cbn [negb delivered];
    try (do 2 eexists; (split; [reflexivity|]); cbn; repeat split; eauto; fail).
  destruct (bool_decide (p <> c)) eqn:E; do 2 eexists;
    (split; [reflexivity|]); cbn; repeat split; auto; try discriminate.
  - intros _. now apply bool_decide_eq_true_1 in E.
  - intros H. apply bool_decide_eq_false_1 in E. contradiction.
Qed.

(** What the loop of [main] needs to know about one check. *)
Lemma checkSkill_run skillName config s :
  exists r s' urls,
    checkSkill net skillName config s = (r, s')
    /\ name r = skillName
    /\ stderr s' = stderr s
    /\ (changed r = true -> has_error r = false)
    /\ fetched s' = fetched s ++ urls
    /\ forall url, url ∈ urls -> url = pinned_url config \/ url = source_url config.
Proof.
  assert (forall url, url ∈ [pinned_url config] ->
                      url = pinned_url config \/ url = source_url config) as Hone
    by (intros url ->%list_elem_of_singleton; now left).
  assert (forall url, url ∈ [pinned_url config; source_url config] ->
                      url = pinned_url config \/ url = source_url config) as Htwo
    by (intros url; rewrite !elem_of_cons, elem_of_nil; intros [-> | [-> | []]]; auto).
  unfold checkSkill. rewrite fetchContent_run. cbn [fetched console_log].
  destruct (net (length (fetched s)) (pinned_url config)) as [m|[] status statusText [p|m]];
    cbn [negb];
    try (do 2 eexists; exists [pinned_url config]; repeat split; auto; discriminate).
  rewrite fetchContent_run. cbn [fetched console_log stdout stderr].
  destruct (net (length (fetched s ++ [pinned_url config])) (source_url config))
    as [m|[] status2 statusText2 [c|m]]; cbn [negb];
    try (do 2 eexists; exists [pinned_url config; source_url config];
         (split; [reflexivity|]); cbn; rewrite <- ?app_assoc; repeat split; auto;
         discriminate).
  destruct (bool_decide (p <> c)); do 2 eexists;
    exists [pinned_url config; source_url config];
    (split; [reflexivity|]); cbn; rewrite <- ?app_assoc; repeat split; auto.
Qed.

Lemma console_logs_fetched lines s :
  fetched (console_logs lines s) = fetched s /\ stderr (console_logs lines s) = stderr s.
Proof.
  revert s. unfold console_logs. induction lines as [|line lines IH]; intros s; [now split|].
  cbn [fold_left]. destruct (IH (console_log line s)) as [-> ->]. now split.
Qed.

Lemma report_section_fetched title lines s :
  fetched (report_section title lines s) = fetched s
  /\ stderr (report_section title lines s) = stderr s.
Proof.
  unfold report_section. destruct lines as [|line lines]; [now split|].
  cbn [console_log fetched stderr].
  destruct (console_logs_fetched (line :: lines) (console_log title s)) as [-> ->].
  now split.
Qed.

Lemma filter_nil_existsb (f : CheckResult -> bool) (l : list CheckResult) :
  filter (fun r => f r = true) l = [] <-> existsb f l = false.
Proof.
  induction l as [|r l IH]; [easy|]. rewrite filter_cons. cbn [existsb].
  destruct (f r) eqn:E.
  - rewrite decide_True by reflexivity. split; discriminate.
  - rewrite decide_False by discriminate. exact IH.
Qed.

(** The exit code of the report. *)
Lemma report_exit_code results s :
  (report results s).1
  = (if existsb (fun r => changed r && negb (has_error r)) results then 1
     else if existsb has_error results then 2 else 0)%N
  /\ fetched (report results s).2 = fetched s
  /\ stderr (report results s).2 = stderr s.
Proof.
  unfold report.
  set (s1 := report_section "Errors:" _ _).
  assert (fetched s1 = fetched s /\ stderr s1 = stderr s) as [Hf He].
  { unfold s1. destruct (report_section_fetched "Errors:"
      (List.map (fun r => "  - " +:+ name r +:+ ": "
                          +:+ match error r with Some m => m | None => "undefined" end)
                (filter (fun r => has_error r = true) results))
      (report_section "Up to date:"
         (List.map (fun r => "  - " +:+ name r)
            (filter (fun r => negb (changed r) && negb (has_error r) = true) results))
         (console_log ("=== Results ===" +:+ LF) s))) as [-> ->].
    destruct (report_section_fetched "Up to date:"
      (List.map (fun r => "  - " +:+ name r)
         (filter (fun r => negb (changed r) && negb (has_error r) = true) results))
      (console_log ("=== Results ===" +:+ LF) s)) as [-> ->]. now split. }
  destruct (filter (fun r => changed r && negb (has_error r) = true) results)
    as [|c changes] eqn:Hc.
  - apply filter_nil_existsb in Hc. rewrite Hc.
    destruct (filter (fun r => has_error r = true) results) as [|e errors] eqn:Herr.
    + apply filter_nil_existsb in Herr. rewrite Herr. now repeat split.
    + assert (existsb has_error results = true) as ->.
      { destruct (existsb has_error results) eqn:E; [reflexivity|].
        apply filter_nil_existsb in E. congruence. }
      now repeat split.
  - assert (existsb (fun r => changed r && negb (has_error r)) results = true) as ->.
    { destruct (existsb _ results) eqn:E; [reflexivity|].
      apply filter_nil_existsb in E. congruence. }
    cbn [fst snd console_log fetched stderr].
    destruct (console_logs_fetched (List.map (fun r => "  - " +:+ name r) (c :: changes))
                (console_log "UPSTREAM CHANGES DETECTED:" s1)) as [-> ->].
    now repeat split.
Qed.

Lemma check_all_run entries results s :
  exists checked s' urls,
    check_all net entries results s = (results ++ checked, s')
    /\ List.map name checked = List.map fst entries
    /\ (forall r, r ∈ checked -> changed r = true -> has_error r = false)
    /\ stderr s' = stderr s
    /\ fetched s' = fetched s ++ urls
    /\ forall url,
         url ∈ urls ->
         exists skillName config,
           (skillName, config) ∈ entries
           /\ (url = pinned_url config \/ url = source_url config).
Proof.
  revert results s. induction entries as [|[skillName config] entries IH]; intros results s.
  - exists [], s, []. rewrite !app_nil_r. repeat split.
    + intros r []%elem_of_nil.
    + intros url []%elem_of_nil.
  - cbn [check_all].
    destruct (checkSkill_run skillName config (console_log ("Checking skill: " +:+ skillName) s))
      as (r & s2 & urls0 & Hrun & Hname & Herr & Hnoerr & Hurls0 & Hin0).
    rewrite Hrun.
    destruct (IH (results ++ [r]) (console_log "" s2))
      as (checked & s' & urls & -> & Hnames & Hchanged & Herr' & Hfetched & Hurls).
    cbn [console_log fetched] in Hurls0.
    exists (r :: checked), s', (urls0 ++ urls).
    split; [now rewrite <- app_assoc|]. split; [cbn; now rewrite Hname, Hnames|].
    split; [|split; [|split]].
    + intros r0 [-> | H]%elem_of_cons; [exact Hnoerr|now apply Hchanged].
    + rewrite Herr'. cbn [console_log stderr]. exact Herr.
    + rewrite Hfetched. cbn [console_log fetched]. now rewrite Hurls0, <- app_assoc.
    + intros url [H | H]%elem_of_app.
      * exists skillName, config. split; [apply list_elem_of_here|now apply Hin0].
      * destruct (Hurls url H) as (k & c & Hkc & Hu). exists k, c.
        split; [now apply list_elem_of_further|exact Hu].
Qed.

Lemma existsb_changed_no_error (results : list CheckResult) :
  (forall r, r ∈ results -> changed r = true -> has_error r = false) ->
  existsb (fun r => changed r && negb (has_error r)) results = existsb changed results.
Proof.
  induction results as [|r results IH]; intros H; [reflexivity|]. cbn [existsb].
  rewrite IH by (intros r0 Hr0; apply H; now apply list_elem_of_further). f_equal.
  destruct (changed r) eqn:E; [|reflexivity].
  now rewrite (H r (list_elem_of_here _ _) E).
Qed.

(** X17: the exit code of the script.  Without a configuration file the
    script exits with 0 and fetches nothing; when reading or parsing the
    file fails otherwise it exits with 2, reports the fatal error and
    fetches nothing.  With a configuration it checks every configured skill
    once, in the order of the keys, fetches only pinned and source URLs of
    the configuration, and exits with 1 when some skill has changed
    upstream, also when other skills had errors; otherwise with 2 when some
    result carries a non-empty error message; otherwise, also for an empty
    configuration, with 0. *)
Theorem main_exit_code (s : Script) :
  ((main net ConfigMissing s).1 = 0%N
   /\ fetched (main net ConfigMissing s).2 = fetched s
   /\ stderr (main net ConfigMissing s).2 = stderr s)
  /\ (forall message,
        (main net (ConfigFailed message) s).1 = 2%N
        /\ fetched (main net (ConfigFailed message) s).2 = fetched s
        /\ stderr (main net (ConfigFailed message) s).2
           = stderr s ++ [("Fatal error:", message)])
  /\ (forall entries,
        exists results s' urls,
          check_all net entries []
            (console_log ("Checking upstream skill files for updates..." +:+ LF) s)
          = (results, s')
          /\ List.map name results = List.map fst entries
          /\ (main net (ConfigParsed entries) s).1
             = (if existsb changed results then 1
                else if existsb has_error results then 2 else 0)%N
          /\ stderr (main net (ConfigParsed entries) s).2 = stderr s
          /\ fetched (main net (ConfigParsed entries) s).2 = fetched s ++ urls
          /\ forall url,
               url ∈ urls ->
               exists skillName config,
                 (skillName, config) ∈ entries
                 /\ (url = pinned_url config \/ url = source_url config)).
Proof.
  split; [now repeat split|]. split; [intros message; now repeat split|].
  intros entries.
  destruct (check_all_run entries []
              (console_log ("Checking upstream skill files for updates..." +:+ LF) s))
    as (results & s' & urls & Hrun & Hnames & Hchanged & Herr & Hfetched & Hurls).
  cbn [app] in Hrun. exists results, s', urls.
  split; [exact Hrun|]. split; [exact Hnames|].
  destruct entries as [|entry entries].
  - cbn [check_all] in Hrun. injection Hrun as <- <-.
    cbn [console_log fetched] in Hfetched. cbn. repeat split; auto.
  - unfold main. rewrite Hrun.
    destruct (report_exit_code results s') as (Hcode & Hf & He).
    rewrite Hcode, Hf, He, (existsb_changed_no_error _ Hchanged).
    repeat split; auto.
Qed.

End UpstreamScript.

(** ** Normalizing a path of two ordinary segments *)

Lemma substring_prefix a x : String.substring 0 (String.length a) (a +:+ x) = a.
Proof.
  induction a as [|c a IH]; simpl; [now destruct x|]. now rewrite IH.
Qed.

Lemma substring_skip a x n m :
  String.substring (String.length a + n) m (a +:+ x) = String.substring n m x.
Proof. induction a as [|c a IH]; simpl; [reflexivity|exact IH]. Qed.

Lemma substring_whole b : String.substring 0 (String.length b) b = b.
Proof. induction b as [|c b IH]; simpl; [reflexivity|]. now rewrite IH. Qed.

Lemma slice_first a x : Path.slice (a +:+ x) 0 (Path.len a) = a.
Proof.
  unfold Path.slice, Path.len. rewrite Z.sub_0_r, Nat2Z.id. apply substring_prefix.
Qed.

Lemma slice_second a b :
  Path.slice (a +:+ "/" +:+ b) (Path.len a + 1) (Path.len a + 1 + Path.len b) = b.
Proof.
  unfold Path.slice, Path.len.
  replace (Z.to_nat (Z.of_nat (String.length a) + 1)) with (String.length a + 1) by lia.
  replace (Z.to_nat (Z.of_nat (String.length a) + 1 + Z.of_nat (String.length b)
                     - (Z.of_nat (String.length a) + 1)))
    with (String.length b) by lia.
  rewrite substring_skip. simpl. apply substring_whole.
Qed.

Lemma dot_is_dot c : is_dot c = true -> c = "."%char.
Proof. each_char c. Qed.

Lemma scan_segment_fields seg s :
  Path.res (scan_segment seg s) = Path.res s
  /\ Path.lastSegmentLength (scan_segment seg s) = Path.lastSegmentLength s
  /\ Path.lastSlash (scan_segment seg s) = Path.lastSlash s.
Proof.
  revert s. induction seg as [|c seg IH]; intros s; [now repeat split|].
  cbn [scan_segment]. destruct (IH (Path.at_other c s)) as (-> & -> & ->).
  unfold Path.at_other. now destruct (is_dot c && negb (Path.dots s =? -1)%Z).
Qed.

(** The counter of dots after a segment: the length of a segment of dots
    only, and -1 for any other segment. *)
Lemma scan_segment_dots seg s :
  (0 <= Path.dots s)%Z ->
  Path.dots (scan_segment seg s)
  = if Str.all is_dot seg then (Path.dots s + Z.of_nat (String.length seg))%Z else (-1)%Z.
Proof.
  assert (forall seg s, Path.dots s = (-1)%Z -> Path.dots (scan_segment seg s) = (-1)%Z)
    as Hstuck.
  { clear. induction seg as [|c seg IH]; intros s H; [exact H|]. cbn [scan_segment].
    apply IH. unfold Path.at_other. rewrite H. now rewrite andb_false_r. }
  revert s. induction seg as [|c seg IH]; intros s Hs.
  - simpl. lia.
  - cbn [scan_segment Str.all]. destruct (is_dot c) eqn:Hc; cbn [andb].
    + assert (Path.at_other c s
              = Path.mkScan (Path.res s) (Path.lastSegmentLength s) (Path.lastSlash s)
                  (Path.dots s + 1)) as ->.
      { unfold Path.at_other. rewrite Hc.
        assert ((Path.dots s =? -1)%Z = false) as -> by (apply Z.eqb_neq; lia).
        reflexivity. }
      rewrite IH by (cbn; lia). cbn [Path.dots String.length].
      destruct (Str.all is_dot seg); [lia|reflexivity].
    + apply Hstuck. unfold Path.at_other. now rewrite Hc.
Qed.

(** A segment other than a dot and two dots does not end with a counter of
    one or two. *)
Lemma scan_segment_ordinary seg s :
  Path.dots s = 0%Z -> seg <> "." -> seg <> ".." ->
  (Path.dots (scan_segment seg s) =? 1)%Z = false
  /\ (Path.dots (scan_segment seg s) =? 2)%Z = false.
Proof.
  intros Hs H1 H2. rewrite scan_segment_dots by lia. rewrite Hs.
  destruct (Str.all is_dot seg) eqn:Hall; [|now split].
  destruct seg as [|c [|d [|e seg]]].
  - now split.
  - simpl in Hall. rewrite andb_true_r in Hall. apply dot_is_dot in Hall. congruence.
  - simpl in Hall. apply andb_true_iff in Hall as [Hc Hd]. rewrite andb_true_r in Hd.
    apply dot_is_dot in Hc, Hd. congruence.
  - cbn [String.length]. split; apply Z.eqb_neq; lia.
Qed.

Lemma loop_cons path allow i prev c rest s :
  Path.normalizeString_loop path allow i prev (String c rest) s
  = Path.normalizeString_loop path allow (i + 1) (Some c) rest
      (if is_slash c then Path.at_separator path allow i s else Path.at_other c s).
Proof. reflexivity. Qed.

Lemma loop_segment_end path allow i prev c seg s :
  Str.any is_slash (String c seg) = false ->
  Path.normalizeString_loop path allow i prev (String c seg) s
  = Path.res (Path.at_separator path allow (i + Z.of_nat (String.length (String c seg)))
                (scan_segment (String c seg) s)).
Proof.
  revert i prev c s. induction seg as [|d seg IH]; intros i prev c s Hslash.
  - simpl in Hslash. rewrite orb_false_r in Hslash.
    cbn [Path.normalizeString_loop scan_segment String.length]. rewrite Hslash.
    cbn [Path.char_is]. rewrite Hslash. reflexivity.
  - cbn [Str.any] in Hslash. apply orb_false_iff in Hslash as [Hc Hrest].
    rewrite loop_cons, Hc.
    rewrite (IH (i + 1)%Z (Some c) d (Path.at_other c s) Hrest).
    replace (i + 1 + Z.of_nat (String.length (String d seg)))%Z
      with (i + Z.of_nat (String.length (String c (String d seg))))%Z
      by (cbn [String.length]; lia).
    reflexivity.
Qed.

Lemma loop_segment_slash path allow i prev seg rest s :
  Str.any is_slash seg = false ->
  Path.normalizeString_loop path allow i prev (seg +:+ String "/" rest) s
  = Path.normalizeString_loop path allow (i + Z.of_nat (String.length seg) + 1)
      (Some "/"%char) rest
      (Path.at_separator path allow (i + Z.of_nat (String.length seg)) (scan_segment seg s)).
Proof.
  revert i prev s. induction seg as [|c seg IH]; intros i prev s Hslash.
  - cbn. now rewrite Z.add_0_r.
  - cbn [Str.any] in Hslash. apply orb_false_iff in Hslash as [Hc Hrest].
    change (String c seg +:+ String "/" rest) with (String c (seg +:+ String "/" rest)).
    rewrite loop_cons, Hc, (IH _ _ _ Hrest).
    cbn [scan_segment String.length].
    replace (i + 1 + Z.of_nat (String.length seg) + 1)%Z
      with (i + Z.of_nat (S (String.length seg)) + 1)%Z by lia.
    replace (i + 1 + Z.of_nat (String.length seg))%Z
      with (i + Z.of_nat (S (String.length seg)))%Z by lia.
    reflexivity.
Qed.

Lemma len_pos s : s <> EmptyString -> (0 < Path.len s)%Z.
Proof. destruct s; [congruence|]. unfold Path.len. simpl. lia. Qed.

(** The scan after a first ordinary segment and its separator. *)
Lemma at_separator_first path allow a x :
  path = a +:+ x -> a <> EmptyString -> a <> "." -> a <> ".." ->
  Path.at_separator path allow (Path.len a)
    (scan_segment a (Path.mkScan EmptyString 0 (-1) 0))
  = Path.mkScan a (Path.len a) (Path.len a) 0.
Proof.
  intros -> Hne H1 H2. pose proof (len_pos a Hne) as Hlen.
  destruct (scan_segment_fields a (Path.mkScan EmptyString 0 (-1) 0)) as (Hr & Hl & Hs).
  destruct (scan_segment_ordinary a (Path.mkScan EmptyString 0 (-1) 0) eq_refl H1 H2)
    as [Hd1 Hd2].
  unfold Path.at_separator. rewrite Hr, Hl, Hs, Hd1, Hd2. cbn [Path.res Path.lastSlash].
  assert ((-1 =? Path.len a - 1)%Z = false) as -> by (apply Z.eqb_neq; lia).
  cbn [orb]. change (-1 + 1)%Z with 0%Z. rewrite slice_first.
  change (Path.len "") with 0%Z. cbn. f_equal. lia.
Qed.

Lemma at_separator_second path allow a b :
  path = a +:+ "/" +:+ b -> a <> EmptyString -> b <> EmptyString ->
  b <> "." -> b <> ".." ->
  Path.res (Path.at_separator path allow (Path.len a + 1 + Path.len b)
              (scan_segment b (Path.mkScan a (Path.len a) (Path.len a) 0)))
  = a +:+ "/" +:+ b.
Proof.
  intros -> Ha Hb H1 H2. pose proof (len_pos a Ha) as Hla. pose proof (len_pos b Hb) as Hlb.
  destruct (scan_segment_fields b (Path.mkScan a (Path.len a) (Path.len a) 0))
    as (Hr & Hl & Hs).
  destruct (scan_segment_ordinary b (Path.mkScan a (Path.len a) (Path.len a) 0)
              eq_refl H1 H2) as [Hd1 Hd2].
  unfold Path.at_separator. rewrite Hr, Hl, Hs, Hd1, Hd2. cbn [Path.res Path.lastSlash].
  assert ((Path.len a =? Path.len a + 1 + Path.len b - 1)%Z = false) as ->
    by (apply Z.eqb_neq; lia).
  cbn [orb]. rewrite slice_second.
  assert ((0 <? Path.len a)%Z = true) as -> by (apply Z.ltb_lt; lia).
  reflexivity.
Qed.

Lemma head_is_app p a x : a <> EmptyString -> Str.head_is p (a +:+ x) = Str.head_is p a.
Proof. destruct a; [congruence|reflexivity]. Qed.

Lemma last_is_app p a b : b <> EmptyString -> Str.last_is p (a +:+ b) = Str.last_is p b.
Proof.
  intros Hb. induction a as [|c a IH]; [reflexivity|].
  change (String c a +:+ b) with (String c (a +:+ b)). rewrite last_is_cons.
  destruct (a +:+ b) eqn:E; [|exact IH].
  destruct a; [exfalso; apply Hb; exact E|discriminate].
Qed.

Lemma any_head_is p s : Str.any p s = false -> Str.head_is p s = false.
Proof. destruct s; [reflexivity|]. simpl. now intros [? _]%orb_false_iff. Qed.

Lemma any_last_is p s : Str.any p s = false -> Str.last_is p s = false.
Proof.
  induction s as [|c s IH]; [reflexivity|]. simpl Str.any. intros [Hc Hs]%orb_false_iff.
  rewrite last_is_cons. destruct (Str.is_empty s); [exact Hc|now apply IH].
Qed.

Lemma normalizeString_two_segments a b :
  Str.any is_slash a = false -> Str.any is_slash b = false ->
  a <> EmptyString -> a <> "." -> a <> ".." -> b <> "." -> b <> ".." ->
  Path.normalizeString (a +:+ "/" +:+ b) true
  = if Str.is_empty b then a else a +:+ "/" +:+ b.
Proof.
  intros Hsa Hsb Ha Ha1 Ha2 Hb1 Hb2. unfold Path.normalizeString.
  change (a +:+ "/" +:+ b) with (a +:+ String "/" b) at 2.
  rewrite (loop_segment_slash _ _ _ _ _ _ _ Hsa). rewrite Z.add_0_l.
  fold (Path.len a).
  rewrite (at_separator_first (a +:+ "/" +:+ b) true a ("/" +:+ b) eq_refl Ha Ha1 Ha2).
  destruct b as [|c b]; [reflexivity|].
  rewrite (loop_segment_end _ _ _ _ _ _ _ Hsb). fold (Path.len (String c b)).
  rewrite (at_separator_second (a +:+ "/" +:+ String c b) true a (String c b) eq_refl Ha)
    by (try assumption; discriminate).
  reflexivity.
Qed.

(** Two ordinary segments joined by a slash are a normal form. *)
Lemma normalize_two_segments a b :
  Str.any is_slash a = false -> Str.any is_slash b = false ->
  a <> EmptyString -> a <> "." -> a <> ".." -> b <> "." -> b <> ".." ->
  Path.normalize (a +:+ "/" +:+ b) = a +:+ "/" +:+ b.
Proof.
  intros Hsa Hsb Ha Ha1 Ha2 Hb1 Hb2. unfold Path.normalize.
  assert (Str.is_empty (a +:+ "/" +:+ b) = false) as -> by (destruct a; [congruence|reflexivity]).
  rewrite (head_is_app _ _ _ Ha), (any_head_is _ _ Hsa). cbn [negb].
  rewrite (normalizeString_two_segments a b) by assumption.
  destruct b as [|c b]; cbn [Str.is_empty].
  - assert (Str.is_empty a = false) as -> by (destruct a; [congruence|reflexivity]).
    rewrite last_is_app by discriminate. reflexivity.
  - assert (Str.is_empty (a +:+ "/" +:+ String c b) = false) as ->
      by (destruct a; [congruence|reflexivity]).
    change (a +:+ "/" +:+ String c b) with (a +:+ String "/" (String c b)) at 1.
    rewrite last_is_app by discriminate.
    change (String "/" (String c b)) with ("/" +:+ String c b).
    rewrite last_is_app by discriminate. now rewrite (any_last_is _ _ Hsb).
Qed.

(** ** Which declared files pass the validator *)

Lemma rev_app_rev_app s t u :
  String.rev_app (String.rev_app s t) u = String.rev_app t (s +:+ u).
Proof.
  revert t u. induction s as [|c s IH]; intros t u; [reflexivity|].
  cbn [String.rev_app]. rewrite IH. reflexivity.
Qed.

Lemma split_aux_segment cur seg :
  Str.any is_slash seg = false ->
  Str.split_aux "/" cur seg = [String.rev (String.rev_app seg cur)].
Proof.
  revert cur. induction seg as [|c seg IH]; intros cur H; [reflexivity|].
  cbn [Str.any] in H. apply orb_false_iff in H as [Hc Hseg].
  cbn [Str.split_aux String.rev_app].
  destruct (ascii_dec c "/") as [->|_]; [discriminate Hc|]. now apply IH.
Qed.

Lemma split_segment seg : Str.any is_slash seg = false -> Str.split "/" seg = [seg].
Proof.
  intros H. unfold Str.split. rewrite (split_aux_segment _ _ H). unfold String.rev.
  rewrite rev_app_rev_app. cbn [String.rev_app]. f_equal.
  clear. induction seg as [|c seg IH]; [reflexivity|].
  change (String c seg +:+ "") with (String c (seg +:+ "")). now f_equal.
Qed.

Lemma rev_rev s : String.rev (String.rev_app s "") = s.
Proof.
  unfold String.rev. rewrite rev_app_rev_app. cbn [String.rev_app].
  induction s as [|c s IH]; [reflexivity|].
  change (String c s +:+ "") with (String c (s +:+ "")). now f_equal.
Qed.

Lemma split_aux_slash cur seg rest :
  Str.any is_slash seg = false ->
  Str.split_aux "/" cur (seg +:+ String "/" rest)
  = String.rev (String.rev_app seg cur) :: Str.split_aux "/" "" rest.
Proof.
  revert cur. induction seg as [|c seg IH]; intros cur H.
  - cbn [String.append Str.split_aux String.rev_app].
    now destruct (ascii_dec "/" "/").
  - cbn [Str.any] in H. apply orb_false_iff in H as [Hc Hseg].
    change (String c seg +:+ String "/" rest) with (String c (seg +:+ String "/" rest)).
    cbn [Str.split_aux String.rev_app].
    destruct (ascii_dec c "/") as [->|_]; [discriminate Hc|]. now apply IH.
Qed.

Lemma split_two_segments a b :
  Str.any is_slash a = false -> Str.any is_slash b = false ->
  Str.split "/" (a +:+ "/" +:+ b) = [a; b].
Proof.
  intros Ha Hb. unfold Str.split.
  change (a +:+ "/" +:+ b) with (a +:+ String "/" b).
  rewrite (split_aux_slash _ _ _ Ha), rev_rev. f_equal.
  now apply split_segment.
Qed.

Lemma includes_cons c s sub :
  Str.includes (String c s) sub = Str.startsWith (String c s) sub || Str.includes s sub.
Proof. reflexivity. Qed.

Lemma allowed_subdir_cases (P : string -> Prop) subdir :
  subdir ∈ ALLOWED_SKILL_SUBDIRS ->
  P "scripts" -> P "references" -> P "assets" -> P subdir.
Proof.
  unfold ALLOWED_SKILL_SUBDIRS. rewrite !elem_of_cons, elem_of_nil.
  intros [-> | [-> | [-> | []]]]; auto.
Qed.

(** What the validator looks at in a path made of an allowed subdirectory
    and a file name without a slash. *)
Lemma declared_path_facts subdir fileName :
  subdir ∈ ALLOWED_SKILL_SUBDIRS -> Str.any is_slash fileName = false ->
  Str.startsWith (subdir +:+ "/" +:+ fileName) "/" = false
  /\ Str.includes (subdir +:+ "/" +:+ fileName) ":" = Str.includes fileName ":"
  /\ Str.includes (subdir +:+ "/" +:+ fileName) ".." = Str.includes fileName ".."
  /\ Str.split "/" (subdir +:+ "/" +:+ fileName) = [subdir; fileName]
  /\ subdir +:+ "/" +:+ fileName <> SKILL_MAIN_FILE
  /\ Str.any is_slash subdir = false
  /\ subdir <> EmptyString /\ subdir <> "." /\ subdir <> "..".
Proof.
  intros Hsub Hslash. pattern subdir. apply (allowed_subdir_cases _ _ Hsub);
    (split; [reflexivity|]); (split; [now destruct fileName|]);
    (split; [now destruct fileName as [|? []]|]);
    (split; [now apply split_two_segments|]);
    (split; [discriminate|]); repeat split; discriminate.
Qed.

Lemma dot_names_rejected subdir :
  subdir ∈ ALLOWED_SKILL_SUBDIRS ->
  validateSkillPath (subdir +:+ "/" +:+ ".") <> Valid
  /\ validateSkillPath (subdir +:+ "/" +:+ "..") <> Valid.
Proof.
  intros Hsub. pattern subdir. apply (allowed_subdir_cases _ _ Hsub); split; discriminate.
Qed.

(** X18: which declared files can be requested.  For a path made of an
    allowed subdirectory, a slash and a file name without a slash (the
    shape of the entries that [scanSkillDirectory] adds), the validator
    accepts the path exactly when the file name is not a single dot and
    contains neither a colon nor two consecutive dots; such a path is its own
    normal form.  So a file with an ordinary name is never refused, and a
    file whose name has a colon or two dots in it is listed among the
    available files but cannot be read. *)
Theorem declared_file_policy (subdir fileName : string) :
  subdir ∈ ALLOWED_SKILL_SUBDIRS ->
  Str.any is_slash fileName = false ->
  (validateSkillPath (subdir +:+ "/" +:+ fileName) = Valid
   <-> fileName <> "." /\ Str.includes fileName ":" = false
       /\ Str.includes fileName ".." = false)
  /\ (fileName <> "." -> fileName <> ".." ->
      Path.normalize (subdir +:+ "/" +:+ fileName) = subdir +:+ "/" +:+ fileName).
Proof.
  intros Hsub Hslash.
  destruct (declared_path_facts subdir fileName Hsub Hslash)
    as (Hstart & Hcolon & Hdots & Hsplit & Hmain & Hs & Hne & Hd1 & Hd2).
  assert (fileName <> "." -> fileName <> ".." ->
          Path.normalize (subdir +:+ "/" +:+ fileName) = subdir +:+ "/" +:+ fileName)
    as Hnorm by (intros; now apply normalize_two_segments).
  split; [|exact Hnorm]. split.
  - intros Hvalid.
    assert (fileName <> ".") as H1
      by (intros ->; exact (proj1 (dot_names_rejected subdir Hsub) Hvalid)).
    split; [exact H1|].
    destruct (Str.includes fileName ":") eqn:Hc.
    { rewrite validateSkillPath_absolute in Hvalid by (right; now rewrite Hcolon).
      discriminate. }
    split; [reflexivity|].
    destruct (Str.includes fileName "..") eqn:Hd; [exfalso|reflexivity].
    destruct (decide (fileName = "..")) as [->|H2].
    + exact (proj2 (dot_names_rejected subdir Hsub) Hvalid).
    + destruct (validateSkillPath_traversal (subdir +:+ "/" +:+ fileName)) as [reason Hr].
      * rewrite (Hnorm H1 H2). now rewrite Hdots.
      * congruence.
  - intros (H1 & Hc & Hd).
    assert (fileName <> "..") as H2 by (intros ->; discriminate Hd).
    unfold validateSkillPath. rewrite (Hnorm H1 H2), Hstart, Hcolon, Hc, Hdots, Hd.
    cbn [orb]. rewrite bool_decide_eq_false_2 by exact Hmain. rewrite Hsplit.
    unfold Str.array_includes. now rewrite bool_decide_eq_true_2.
Qed.

Lemma declared_file_policy_witness :
  validateSkillPath ("references" +:+ "/" +:+ "notes.v2.md") = Valid
  /\ validateSkillPath ("scripts" +:+ "/" +:+ "a..b") <> Valid.
Proof.
  assert ("references" ∈ ALLOWED_SKILL_SUBDIRS /\ "scripts" ∈ ALLOWED_SKILL_SUBDIRS)
    as [Hr Hs] by (unfold ALLOWED_SKILL_SUBDIRS; rewrite !elem_of_cons; auto).
  split.
  - apply (declared_file_policy "references" "notes.v2.md" Hr eq_refl).
    repeat split. discriminate.
  - intros H. apply (declared_file_policy "scripts" "a..b" Hs eq_refl) in H
      as (_ & _ & H). discriminate H.
Defined.
